(** * demosmith: session store, evidence capture, narration timing, subtitles
      and deliverable packaging

    A shallow embedding of the TypeScript sources
      - [session/manager.ts]   (session store and tab registry),
      - [collector/collector.ts] (evidence capture),
      - [generator/narration.ts] (both revisions: estimated timing and
        video-synchronised timing),
      - [generator/subtitle.ts] (SRT / VTT encoders),
      - [generator/packager.ts] (deliverable packaging),
      - [tools/scroll.ts]      (the scroll tool),
    followed by the properties established about them.

    Conventions.  JavaScript numbers that hold millisecond counts, ids and
    lengths are integers in the program and are modelled by [Z]; the
    quotient [successRate] is an IEEE-754 double ([spec_float] with 53
    bits of precision); the reading-rate estimate, which is rounded to a
    whole number of milliseconds at once, is computed on exact rationals
    [Q], which gives the number the doubles give
    ([estimate_exact_as_double]).  Paths are joined as Node's POSIX [path.join] joins them.
    JavaScript strings are modelled by [string], read as sequences of
    code units below 256.  Exceptions are values of [Exn];
    effectful code lives in a state-and-exception monad over [World]. *)

From Stdlib Require Import ZArith QArith Qround Lia String Ascii List.
From Stdlib Require Import Sorted SpecFloat.
From stdpp Require Import base list strings gmap pretty.

Open Scope string_scope.
Open Scope list_scope.
Open Scope Z_scope.

(** ** JavaScript string and number primitives *)

Module Js.

Definition nl : string := String (ascii_of_nat 10) EmptyString.

(** The one-character string holding a double quote. *)
Definition dquote : string := String (ascii_of_nat 34) EmptyString.

(** Truthiness of a string: every string but the empty one. *)
Definition truthy (s : string) : bool :=
  match s with EmptyString => false | String _ _ => true end.

(** [o || dflt] on an optional string field. *)
Definition or_else (o : option string) (dflt : string) : string :=
  match o with
  | Some s => if truthy s then s else dflt
  | None => dflt
  end.

(** Truthiness of an optional string field ([undefined] and [''] are falsy). *)
Definition truthy_opt (o : option string) : bool :=
  match o with Some s => truthy s | None => false end.

(** Truthiness of an optional number ([undefined] and [0] are falsy). *)
Definition truthy_num (o : option Z) : bool :=
  match o with Some n => negb (n =? 0) | None => false end.

Definition lower_unit (c : ascii) : ascii :=
  let n := nat_of_ascii c in
  if ((65 <=? n) && (n <=? 90))%nat then ascii_of_nat (n + 32)
  else if ((192 <=? n) && (n <=? 222) && negb (n =? 215))%nat
       then ascii_of_nat (n + 32)
  else c.

Fixpoint toLowerCase (s : string) : string :=
  match s with
  | EmptyString => EmptyString
  | String c r => String (lower_unit c) (toLowerCase r)
  end.

Definition startsWith (s p : string) : bool := String.prefix p s.

Definition endsWith (s suffix : string) : bool :=
  let n := String.length s in
  let m := String.length suffix in
  ((m <=? n)%nat && String.eqb (String.substring (n - m) m s) suffix)%bool.

(** [s.substring(0, n)]. *)
Definition substring0 (n : nat) (s : string) : string := String.substring 0 n s.

(** The code units matched by the regular expression class [\s]. *)
Definition is_space (c : ascii) : bool :=
  let n := nat_of_ascii c in
  (((9 <=? n) && (n <=? 13)) || (n =? 32) || (n =? 160))%nat.

(** [s.split(/\s+/).length]: one more than the number of maximal runs of
    white space in [s].  The flag tells whether the previous code unit was
    white space. *)
Fixpoint split_ws_count (in_run : bool) (s : string) : Z :=
  match s with
  | EmptyString => 1
  | String c r =>
      if is_space c
      then (if in_run then 0 else 1) + split_ws_count true r
      else split_ws_count false r
  end.

Definition split_ws_length (s : string) : Z := split_ws_count false s.

(** [String(n)] for an integer. *)
Definition of_int (n : Z) : string := pretty n.

Fixpoint repeat_unit (c : ascii) (n : nat) : string :=
  match n with O => EmptyString | S k => String c (repeat_unit c k) end.

(** [s.padStart(n, '0')]. *)
Definition padStart0 (n : nat) (s : string) : string :=
  repeat_unit "0"%char (n - String.length s) +:+ s.

(** [lines.join('\n')]. *)
Definition join_lines (lines : list string) : string := String.concat nl lines.

(** [Math.round] on an exact rational: the nearest integer, halves up. *)
Definition Math_round (x : Q) : Z := Qfloor (x + (1 # 2))%Q.

Definition Math_max (a b : Q) : Q := if Qle_bool a b then b else a.

(** [a ?? b] on an optional number. *)
Definition nullish (o : option Z) (dflt : Z) : Z :=
  match o with Some v => v | None => dflt end.

(** *** [path.join], as Node's POSIX implementation computes it *)

(** The pieces of a path between its slashes. *)
Fixpoint path_pieces (s : string) : list string :=
  match s with
  | EmptyString => [EmptyString]
  | String c r =>
      if Ascii.eqb c "/"%char then EmptyString :: path_pieces r
      else match path_pieces r with
           | piece :: others => String c piece :: others
           | [] => [String c EmptyString]
           end
  end.

(** One turn of [normalizeString], on the segments kept so far: an empty
    piece and [.] are dropped; [..] removes the last segment kept, unless
    there is none or it is [..] itself, in which case it is kept when the
    path is relative and dropped when it is absolute. *)
Definition normalize_piece (allowAboveRoot : bool) (res : list string)
    (piece : string) : list string :=
  if String.eqb piece EmptyString || String.eqb piece "." then res
  else if String.eqb piece ".." then
    match last res with
    | Some kept =>
        if String.eqb kept ".."
        then (if allowAboveRoot then res ++ [".."] else res)
        else removelast res
    | None => if allowAboveRoot then res ++ [".."] else res
    end
  else res ++ [piece].

Definition starts_slash (s : string) : bool :=
  match s with String c _ => Ascii.eqb c "/"%char | EmptyString => false end.

Fixpoint ends_slash (s : string) : bool :=
  match s with
  | EmptyString => false
  | String c r =>
      match r with
      | EmptyString => Ascii.eqb c "/"%char
      | String _ _ => ends_slash r
      end
  end.

(** [path.normalize]. *)
Definition path_normalize (path : string) : string :=
  if String.eqb path EmptyString then "."
  else
    let isAbsolute := starts_slash path in
    let trailingSeparator := ends_slash path in
    let body :=
      String.concat "/"
        (fold_left (normalize_piece (negb isAbsolute)) (path_pieces path) []) in
    if String.eqb body EmptyString then
      (if isAbsolute then "/" else if trailingSeparator then "./" else ".")
    else
      (if isAbsolute then "/" else EmptyString) +:+ body
        +:+ (if trailingSeparator then "/" else EmptyString).

(** [path.join(...parts)]: the parts that are not empty, joined by slashes
    and normalized. *)
Definition path_joins (parts : list string) : string :=
  match List.filter truthy parts with
  | [] => "."
  | kept => path_normalize (String.concat "/" kept)
  end.

Definition path_join (dir name : string) : string := path_joins [dir; name].

Definition path_join3 (a b c : string) : string := path_joins [a; b; c].

(** *** Numbers that are not whole: IEEE-754 doubles *)

Definition double_of_Z (z : Z) : spec_float := binary_normalize 53 1024 z 0 false.

(** [a / b] on two numbers. *)
Definition divide (a b : spec_float) : spec_float := SFdiv 53 1024 a b.

(** [a * b] on two numbers. *)
Definition multiply (a b : spec_float) : spec_float := SFmul 53 1024 a b.

(** [Math.max] on two doubles. *)
Definition Math_max_double (a b : spec_float) : spec_float :=
  match SFcompare a b with
  | Some Lt => b
  | Some Gt => a
  | Some Eq => match a with S754_zero true => b | _ => a end
  | None => S754_nan
  end.

(** [Math.round] on a double that is a number: the nearest integer, halves
    up; nothing on an infinity or on NaN. *)
Definition Math_round_double (x : spec_float) : option Z :=
  match x with
  | S754_zero _ => Some 0
  | S754_finite sign m e =>
      let v := if sign then Z.neg m else Z.pos m in
      Some (if 0 <=? e then v * 2 ^ e
            else (2 * v + 2 ^ (- e)) / 2 ^ (1 - e))
  | _ => None
  end.

End Js.

(** ** Data model ([types.ts]) *)

(** The [details] bag of a step. *)
Record StepDetails := mkDetails {
  d_ref : option string;
  d_selector : option string;
  d_value : option string;
  d_url : option string;
  d_key : option string;
  d_fromRef : option string;
  d_toRef : option string;
  d_filePath : option string;
  d_fileName : option string;
  d_type : option string;
  d_expected : option string;
  d_actual : option string;
  d_message : option string;
  d_direction : option string;
  d_amount : option Z;
  d_condition : option string
}.

(** The empty object literal [{}]. *)
Definition no_details : StepDetails :=
  mkDetails None None None None None None None None
            None None None None None None None None.

Record Evidence := mkEvidence {
  screenshotPath : option string;
  beforeSnapshot : option string;
  afterSnapshot : option string
}.

(** [Omit<DemoStep, 'id'>]. *)
Record PartialStep := mkPartial {
  p_action : string;
  p_description : string;
  p_timestamp : Z;
  p_duration : Z;
  p_videoStartMs : option Z;
  p_videoEndMs : option Z;
  p_details : StepDetails;
  p_evidence : Evidence;
  p_success : bool;
  p_error : option string
}.

Record DemoStep := mkStep {
  step_id : Z;
  step_action : string;
  step_description : string;
  step_timestamp : Z;
  step_duration : Z;
  step_videoStartMs : option Z;
  step_videoEndMs : option Z;
  step_details : StepDetails;
  step_evidence : Evidence;
  step_success : bool;
  step_error : option string
}.

(** The object spread [{ ...step, id }]. *)
Definition with_id (p : PartialStep) (id : Z) : DemoStep :=
  mkStep id (p_action p) (p_description p) (p_timestamp p) (p_duration p)
         (p_videoStartMs p) (p_videoEndMs p) (p_details p) (p_evidence p)
         (p_success p) (p_error p).

Definition without_id (s : DemoStep) : PartialStep :=
  mkPartial (step_action s) (step_description s) (step_timestamp s)
            (step_duration s) (step_videoStartMs s) (step_videoEndMs s)
            (step_details s) (step_evidence s) (step_success s) (step_error s).

Record DemoSessionOptions := mkOptions {
  opt_video : bool;
  opt_trace : bool;
  opt_screenshotOnStep : bool;
  opt_outputDir : string;
  opt_storageState : option string;
  opt_headless : bool;
  opt_viewport : Z * Z
}.

Inductive Status := running | completed | failed.

(** Handles of the automation driver. *)
Definition Page := nat.
Definition Browser := nat.
Definition BrowserContext := nat.

Record DemoSession := mkSession {
  sess_id : string;
  sess_title : string;
  sess_startUrl : string;
  sess_startedAt : Z;
  sess_status : Status;
  sess_options : DemoSessionOptions;
  sess_steps : list DemoStep;
  sess_videoStartTime : option Z;
  sess_browser : option Browser;
  sess_context : option BrowserContext;
  sess_page : option Page;
  (** A JavaScript [Map], kept in insertion order. *)
  sess_pages : list (Z * Page);
  sess_activePageId : Z;
  sess_nextPageId : Z
}.

(** ** Narration text ([stepToNarration], identical in both revisions) *)

Definition stepToNarration (step : DemoStep) : string :=
  let action := step_action step in
  let description := step_description step in
  let details := step_details step in
  if String.eqb action "navigate" then
    if Js.truthy_opt (d_url details)
    then "First, let's navigate to the page. " +:+ description
    else description
  else if String.eqb action "click" then
    "Now, " +:+
      (if Js.startsWith (Js.toLowerCase description) "click"
       then description
       else "click to " +:+ Js.toLowerCase description)
  else if String.eqb action "fill" then
    match d_value details with
    | Some v =>
        if Js.truthy v then
          let maskedValue :=
            if (20 <? String.length v)%nat
            then Js.substring0 20 v +:+ "..."
            else v in
          description +:+ ". I'll type " +:+ Js.dquote +:+ maskedValue +:+ Js.dquote +:+ "."
        else description
    | None => description
    end
  else if String.eqb action "select" then
    match d_value details with
    | Some v =>
        if Js.truthy v
        then description +:+ ". I'll select " +:+ Js.dquote +:+ v +:+ Js.dquote +:+ "."
        else description
    | None => description
    end
  else if String.eqb action "scroll" then
    "Let me scroll " +:+ Js.or_else (d_direction details) "down" +:+ " to show you more."
  else if String.eqb action "wait" then
    "I'll wait for the page to load."
  else if String.eqb action "screenshot" then
    EmptyString
  else description.

Definition introText (title : string) : string :=
  "Welcome! In this tutorial, I'll show you how to " +:+ Js.toLowerCase title
    +:+ ". Let's get started.".

Definition outroText (title : string) : string :=
  "And that's it! You've successfully completed " +:+ Js.toLowerCase title
    +:+ ". Thanks for watching!".

(** [session.steps.reduce((sum, s) => sum + s.duration, 0)]. *)
Definition sumDurations (steps : list DemoStep) : Z :=
  fold_left (fun sum s => sum + step_duration s) steps 0.

(** ** Narration timing, estimated revision ([generator/narration.ts]) *)

Module Estimated.

Record TimedEntry := mkEntry {
  stepId : Z;
  timestamp : Z;
  duration : Z;
  text : string
}.

(** [Math.max(2000, (wordCount / 150) * 60 * 1000)]. *)
Definition estimatedDuration (narration : string) : Q :=
  let wordCount := Js.split_ws_length narration in
  Js.Math_max 2000 ((inject_Z wordCount / 150) * 60 * 1000)%Q.

(** The same expression on the doubles of the program, to compare the
    exact estimate with. *)
Definition estimatedDurationDouble (narration : string) : spec_float :=
  let wordCount := Js.double_of_Z (Js.split_ws_length narration) in
  Js.Math_max_double (Js.double_of_Z 2000)
    (Js.multiply
       (Js.multiply (Js.divide wordCount (Js.double_of_Z 150)) (Js.double_of_Z 60))
       (Js.double_of_Z 1000)).

(** One turn of the [for (const step of session.steps)] loop, on the pair
    of the array under construction and [cumulativeTime]. *)
Definition loop_body (st : list TimedEntry * Z) (step : DemoStep)
  : list TimedEntry * Z :=
  let '(timedNarration, cumulativeTime) := st in
  let narration := stepToNarration step in
  if Js.truthy narration then
    (timedNarration ++
       [mkEntry (step_id step) cumulativeTime
                (Js.Math_round (estimatedDuration narration)) narration],
     cumulativeTime + (step_duration step + 500))
  else st.

Definition generateTimedNarration (session : DemoSession) : list TimedEntry :=
  let intro := mkEntry 0 0 3000 (introText (sess_title session)) in
  let '(timedNarration, cumulativeTime) :=
    fold_left loop_body (sess_steps session) ([intro], 3000) in
  timedNarration ++
    [mkEntry (-1) cumulativeTime 4000 (outroText (sess_title session))].

End Estimated.

(** ** Narration timing, video-synchronised revision
       (the [generator/narration.ts] that [subtitle.ts] and [tts.ts] import) *)

Module VideoSync.

Record NarrationSegment := mkSegment {
  stepId : Z;
  startMs : Z;
  endMs : Z;
  durationMs : Z;
  text : string
}.

Record NarrationData := mkData {
  title : string;
  totalDurationMs : Z;
  segments : list NarrationSegment
}.

(** [lastStep?.videoEndMs ?? steps.reduce(...) + 5000]. *)
Definition totalDuration (steps : list DemoStep) : Z :=
  match last steps with
  | Some lastStep =>
      Js.nullish (step_videoEndMs lastStep) (sumDurations steps + 5000)
  | None => sumDurations steps + 5000
  end.

(** [segments[segments.length - 1]?.endMs ?? dflt]. *)
Definition lastEndOr (segs : list NarrationSegment) (dflt : Z) : Z :=
  match last segs with Some seg => endMs seg | None => dflt end.

(** One turn of the [for (const step of session.steps)] loop. *)
Definition loop_body (segs : list NarrationSegment) (step : DemoStep)
  : list NarrationSegment :=
  let narration := stepToNarration step in
  if Js.truthy narration then
    let startMs := Js.nullish (step_videoStartMs step) (lastEndOr segs 2000) in
    let endMs := Js.nullish (step_videoEndMs step) (startMs + step_duration step) in
    segs ++ [mkSegment (step_id step) startMs endMs (endMs - startMs) narration]
  else segs.

Definition generateTimedNarration (session : DemoSession) : NarrationData :=
  let totalDurationMs := totalDuration (sess_steps session) in
  let intro := mkSegment 0 0 2000 2000 (introText (sess_title session)) in
  let segs := fold_left loop_body (sess_steps session) [intro] in
  let outroStart := lastEndOr segs (totalDurationMs - 3000) in
  let outro := mkSegment (-1) outroStart totalDurationMs
                         (totalDurationMs - outroStart)
                         (outroText (sess_title session)) in
  mkData (sess_title session) totalDurationMs (segs ++ [outro]).

End VideoSync.

(** ** Subtitle encoders ([generator/subtitle.ts]) *)

(** The four fields [formatSrtTime] prints. *)
Definition srtTimeFields (ms : Z) : Z * Z * Z * Z :=
  let hours := ms / 3600000 in
  let minutes := Z.rem ms 3600000 / 60000 in
  let seconds := Z.rem ms 60000 / 1000 in
  let milliseconds := Z.rem ms 1000 in
  (hours, minutes, seconds, milliseconds).

Definition formatSrtTime (ms : Z) : string :=
  let '(hours, minutes, seconds, milliseconds) := srtTimeFields ms in
  Js.padStart0 2 (Js.of_int hours) +:+ ":" +:+
  Js.padStart0 2 (Js.of_int minutes) +:+ ":" +:+
  Js.padStart0 2 (Js.of_int seconds) +:+ "," +:+
  Js.padStart0 3 (Js.of_int milliseconds).

(** [s.replace(',', '.')]: the first comma becomes a dot. *)
Fixpoint replaceComma (s : string) : string :=
  match s with
  | EmptyString => EmptyString
  | String c r =>
      if Ascii.eqb c ","%char then String "."%char r
      else String c (replaceComma r)
  end.

(** A subtitle cue: its 1-based index, its time range in milliseconds and
    its text. *)
Record Cue := mkCue {
  cue_index : Z;
  cue_start : Z;
  cue_end : Z;
  cue_text : string
}.

(** The cues both encoders print: segment [index] becomes cue [index + 1]. *)
Definition cuesOf (session : DemoSession) : list Cue :=
  imap (fun index item =>
          mkCue (Z.of_nat index + 1) (VideoSync.startMs item)
                (VideoSync.endMs item) (VideoSync.text item))
       (VideoSync.segments (VideoSync.generateTimedNarration session)).

Definition srtLines (c : Cue) : list string :=
  [ Js.of_int (cue_index c);
    formatSrtTime (cue_start c) +:+ " --> " +:+ formatSrtTime (cue_end c);
    cue_text c;
    EmptyString ].

Definition vttLines (c : Cue) : list string :=
  [ Js.of_int (cue_index c);
    replaceComma (formatSrtTime (cue_start c)) +:+ " --> " +:+
      replaceComma (formatSrtTime (cue_end c));
    cue_text c;
    EmptyString ].

Definition generateSrt (session : DemoSession) : string :=
  Js.join_lines (concat (map srtLines (cuesOf session))).

Definition generateVtt (session : DemoSession) : string :=
  Js.join_lines ("WEBVTT" :: EmptyString :: concat (map vttLines (cuesOf session))).

(** ** JavaScript [Map] with integer keys, in insertion order *)

Module JsMap.
Section Ops.
Context {V : Type}.

Fixpoint get (k : Z) (m : list (Z * V)) : option V :=
  match m with
  | [] => None
  | (k', v) :: r => if k' =? k then Some v else get k r
  end.

(** [set] overwrites in place when the key exists and appends otherwise. *)
Fixpoint set (k : Z) (v : V) (m : list (Z * V)) : list (Z * V) :=
  match m with
  | [] => [(k, v)]
  | (k', v') :: r => if k' =? k then (k, v) :: r else (k', v') :: set k v r
  end.

Fixpoint delete (k : Z) (m : list (Z * V)) : list (Z * V) :=
  match m with
  | [] => []
  | (k', v') :: r => if k' =? k then r else (k', v') :: delete k r
  end.

Definition size (m : list (Z * V)) : Z := Z.of_nat (length m).

Definition keys (m : list (Z * V)) : list Z := map fst m.
End Ops.
End JsMap.

(** ** Exceptions and the state-and-exception monad *)

(** A thrown value: an [Error] object with its message, or any other value
    with its [String(e)] rendering. *)
Inductive Exn :=
  | JsError (message : string)
  | JsValue (rendering : string).

(** [e instanceof Error ? e.message : String(e)]. *)
Definition errorText (e : Exn) : string :=
  match e with JsError m => m | JsValue r => r end.

Inductive result (A : Type) :=
  | Ok (a : A)
  | Throw (e : Exn).
Arguments Ok {A} a.
Arguments Throw {A} e.

(** The automation driver and the other host services the session store
    calls, consumed through this interface only: each call acts on the state
    of the driver and returns or throws.  [launchBrowser] and [closeBrowser]
    are the two functions of [session/browser.ts], which only drive the
    browser and move the video file; [scrollIntoViewIfNeeded] stands for
    locating the element of a ref and scrolling it into view. *)
Class Driver (Ext : Type) := {
  page_screenshot : Page -> string -> Ext -> result unit * Ext;
  page_goto : Page -> string -> Ext -> result unit * Ext;
  page_close : Page -> Ext -> result unit * Ext;
  page_bringToFront : Page -> Ext -> result unit * Ext;
  context_newPage : BrowserContext -> Ext -> result Page * Ext;
  launchBrowser :
    DemoSessionOptions -> Ext -> result (Browser * BrowserContext * Page) * Ext;
  closeBrowser : DemoSession -> Ext -> result unit * Ext;
  scrollIntoViewIfNeeded : Page -> string -> Ext -> result unit * Ext;
  mouse_wheel : Page -> Z -> Z -> Ext -> result unit * Ext;
  randomUUID : Ext -> string * Ext;
  os_tmpdir : string
}.

(** The process state: the module-level [currentSession], the wall clock
    ([clock n] is what the [n]-th reading of [Date.now()] returns) and the
    state of the driver. *)
Record World (Ext : Type) := mkWorld {
  currentSession : option DemoSession;
  clock : nat -> Z;
  ticks : nat;
  ext : Ext
}.
Arguments mkWorld {Ext}.
Arguments currentSession {Ext}.
Arguments clock {Ext}.
Arguments ticks {Ext}.
Arguments ext {Ext}.

(** Effectful code over a state [St]: it returns or throws, and leaves a
    state behind either way. *)
Definition Eff (St A : Type) : Type := St -> result A * St.

Definition ret {St A} (a : A) : Eff St A := fun w => (Ok a, w).

Definition bind {St A B} (c : Eff St A) (k : A -> Eff St B) : Eff St B :=
  fun w =>
    match c w with
    | (Ok a, w') => k a w'
    | (Throw e, w') => (Throw e, w')
    end.

Definition throw {St A} (e : Exn) : Eff St A := fun w => (Throw e, w).

(** [try { body } catch (e) { ...; throw e } finally { fin }]: the [finally]
    block runs on either outcome; when it throws, its exception replaces
    the outcome of the body. *)
Definition try_finally {St A} (body : Eff St A) (fin : result A -> Eff St unit)
  : Eff St A :=
  fun w =>
    let '(r, w1) := body w in
    match fin r w1 with
    | (Throw e', w2) => (Throw e', w2)
    | (Ok _, w2) => (r, w2)
    end.

(** A call of a function that touches no state: it returns or throws. *)
Definition call {St A} (r : result A) : Eff St A := fun w => (r, w).

(** [try { body } catch { handler }]. *)
Definition try_catch {St A} (body : Eff St A) (handler : Eff St A) : Eff St A :=
  fun w =>
    match body w with
    | (Ok a, w') => (Ok a, w')
    | (Throw _, w') => handler w'
    end.

Declare Scope js_scope.
Delimit Scope js_scope with js.
Notation "x <- c ;; k" := (bind c (fun x => k))
  (at level 100, c at next level, right associativity) : js_scope.
Notation "c ;;; k" := (bind c (fun _ => k))
  (at level 100, right associativity) : js_scope.
Open Scope js_scope.

(** Code running against the process state. *)
Definition M (Ext A : Type) : Type := Eff (World Ext) A.

(** A call into the driver: it acts on the driver state only. *)
Definition lift {Ext A} (op : Ext -> result A * Ext) : M Ext A :=
  fun w =>
    let '(r, x) := op (ext w) in
    (r, mkWorld (currentSession w) (clock w) (ticks w) x).

(** [Date.now()]. *)
Definition Date_now {Ext} : M Ext Z :=
  fun w => (Ok (clock w (ticks w)),
            mkWorld (currentSession w) (clock w) (S (ticks w)) (ext w)).

Definition set_session {Ext} (s : option DemoSession) : M Ext unit :=
  fun w => (Ok tt, mkWorld s (clock w) (ticks w) (ext w)).

(** Field assignments on the session object. *)
Definition set_status (v : Status) (s : DemoSession) : DemoSession :=
  mkSession (sess_id s) (sess_title s) (sess_startUrl s) (sess_startedAt s) v
    (sess_options s) (sess_steps s) (sess_videoStartTime s) (sess_browser s)
    (sess_context s) (sess_page s) (sess_pages s) (sess_activePageId s)
    (sess_nextPageId s).

Definition set_steps (v : list DemoStep) (s : DemoSession) : DemoSession :=
  mkSession (sess_id s) (sess_title s) (sess_startUrl s) (sess_startedAt s)
    (sess_status s) (sess_options s) v (sess_videoStartTime s) (sess_browser s)
    (sess_context s) (sess_page s) (sess_pages s) (sess_activePageId s)
    (sess_nextPageId s).

Definition set_handles (b : option Browser) (c : option BrowserContext)
    (p : option Page) (s : DemoSession) : DemoSession :=
  mkSession (sess_id s) (sess_title s) (sess_startUrl s) (sess_startedAt s)
    (sess_status s) (sess_options s) (sess_steps s) (sess_videoStartTime s) b c p
    (sess_pages s) (sess_activePageId s) (sess_nextPageId s).

Definition set_pages (v : list (Z * Page)) (s : DemoSession) : DemoSession :=
  mkSession (sess_id s) (sess_title s) (sess_startUrl s) (sess_startedAt s)
    (sess_status s) (sess_options s) (sess_steps s) (sess_videoStartTime s)
    (sess_browser s) (sess_context s) (sess_page s) v (sess_activePageId s)
    (sess_nextPageId s).

Definition set_active (id : Z) (p : Page) (s : DemoSession) : DemoSession :=
  mkSession (sess_id s) (sess_title s) (sess_startUrl s) (sess_startedAt s)
    (sess_status s) (sess_options s) (sess_steps s) (sess_videoStartTime s)
    (sess_browser s) (sess_context s) (Some p) (sess_pages s) id
    (sess_nextPageId s).

Definition set_nextPageId (v : Z) (s : DemoSession) : DemoSession :=
  mkSession (sess_id s) (sess_title s) (sess_startUrl s) (sess_startedAt s)
    (sess_status s) (sess_options s) (sess_steps s) (sess_videoStartTime s)
    (sess_browser s) (sess_context s) (sess_page s) (sess_pages s)
    (sess_activePageId s) v.

Record StartSessionInput := mkStartInput {
  in_url : string;
  in_title : string;
  in_outputDir : option string;
  in_video : option bool;
  in_trace : option bool;
  in_screenshotOnStep : option bool;
  in_storageState : option string;
  in_headless : option bool;
  in_viewport : option (Z * Z)
}.

Record ExecuteOptions := mkExec {
  ex_action : string;
  ex_description : string;
  ex_details : option StepDetails
}.

Inductive Direction := up | down.

Definition direction_name (d : Direction) : string :=
  match d with up => "up" | down => "down" end.

Record ScrollInput := mkScrollInput {
  si_ref : option string;
  si_direction : Direction;
  si_amount : Z;
  si_description : string
}.

Record ScrollOutput := mkScrollOutput {
  so_success : bool;
  so_stepId : Z;
  so_ref : option string;
  so_direction : Direction;
  so_error : option string
}.

(** ** Session store and tab registry ([session/manager.ts]),
       evidence capture ([collector/collector.ts]), scroll tool *)

Section SessionStore.
Context {Ext : Type} `{Driver Ext}.

Definition getSession : M Ext (option DemoSession) :=
  fun w => (Ok (currentSession w), w).

Definition requireSession : M Ext DemoSession :=
  cur <- getSession ;;
  match cur with
  | None => throw (JsError "No active demo session. Call demosmith_start first.")
  | Some session =>
      match sess_page session with
      | None => throw (JsError "Session page is not available.")
      | Some _ => ret session
      end
  end.

Definition endSession : M Ext (option DemoSession) :=
  cur <- getSession ;;
  match cur with
  | None => ret None
  | Some session =>
      let session := set_status completed session in
      set_session (Some session) ;;;
      lift (closeBrowser session) ;;;
      let session := set_pages [] (set_handles None None None session) in
      set_session None ;;;
      ret (Some session)
  end.

Definition startSession (input : StartSessionInput) : M Ext DemoSession :=
  cur <- getSession ;;
  (match cur with Some _ => endSession | None => ret None end) ;;;
  uuid <- lift (fun x => let '(u, x') := randomUUID x in (Ok u, x')) ;;
  let sessionId := Js.substring0 8 uuid in
  let defaultOutputDir :=
    Js.path_join3 os_tmpdir "demosmith" sessionId in
  let options :=
    mkOptions (default true (in_video input))
              (default true (in_trace input))
              (default true (in_screenshotOnStep input))
              (default defaultOutputDir (in_outputDir input))
              (in_storageState input)
              (default false (in_headless input))
              (default (1280, 720) (in_viewport input)) in
  startedAt <- Date_now ;;
  videoStartTime <- Date_now ;;
  launched <- lift (launchBrowser options) ;;
  let '(browser, context, page) := launched in
  let session :=
    mkSession sessionId (in_title input) (in_url input) startedAt running
              options [] (Some videoStartTime) (Some browser) (Some context)
              (Some page) (JsMap.set 0 page []) 0 1 in
  lift (page_goto page (in_url input)) ;;;
  set_session (Some session) ;;;
  ret session.

Definition addStep (step : PartialStep) : M Ext DemoStep :=
  session <- requireSession ;;
  let fullStep := with_id step (Z.of_nat (length (sess_steps session)) + 1) in
  set_session (Some (set_steps (sess_steps session ++ [fullStep]) session)) ;;;
  ret fullStep.

Definition newTab (url : option string) : M Ext (Z * Page) :=
  session <- requireSession ;;
  match sess_context session with
  | None => throw (JsError "Browser context is not available")
  | Some context =>
      page <- lift (context_newPage context) ;;
      let pageId := sess_nextPageId session in
      let session := set_nextPageId (pageId + 1) session in
      let session := set_pages (JsMap.set pageId page (sess_pages session)) session in
      set_session (Some session) ;;;
      (match url with
       | Some u => if Js.truthy u then lift (page_goto page u) else ret tt
       | None => ret tt
       end) ;;;
      ret (pageId, page)
  end.

Definition tabNotFound (pageId : string) : Exn :=
  JsError ("Tab with id " +:+ pageId +:+ " not found").

Definition switchTab (pageId : Z) : M Ext Page :=
  session <- requireSession ;;
  match JsMap.get pageId (sess_pages session) with
  | None => throw (tabNotFound (Js.of_int pageId))
  | Some page =>
      set_session (Some (set_active pageId page session)) ;;;
      lift (page_bringToFront page) ;;;
      ret page
  end.

Definition closeTab (pageId : Z) : M Ext unit :=
  session <- requireSession ;;
  match JsMap.get pageId (sess_pages session) with
  | None => throw (tabNotFound (Js.of_int pageId))
  | Some page =>
      if JsMap.size (sess_pages session) =? 1
      then throw (JsError "Cannot close the last tab")
      else
        lift (page_close page) ;;;
        let session := set_pages (JsMap.delete pageId (sess_pages session)) session in
        set_session (Some session) ;;;
        if sess_activePageId session =? pageId then
          match JsMap.keys (sess_pages session) with
          | first :: _ => switchTab first ;;; ret tt
          | [] => throw (tabNotFound "undefined")
          end
        else ret tt
  end.

(** [session.videoStartTime ? t - session.videoStartTime : undefined]. *)
Definition videoOffset (session : DemoSession) (t : Z) : option Z :=
  match sess_videoStartTime session with
  | Some v => if Js.truthy_num (Some v) then Some (t - v) else None
  | None => None
  end.

Definition stepFileName (stepNum : Z) : string :=
  "step-" +:+ Js.padStart0 3 (Js.of_int stepNum) +:+ ".png".

(** The [finally] block of [executeWithEvidence]; [outcome] is how the
    [try] block ended. *)
Definition recordStep {T} (options : ExecuteOptions) (session : DemoSession)
    (startTime : Z) (videoStartMs : option Z) (screenshotPath : option string)
    (outcome : result T) : M Ext unit :=
  let success := match outcome with Ok _ => true | Throw _ => false end in
  let error := match outcome with Ok _ => None | Throw e => Some (errorText e) end in
  endTime <- Date_now ;;
  let duration := endTime - startTime in
  videoEndMs <- (if Js.truthy_num (sess_videoStartTime session)
                 then t <- Date_now ;; ret (videoOffset session t)
                 else ret None) ;;
  timestamp <- Date_now ;;
  addStep (mkPartial (ex_action options) (ex_description options) timestamp
                     duration videoStartMs videoEndMs
                     (default no_details (ex_details options))
                     (mkEvidence screenshotPath None None)
                     success error) ;;;
  ret tt.

(** The screenshot taken before the action, when enabled. *)
Definition captureBefore (session : DemoSession) : M Ext (option string) :=
  if opt_screenshotOnStep (sess_options session) then
    let stepNum := Z.of_nat (length (sess_steps session)) + 1 in
    let path :=
      Js.path_join3 (opt_outputDir (sess_options session)) "assets"
                   (stepFileName stepNum) in
    match sess_page session with
    | Some page => lift (page_screenshot page path) ;;; ret (Some path)
    | None =>
        throw (JsError "Cannot read properties of undefined (reading 'screenshot')")
    end
  else ret None.

(** The local [session] and the module-level [currentSession] are one
    object for as long as the callback does not start another session; both
    are read from the world here. *)
Definition executeWithEvidence {T} (options : ExecuteOptions) (fn : M Ext T)
  : M Ext (option DemoStep * T) :=
  session <- requireSession ;;
  startTime <- Date_now ;;
  let videoStartMs := videoOffset session startTime in
  screenshotPath <- captureBefore session ;;
  result <- try_finally fn
              (recordStep options session startTime videoStartMs screenshotPath) ;;
  cur <- getSession ;;
  ret (cur ≫= (fun s => last (sess_steps s)), result).

(** Any sequence of appends, in order. *)
Fixpoint addSteps (steps : list PartialStep) : M Ext (list DemoStep) :=
  match steps with
  | [] => ret []
  | step :: rest =>
      fullStep <- addStep step ;;
      others <- addSteps rest ;;
      ret (fullStep :: others)
  end.

(** The scroll tool ([tools/scroll.ts]). *)
Definition scroll (input : ScrollInput) : M Ext ScrollOutput :=
  session <- requireSession ;;
  let page := default O (sess_page session) in
  out <- executeWithEvidence
           (mkExec "scroll" (si_description input)
                   (Some (mkDetails (si_ref input) None None None None None None
                                    None None None None None None None None None)))
           (if Js.truthy_opt (si_ref input)
            then lift (scrollIntoViewIfNeeded page (default EmptyString (si_ref input)))
            else
              let delta := match si_direction input with
                           | down => si_amount input
                           | up => - si_amount input
                           end in
              lift (mouse_wheel page 0 delta)) ;;
  match fst out with
  | Some step =>
      ret (mkScrollOutput (step_success step) (step_id step) (si_ref input)
                          (si_direction input) (step_error step))
  | None => throw (JsError "Cannot read properties of undefined (reading 'success')")
  end.

End SessionStore.

(** ** Narration script ([generateNarrationScript]) *)

Definition narrationLines (step : DemoStep) : list string :=
  let narration := stepToNarration step in
  if Js.truthy narration
  then ["[Step " +:+ Js.of_int (step_id step) +:+ "]"; narration; EmptyString]
  else [].

Definition generateNarrationScript (session : DemoSession) : string :=
  Js.join_lines
    (["=== " +:+ sess_title session +:+ " ===";
      EmptyString;
      "Welcome! In this tutorial, I'll show you how to "
        +:+ Js.toLowerCase (sess_title session) +:+ ".";
      EmptyString;
      "Let's get started.";
      EmptyString]
     ++ concat (map narrationLines (sess_steps session))
     ++ ["---";
         EmptyString;
         "And that's it! You've successfully completed "
           +:+ Js.toLowerCase (sess_title session) +:+ ".";
         EmptyString;
         "If you have any questions, feel free to reach out.";
         "Thanks for watching!"]).

(** ** The file system seen by the packager ([fs/promises]) *)

(** Files with their contents, the paths whose writes are rejected, and the
    directory listings [readdir] answers with. *)
Record FileSystem := mkFs {
  fs_files : gmap string string;
  fs_denied : gset string;
  fs_dirs : gmap string (list string)
}.

Definition fs_writeFile (path content : string) : Eff FileSystem unit :=
  fun fs =>
    if decide (path ∈ fs_denied fs)
    then (Throw (JsError ("EACCES: permission denied, open '" +:+ path +:+ "'")), fs)
    else (Ok tt, mkFs (<[path := content]> (fs_files fs)) (fs_denied fs) (fs_dirs fs)).

Definition fs_access (path : string) : Eff FileSystem unit :=
  fun fs =>
    match fs_files fs !! path with
    | Some _ => (Ok tt, fs)
    | None => (Throw (JsError ("ENOENT: no such file or directory, access '"
                                 +:+ path +:+ "'")), fs)
    end.

Definition fs_readdir (dir : string) : Eff FileSystem (list string) :=
  fun fs =>
    match fs_dirs fs !! dir with
    | Some names => (Ok names, fs)
    | None => (Throw (JsError ("ENOENT: no such file or directory, scandir '"
                                 +:+ dir +:+ "'")), fs)
    end.

(** ** Deliverable packaging ([generator/packager.ts]) *)

Record DeliverableFiles := mkFiles {
  f_video : option string;
  f_trace : option string;
  f_guide : string;
  f_steps : string;
  f_narration : option string;
  f_subtitleSrt : option string;
  f_subtitleVtt : option string;
  f_tutorial : option string;
  f_gifPreview : option string;
  f_assets : list string
}.

Record Summary := mkSummary {
  totalSteps : Z;
  duration : Z;
  successRate : spec_float
}.

Record DemoDeliverables := mkDeliverables {
  dl_sessionId : string;
  dl_title : string;
  dl_outputDir : string;
  dl_files : DeliverableFiles;
  dl_summary : Summary
}.

(** The summary block, computed from the step log. *)
Definition summaryOf (steps : list DemoStep) : Summary :=
  let successCount := Z.of_nat (length (filter (fun s => step_success s = true) steps)) in
  let totalDuration := sumDurations steps in
  let n := Z.of_nat (length steps) in
  mkSummary n totalDuration
            (if 0 <? n
             then Js.divide (Js.double_of_Z successCount) (Js.double_of_Z n)
             else Js.double_of_Z 1).

Section Packager.

(** The renderers whose text is of no concern here: each returns its text
    or throws ([stepsJsonText] stands for
    [JSON.stringify(generateStepsJson(session), null, 2)]); and the preview
    generator ([generator/gif.ts]) with its own file accesses. *)
Variable generateMarkdownGuide : DemoSession -> result string.
Variable stepsJsonText : DemoSession -> result string.
Variable generateHtmlTutorial : DemoSession -> result string.
Variable generateGif : DemoSession -> string -> Eff FileSystem (option string).

Definition collectAssets (assetsDir : string) : Eff FileSystem (list string) :=
  try_catch
    (files <- fs_readdir assetsDir ;;
     ret (map (Js.path_join assetsDir)
              (filter (fun f => Js.endsWith f ".png" = true) files)))
    (ret []).

Definition locateVideo (outputDir : string) : Eff FileSystem (option string) :=
  let expectedVideoPath := Js.path_join outputDir "demo.webm" in
  try_catch
    (fs_access expectedVideoPath ;;; ret (Some expectedVideoPath))
    (let videosDir := Js.path_join outputDir "videos" in
     try_catch
       (files <- fs_readdir videosDir ;;
        match find (fun f => Js.endsWith f ".webm") files with
        | Some webmFile => ret (Some (Js.path_join videosDir webmFile))
        | None => ret None
        end)
       (ret None)).

Definition locateTrace (outputDir : string) : Eff FileSystem (option string) :=
  let expectedTracePath := Js.path_join outputDir "trace.zip" in
  try_catch
    (fs_access expectedTracePath ;;; ret (Some expectedTracePath))
    (ret None).

Definition packageDeliverables (session : DemoSession)
  : Eff FileSystem DemoDeliverables :=
  let outputDir := opt_outputDir (sess_options session) in
  guideContent <- call (generateMarkdownGuide session) ;;
  let guidePath := Js.path_join outputDir "guide.md" in
  fs_writeFile guidePath guideContent ;;;
  stepsData <- call (stepsJsonText session) ;;
  let stepsPath := Js.path_join outputDir "steps.json" in
  fs_writeFile stepsPath stepsData ;;;
  narrationContent <- call (Ok (generateNarrationScript session)) ;;
  let narrationPath := Js.path_join outputDir "narration.txt" in
  fs_writeFile narrationPath narrationContent ;;;
  srtContent <- call (Ok (generateSrt session)) ;;
  let srtPath := Js.path_join outputDir "subtitles.srt" in
  fs_writeFile srtPath srtContent ;;;
  vttContent <- call (Ok (generateVtt session)) ;;
  let vttPath := Js.path_join outputDir "subtitles.vtt" in
  fs_writeFile vttPath vttContent ;;;
  htmlContent <- call (generateHtmlTutorial session) ;;
  let htmlPath := Js.path_join outputDir "tutorial.html" in
  fs_writeFile htmlPath htmlContent ;;;
  gifPreviewPath <- generateGif session outputDir ;;
  assets <- collectAssets (Js.path_join outputDir "assets") ;;
  videoPath <- locateVideo outputDir ;;
  tracePath <- locateTrace outputDir ;;
  ret (mkDeliverables (sess_id session) (sess_title session) outputDir
         (mkFiles videoPath tracePath guidePath stepsPath (Some narrationPath)
                  (Some srtPath) (Some vttPath) (Some htmlPath)
                  (if Js.truthy_opt gifPreviewPath then gifPreviewPath else None)
                  assets)
         (summaryOf (sess_steps session))).

End Packager.

(** ** Preview generator ([generator/gif.ts]) *)

Module Gif.
Section Generator.

(** The three texts it writes; the defaults [frameDelay = 1500],
    [width = 800], [quality = 10], [loops = 0] are fixed inside them. *)
Variable generateAnimatedHtmlPreview : DemoSession -> list string -> string.
Variable generateFfmpegScript : list string -> string -> string.
Variable generateFfmpegBatch : list string -> string -> string.

Definition isAbsolute (p : string) : bool := Js.startsWith p "/".

(** The loop that keeps the screenshots that exist. *)
Fixpoint collectScreenshots (steps : list DemoStep) (outputDir : string)
  : Eff FileSystem (list string) :=
  match steps with
  | [] => ret []
  | step :: rest =>
      found <-
        (if Js.truthy_opt (screenshotPath (step_evidence step)) then
           let p := default EmptyString (screenshotPath (step_evidence step)) in
           let fullPath := if isAbsolute p then p else Js.path_join outputDir p in
           try_catch (fs_access fullPath ;;; ret [fullPath]) (ret [])
         else ret []) ;;
      others <- collectScreenshots rest outputDir ;;
      ret (found ++ others)
  end.

Definition generateGif (session : DemoSession) (outputDir : string)
  : Eff FileSystem (option string) :=
  screenshots <- collectScreenshots (sess_steps session) outputDir ;;
  if (length screenshots =? 0)%nat then ret None
  else
    let gifHtmlPath := Js.path_join outputDir "animated-preview.html" in
    fs_writeFile gifHtmlPath (generateAnimatedHtmlPreview session screenshots) ;;;
    fs_writeFile (Js.path_join outputDir "generate-gif.sh")
                 (generateFfmpegScript screenshots outputDir) ;;;
    fs_writeFile (Js.path_join outputDir "generate-gif.bat")
                 (generateFfmpegBatch screenshots outputDir) ;;;
    ret (Some gifHtmlPath).

End Generator.
End Gif.

(** ** Notions used to state the properties *)

(** The steps that contribute a narration segment. *)
Definition narrated (step : DemoStep) : bool := Js.truthy (stepToNarration step).

(** Consecutive cues do not overlap: each starts at or after the end of the
    one before it. *)
Definition cuesNonOverlapping (cues : list Cue) : Prop :=
  forall (i : nat) (a b : Cue),
    cues !! i = Some a -> cues !! S i = Some b -> cue_end a <= cue_start b.

(** The recorded video offsets of a step log are ordered after [prevEnd]:
    every narrated step that carries a start offset starts at or after the
    end of the cue before it, where a cue ends at the recorded end offset of
    its step, or at its start plus the step's duration when none is
    recorded. *)
Fixpoint offsetsOrdered (prevEnd : Z) (steps : list DemoStep) : bool :=
  match steps with
  | [] => true
  | step :: rest =>
      if narrated step then
        let startMs := Js.nullish (step_videoStartMs step) prevEnd in
        let endMs := Js.nullish (step_videoEndMs step) (startMs + step_duration step) in
        (prevEnd <=? startMs) && offsetsOrdered endMs rest
      else offsetsOrdered prevEnd rest
  end.

(** The segments of the steps, laid out after a cue ending at [prevEnd]. *)
Fixpoint stepSegments (prevEnd : Z) (steps : list DemoStep)
  : list VideoSync.NarrationSegment :=
  match steps with
  | [] => []
  | step :: rest =>
      if narrated step then
        let startMs := Js.nullish (step_videoStartMs step) prevEnd in
        let endMs := Js.nullish (step_videoEndMs step) (startMs + step_duration step) in
        VideoSync.mkSegment (step_id step) startMs endMs (endMs - startMs)
                            (stepToNarration step)
          :: stepSegments endMs rest
      else stepSegments prevEnd rest
  end.

(** Where the last of those segments ends. *)
Fixpoint finalEnd (prevEnd : Z) (steps : list DemoStep) : Z :=
  match steps with
  | [] => prevEnd
  | step :: rest =>
      if narrated step then
        let startMs := Js.nullish (step_videoStartMs step) prevEnd in
        finalEnd (Js.nullish (step_videoEndMs step) (startMs + step_duration step)) rest
      else finalEnd prevEnd rest
  end.

(** Segment ranges chained after [prevEnd]. *)
Fixpoint chained (prevEnd : Z) (segs : list VideoSync.NarrationSegment) : Prop :=
  match segs with
  | [] => True
  | seg :: rest => prevEnd <= VideoSync.startMs seg /\ chained (VideoSync.endMs seg) rest
  end.

(** The intro and outro segments of the video-synchronised narration. *)
Definition introSegment (s : DemoSession) : VideoSync.NarrationSegment :=
  VideoSync.mkSegment 0 0 2000 2000 (introText (sess_title s)).

Definition outroSegment (s : DemoSession) : VideoSync.NarrationSegment :=
  let total := VideoSync.totalDuration (sess_steps s) in
  let outroStart := finalEnd 2000 (sess_steps s) in
  VideoSync.mkSegment (-1) outroStart total (total - outroStart)
                      (outroText (sess_title s)).

(** ** Sample data *)

Module Sample.

Definition evidence0 : Evidence := mkEvidence None None None.

Definition options : DemoSessionOptions :=
  mkOptions true true true "/out" None false (1280, 720).

(** A completed session, as [endSession] hands it to the packager. *)
Definition session (steps : list DemoStep) : DemoSession :=
  mkSession "abcd1234" "Log In" "https://example.test" 1000 completed options
            steps (Some 1000) None None None [] 0 1.

(** A click recorded 500 ms after the video origin, lasting 300 ms. *)
Definition earlyClick : DemoStep :=
  mkStep 1 "click" "Click the button" 1500 300 (Some 500) (Some 800)
         no_details evidence0 true None.

(** A click recorded 2500 ms after the video origin. *)
Definition lateClick : DemoStep :=
  mkStep 1 "click" "Click the button" 3500 300 (Some 2500) (Some 2800)
         no_details evidence0 true None.

End Sample.

(** The entries that the loop of the estimated revision adds: one per
    narrated step, lasting the larger of 2000 ms and 60000 ms for every 150
    pieces of its narration split at white space; the clock advances by the
    recorded duration of a narrated step plus a 500 ms pause. *)
Fixpoint estimatedLayout (clock : Z) (steps : list DemoStep)
  : list Estimated.TimedEntry :=
  match steps with
  | [] => []
  | step :: rest =>
      if narrated step then
        Estimated.mkEntry (step_id step) clock
          (Z.max 2000 (Js.split_ws_length (stepToNarration step) * 60000 / 150))
          (stepToNarration step)
          :: estimatedLayout (clock + (step_duration step + 500)) rest
      else estimatedLayout clock rest
  end.

(** The clock advance over a step log: duration plus pause of each narrated
    step. *)
Fixpoint clockAdvance (steps : list DemoStep) : Z :=
  match steps with
  | [] => 0
  | step :: rest =>
      (if narrated step then step_duration step + 500 else 0) + clockAdvance rest
  end.

(** The number of narrated steps. *)
Fixpoint narratedCount (steps : list DemoStep) : nat :=
  match steps with
  | [] => O
  | step :: rest => ((if narrated step then 1 else 0) + narratedCount rest)%nat
  end.

(** The ids [1; 2; ...; n]. *)
Definition idsUpTo (n : nat) : list Z := map Z.of_nat (seq 1 n).

(** A session is active in a world: it is the current one and its page is
    available, which is what [requireSession] asks for. *)
Definition activeIn {Ext} (w : World Ext) (s : DemoSession) : Prop :=
  currentSession w = Some s /\ is_Some (sess_page s).

(** The registry invariant: ids were inserted in increasing order and all
    lie below the next id to hand out. *)
Definition registry_wf (s : DemoSession) : Prop :=
  StronglySorted Z.lt (JsMap.keys (sess_pages s))
  /\ Forall (fun k => k < sess_nextPageId s) (JsMap.keys (sess_pages s)).

(** The world with another current session. *)
Definition with_session {Ext} (w : World Ext) (s : DemoSession) : World Ext :=
  mkWorld (Some s) (clock w) (ticks w) (ext w).

Module SampleWorld.

(** A driver whose calls all succeed; its state is the log of the calls. *)
Definition logged {A} (entry : string) (a : A) (log : list string)
  : result A * list string := (Ok a, log ++ [entry]).

#[global] Instance driver : Driver (list string) := {|
  page_screenshot := fun _ path => logged ("screenshot " +:+ path) tt;
  page_goto := fun _ url => logged ("goto " +:+ url) tt;
  page_close := fun _ => logged "close" tt;
  page_bringToFront := fun _ => logged "bringToFront" tt;
  context_newPage := fun _ log => logged "newPage" (length log) log;
  launchBrowser := fun _ => logged "launch" (1%nat, 2%nat, 3%nat);
  closeBrowser := fun _ => logged "closeBrowser" tt;
  scrollIntoViewIfNeeded := fun _ r => logged ("scrollIntoView " +:+ r) tt;
  mouse_wheel := fun _ _ dy => logged ("wheel " +:+ Js.of_int dy) tt;
  randomUUID := fun log => ("0f8fad5b-d9cb-469f-a165-70867728950e", log);
  os_tmpdir := "/tmp"
|}.

(** A running session with the given log and tabs. *)
Definition session (steps : list DemoStep) (pages : list (Z * Page))
    (active : Z) (page : Page) (next : Z) : DemoSession :=
  mkSession "0f8fad5b" "Log In" "https://example.test" 1000 running
            Sample.options steps (Some 1000) (Some 1%nat) (Some 2%nat)
            (Some page) pages active next.

(** The clock reads 1500, 1600, 1700, ... *)
Definition world (s : DemoSession) : World (list string) :=
  mkWorld (Some s) (fun n => 1500 + 100 * Z.of_nat n) 0 [].

Definition partialClick : PartialStep :=
  mkPartial "click" "Click the button" 1500 300 None None no_details
            Sample.evidence0 true None.

Definition partialFailed : PartialStep :=
  mkPartial "fill" "Enter the name" 1900 120 None None no_details
            Sample.evidence0 false (Some "Element not found").

End SampleWorld.

(** The world after one reading of the clock. *)
Definition ticked {Ext} (w : World Ext) : World Ext :=
  mkWorld (currentSession w) (clock w) (S (ticks w)) (ext w).

(** The step [executeWithEvidence] records for an action that started at
    [startTime] with the log holding [logLength] steps, took the screenshot
    [shot] and ended with [outcome], the callback having left the world
    [w1]: the [finally] block reads the clock at [w1] two or three times. *)
Definition evidenceStep {Ext T} (options : ExecuteOptions) (s : DemoSession)
    (startTime : Z) (shot : option string) (outcome : result T)
    (w1 : World Ext) (logLength : nat) : DemoStep :=
  let timed := Js.truthy_num (sess_videoStartTime s) in
  mkStep (Z.of_nat logLength + 1) (ex_action options) (ex_description options)
         (clock w1 (if timed then S (S (ticks w1)) else S (ticks w1)))
         (clock w1 (ticks w1) - startTime)
         (videoOffset s startTime)
         (if timed then videoOffset s (clock w1 (S (ticks w1))) else None)
         (default no_details (ex_details options))
         (mkEvidence shot None None)
         (match outcome with Ok _ => true | Throw _ => false end)
         (match outcome with Ok _ => None | Throw e => Some (errorText e) end).

Module SampleScroll.

(** Scrolling the page up by 500 pixels. *)
Definition scrollUp : ScrollInput :=
  mkScrollInput None up 500 "Scroll back to the top".

(** A running session with one tab and an empty log. *)
Definition session : DemoSession :=
  SampleWorld.session [] [(0, 3%nat)] 0 3%nat 1.

End SampleScroll.

(** ** Notions used to state the packaging properties *)

(** The file system after the given files, named relative to [outputDir],
    have been written in order. *)
Definition written (outputDir : string) (items : list (string * string))
    (fs : FileSystem) : FileSystem :=
  mkFs (fold_left (fun files item =>
                     <[Js.path_join outputDir item.1 := item.2]> files)
                  items (fs_files fs))
       (fs_denied fs) (fs_dirs fs).

(** What the look-ups of the packager answer in a given file system. *)
Definition assetsIn (outputDir : string) (fs : FileSystem) : list string :=
  let assetsDir := Js.path_join outputDir "assets" in
  match fs_dirs fs !! assetsDir with
  | Some files =>
      map (Js.path_join assetsDir)
          (filter (fun f => Js.endsWith f ".png" = true) files)
  | None => []
  end.

Definition videoIn (outputDir : string) (fs : FileSystem) : option string :=
  match fs_files fs !! Js.path_join outputDir "demo.webm" with
  | Some _ => Some (Js.path_join outputDir "demo.webm")
  | None =>
      match fs_dirs fs !! Js.path_join outputDir "videos" with
      | Some files =>
          Js.path_join (Js.path_join outputDir "videos")
            <$> find (fun f => Js.endsWith f ".webm") files
      | None => None
      end
  end.

Definition traceIn (outputDir : string) (fs : FileSystem) : option string :=
  match fs_files fs !! Js.path_join outputDir "trace.zip" with
  | Some _ => Some (Js.path_join outputDir "trace.zip")
  | None => None
  end.

Section PackagerNotions.
Variable generateMarkdownGuide : DemoSession -> result string.
Variable stepsJsonText : DemoSession -> result string.
Variable generateHtmlTutorial : DemoSession -> result string.
Variable generateGif : DemoSession -> string -> Eff FileSystem (option string).

(** The six deliverable stages in the order the packager runs them: the
    file name and what the generator answers. *)
Definition stages (s : DemoSession) : list (string * result string) :=
  [ ("guide.md", generateMarkdownGuide s);
    ("steps.json", stepsJsonText s);
    ("narration.txt", Ok (generateNarrationScript s));
    ("subtitles.srt", Ok (generateSrt s));
    ("subtitles.vtt", Ok (generateVtt s));
    ("tutorial.html", generateHtmlTutorial s) ].

(** A stage passes when its generator returns and its write is accepted;
    it fails when the generator throws or the write is rejected. *)
Definition stagePasses (outputDir : string) (fs : FileSystem)
    (stage : string * result string) : Prop :=
  (exists content, stage.2 = Ok content)
  /\ Js.path_join outputDir stage.1 ∉ fs_denied fs.

Definition stageFails (outputDir : string) (fs : FileSystem)
    (stage : string * result string) : Prop :=
  (exists e, stage.2 = Throw e)
  \/ Js.path_join outputDir stage.1 ∈ fs_denied fs.

(** The error a failing stage ends with: the one its generator threw, or
    else the one of the rejected write. *)
Definition failureOf (outputDir : string) (stage : string * result string) : Exn :=
  match stage.2 with
  | Throw e => e
  | Ok _ =>
      JsError ("EACCES: permission denied, open '"
                 +:+ Js.path_join outputDir stage.1 +:+ "'")
  end.

(** The files of the stages whose generator returned. *)
Fixpoint outputs (l : list (string * result string)) : list (string * string) :=
  match l with
  | [] => []
  | (name, Ok content) :: rest => (name, content) :: outputs rest
  | (_, Throw _) :: rest => outputs rest
  end.

(** Isolation of failures as C4 states it: when the generator of one stage
    throws while the other stages pass, packaging still returns a manifest
    and the deliverable of every other stage is in the output directory. *)
Definition failureIsolated (s : DemoSession) (fs : FileSystem) : Prop :=
  let outputDir := opt_outputDir (sess_options s) in
  forall before failed after e,
    stages s = before ++ failed :: after ->
    failed.2 = Throw e ->
    Forall (stagePasses outputDir fs) (before ++ after) ->
    exists (m : DemoDeliverables) (fs' : FileSystem),
      packageDeliverables generateMarkdownGuide stepsJsonText
                          generateHtmlTutorial generateGif s fs = (Ok m, fs')
      /\ forall name content,
           (name, content) ∈ outputs (before ++ after) ->
           fs_files fs' !! Js.path_join outputDir name = Some content.

(** The manifest of a packaging pass that ran to its end, the preview
    generator having answered [gifPreviewPath] and left [fs]. *)
Definition manifestOf (s : DemoSession) (gifPreviewPath : option string)
    (fs : FileSystem) : DemoDeliverables :=
  let outputDir := opt_outputDir (sess_options s) in
  mkDeliverables (sess_id s) (sess_title s) outputDir
    (mkFiles (videoIn outputDir fs) (traceIn outputDir fs)
             (Js.path_join outputDir "guide.md")
             (Js.path_join outputDir "steps.json")
             (Some (Js.path_join outputDir "narration.txt"))
             (Some (Js.path_join outputDir "subtitles.srt"))
             (Some (Js.path_join outputDir "subtitles.vtt"))
             (Some (Js.path_join outputDir "tutorial.html"))
             (if Js.truthy_opt gifPreviewPath then gifPreviewPath else None)
             (assetsIn outputDir fs))
    (summaryOf (sess_steps s)).

End PackagerNotions.

Module SamplePackaging.

Definition guide (s : DemoSession) : result string := Ok ("# " +:+ sess_title s).
Definition json (s : DemoSession) : result string :=
  Ok ("{ " +:+ Js.dquote +:+ "title" +:+ Js.dquote +:+ ": "
        +:+ Js.dquote +:+ sess_title s +:+ Js.dquote +:+ " }").
Definition html (s : DemoSession) : result string :=
  Ok ("<title>" +:+ sess_title s +:+ "</title>").

Definition gif : DemoSession -> string -> Eff FileSystem (option string) :=
  Gif.generateGif (fun s _ => "<title>" +:+ sess_title s +:+ " - Animated Preview</title>")
                  (fun _ _ => "#!/bin/bash")
                  (fun _ _ => "@echo off").

(** A JSON generator that throws, as [toISOString] does on a step whose
    timestamp is not a valid date. *)
Definition jsonThrows (s : DemoSession) : result string :=
  Throw (JsError "Invalid time value").

(** A completed session with an empty log whose output directory is given
    relative to the working directory. *)
Definition relative : DemoSession :=
  mkSession "abcd1234" "Log In" "https://example.test" 1000 completed
            (mkOptions true true true "./demosmith-output" None false (1280, 720))
            [] (Some 1000) None None None [] 0 1.

(** An empty output directory in which every write is accepted. *)
Definition emptyDisk : FileSystem := mkFs ∅ ∅ ∅.

(** An output directory in which [narration.txt] cannot be written. *)
Definition narrationDenied : FileSystem :=
  mkFs ∅ {[ "/out/narration.txt" ]} ∅.

End SamplePackaging.

(** A call to the tab registry, as a tool makes it. *)
Inductive RegistryCall :=
  | CallNewTab (url : option string)
  | CallSwitchTab (pageId : Z)
  | CallCloseTab (pageId : Z).

Section RegistryRuns.
Context {Ext : Type} `{Driver Ext}.

(** The world a call leaves, whether it returned or threw. *)
Definition perform (w : World Ext) (c : RegistryCall) : World Ext :=
  match c with
  | CallNewTab url => (newTab url w).2
  | CallSwitchTab pageId => (switchTab pageId w).2
  | CallCloseTab pageId => (closeTab pageId w).2
  end.

Definition performAll (calls : list RegistryCall) (w : World Ext) : World Ext :=
  fold_left perform calls w.

End RegistryRuns.

(** The state of the registry is sound: a session is active, its ids are in
    increasing insertion order below the next id, and the active id
    resolves to the session page. *)
Definition registryOk {Ext} (w : World Ext) : Prop :=
  exists s, activeIn w s
            /\ registry_wf s
            /\ JsMap.get (sess_activePageId s) (sess_pages s) = sess_page s.

(** * Further components *)

(** [try { x = await c } catch (e) { ... }] with the outcome kept: it never
    throws. *)
Definition attempt {St A} (c : Eff St A) : Eff St (result A) :=
  fun w => let '(r, w') := c w in (Ok r, w').

(** ** Manual screenshots ([takeScreenshot] of [collector/collector.ts])
       and the tools that append their step themselves *)

Record ScreenshotInput := mkScreenshotInput {
  sc_name : option string;
  sc_description : string
}.

Record ScreenshotOutput := mkScreenshotOutput {
  sco_success : bool;
  sco_stepId : Z;
  sco_screenshotPath : option string;
  sco_error : option string
}.

Record TabToolOutput := mkTabToolOutput {
  tt_success : bool;
  tt_step : Z;
  tt_pageId : Z;
  tt_url : string;
  tt_duration : Z
}.

Record CloseTabOutput := mkCloseTabOutput {
  ct_success : bool;
  ct_step : Z;
  ct_closedPageId : Z;
  ct_duration : Z
}.

Record NavigateOutput := mkNavigateOutput {
  nv_success : bool;
  nv_stepId : Z;
  nv_url : string;
  nv_error : option string
}.

Record TabInfo := mkTabInfo {
  tab_pageId : Z;
  tab_url : string;
  tab_title : string;
  tab_isActive : bool
}.

Record Progress := mkProgress {
  pr_totalSteps : Z;
  pr_successCount : Z;
  pr_failureCount : Z;
  pr_totalDuration : Z
}.

Record ActiveStatus := mkActiveStatus {
  as_sessionId : string;
  as_title : string;
  as_startUrl : string;
  as_status : Status;
  as_outputDir : string;
  as_options : bool * bool * bool;
  as_progress : Progress;
  as_currentUrl : string
}.

Inductive StatusOutput :=
  | StatusInactive (message : string)
  | StatusActive (info : ActiveStatus).

(** [session.steps.filter(s => s.success).length]. *)
Definition successCountOf (steps : list DemoStep) : Z :=
  Z.of_nat (length (filter (fun s => step_success s = true) steps)).

(** The [progress] block of the status tool and the [summary] block of
    [steps.json] are the same four numbers. *)
Definition progressOf (steps : list DemoStep) : Progress :=
  let successCount := successCountOf steps in
  let totalDuration := sumDurations steps in
  mkProgress (Z.of_nat (length steps)) successCount
             (Z.of_nat (length steps) - successCount) totalDuration.

Section Tools.
Context {Ext : Type} `{Driver Ext}.

(** Two getters of a page: [page.url()] reads the driver, [page.title()]
    asks it and may throw. *)
Variable page_url : Page -> Ext -> string.
Variable page_title : Page -> Ext -> result string * Ext.

(** A read through the local [session], which is the current session
    object whatever the calls in between did to it. *)
Definition sessionNow (session : DemoSession) : M Ext DemoSession :=
  fun w => (Ok (default session (currentSession w)), w).

Definition takeScreenshot (name : option string) : M Ext string :=
  session <- requireSession ;;
  let stepNum := Z.of_nat (length (sess_steps session)) + 1 in
  let filename :=
    if Js.truthy_opt name then default EmptyString name +:+ ".png"
    else stepFileName stepNum in
  let screenshotPath :=
    Js.path_join3 (opt_outputDir (sess_options session)) "assets"
                 filename in
  match sess_page session with
  | Some page => lift (page_screenshot page screenshotPath) ;;; ret screenshotPath
  | None =>
      throw (JsError "Cannot read properties of undefined (reading 'screenshot')")
  end.

(** The screenshot tool ([tools/screenshot.ts]). *)
Definition screenshot (input : ScreenshotInput) : M Ext ScreenshotOutput :=
  session <- requireSession ;;
  startTime <- Date_now ;;
  taken <- attempt (takeScreenshot (sc_name input)) ;;
  let success := match taken with Ok _ => true | Throw _ => false end in
  let error := match taken with Ok _ => None | Throw e => Some (errorText e) end in
  let screenshotPath := match taken with Ok p => Some p | Throw _ => None end in
  endTime <- Date_now ;;
  let duration := endTime - startTime in
  timestamp <- Date_now ;;
  addStep (mkPartial "screenshot" (sc_description input) timestamp duration
                     None None no_details
                     (mkEvidence screenshotPath None None) success error) ;;;
  session <- sessionNow session ;;
  ret (mkScreenshotOutput success (Z.of_nat (length (sess_steps session)))
                          screenshotPath error).

(** The screenshot the tab tools take after their operation, on the page
    they name, labelled with the next step number. *)
Definition stepScreenshot (session : DemoSession) (page : Page) : M Ext string :=
  let stepNum := Z.of_nat (length (sess_steps session)) + 1 in
  let screenshotPath :=
    Js.path_join3 (opt_outputDir (sess_options session)) "assets"
                 (stepFileName stepNum) in
  lift (page_screenshot page screenshotPath) ;;;
  ret screenshotPath.

Definition refDetails (ref : string) : StepDetails :=
  mkDetails (Some ref) None None None None None None None
            None None None None None None None None.

Definition urlDetails (url : option string) : StepDetails :=
  mkDetails None None None url None None None None
            None None None None None None None None.

(** The tab tools ([tools/tabs.ts]). *)
Definition newTabTool (url : option string) (description : string)
  : M Ext TabToolOutput :=
  session <- requireSession ;;
  startTime <- Date_now ;;
  opened <- newTab url ;;
  let '(pageId, page) := opened in
  endTime <- Date_now ;;
  let duration := endTime - startTime in
  session <- sessionNow session ;;
  screenshotPath <-
    (if opt_screenshotOnStep (sess_options session)
     then p <- stepScreenshot session page ;; ret (Some p)
     else ret None) ;;
  timestamp <- Date_now ;;
  step <- addStep (mkPartial "newTab" description timestamp duration None None
                             (urlDetails url)
                             (mkEvidence screenshotPath None None) true None) ;;
  ret (mkTabToolOutput true (step_id step) pageId (Js.or_else url "about:blank")
                       duration).

Definition switchTabTool (pageId : Z) (description : string)
  : M Ext TabToolOutput :=
  session <- requireSession ;;
  startTime <- Date_now ;;
  page <- switchTab pageId ;;
  endTime <- Date_now ;;
  let duration := endTime - startTime in
  session <- sessionNow session ;;
  screenshotPath <-
    (if opt_screenshotOnStep (sess_options session)
     then p <- stepScreenshot session page ;; ret (Some p)
     else ret None) ;;
  timestamp <- Date_now ;;
  step <- addStep (mkPartial "switchTab" description timestamp duration None None
                             (refDetails (Js.of_int pageId))
                             (mkEvidence screenshotPath None None) true None) ;;
  url <- (fun w => (Ok (page_url page (ext w)), w)) ;;
  ret (mkTabToolOutput true (step_id step) pageId url duration).

Definition closeTabTool (pageId : Z) (description : string)
  : M Ext CloseTabOutput :=
  session <- requireSession ;;
  startTime <- Date_now ;;
  closeTab pageId ;;;
  endTime <- Date_now ;;
  let duration := endTime - startTime in
  session <- sessionNow session ;;
  screenshotPath <-
    (match sess_page session with
     | Some page =>
         if opt_screenshotOnStep (sess_options session)
         then p <- stepScreenshot session page ;; ret (Some p)
         else ret None
     | None => ret None
     end) ;;
  timestamp <- Date_now ;;
  step <- addStep (mkPartial "closeTab" description timestamp duration None None
                             (refDetails (Js.of_int pageId))
                             (mkEvidence screenshotPath None None) true None) ;;
  ret (mkCloseTabOutput true (step_id step) pageId duration).

(** [listTabs]: one entry per live tab, in the order of the map. *)
Definition listTabs : M Ext (list TabInfo) :=
  session <- requireSession ;;
  fun w =>
    (Ok (map (fun entry : Z * Page =>
                mkTabInfo entry.1 (page_url entry.2 (ext w)) EmptyString
                          (entry.1 =? sess_activePageId session))
             (sess_pages session)), w).

(** The loop of [listTabsAsync]. *)
Fixpoint listEntries (active : Z) (entries : list (Z * Page)) : M Ext (list TabInfo) :=
  match entries with
  | [] => ret []
  | (pageId, page) :: rest =>
      url <- (fun w => (Ok (page_url page (ext w)), w)) ;;
      title <- lift (page_title page) ;;
      others <- listEntries active rest ;;
      ret (mkTabInfo pageId url title (pageId =? active) :: others)
  end.

Definition listTabsAsync : M Ext (list TabInfo) :=
  session <- requireSession ;;
  listEntries (sess_activePageId session) (sess_pages session).

(** [listTabsTool] answers the tabs and
    [tabs.find(t => t.isActive)?.pageId]. *)
Definition listTabsTool : M Ext (list TabInfo * option Z) :=
  tabs <- listTabsAsync ;;
  ret (tabs, tab_pageId <$> find tab_isActive tabs).

(** The navigate tool ([tools/navigate.ts]). *)
Definition navigate (url description : string) : M Ext NavigateOutput :=
  session <- requireSession ;;
  let page := default O (sess_page session) in
  out <- executeWithEvidence
           (mkExec "navigate" description (Some (urlDetails (Some url))))
           (lift (page_goto page url)) ;;
  match out.1 with
  | Some step =>
      ret (mkNavigateOutput (step_success step) (step_id step) url (step_error step))
  | None => throw (JsError "Cannot read properties of undefined (reading 'success')")
  end.

(** The status tool ([tools/status.ts]). *)
Definition status : M Ext StatusOutput :=
  cur <- getSession ;;
  match cur with
  | None =>
      ret (StatusInactive "No active demo session. Use demosmith_start to begin.")
  | Some session =>
      fun w =>
        (Ok (StatusActive
               (mkActiveStatus
                  (sess_id session) (sess_title session) (sess_startUrl session)
                  (sess_status session) (opt_outputDir (sess_options session))
                  (opt_video (sess_options session),
                   opt_trace (sess_options session),
                   opt_screenshotOnStep (sess_options session))
                  (progressOf (sess_steps session))
                  (match sess_page session with
                   | Some page => page_url page (ext w)
                   | None => "unknown"
                   end))), w)
  end.

End Tools.

(** ** Step-by-step subtitles ([generateSimpleSrt] of [generator/subtitle.ts]) *)

(** One turn of the loop, on the cues so far, [cumulativeTime] and [index]. *)
Definition simpleSrt_body (st : list Cue * Z * Z) (step : DemoStep)
  : list Cue * Z * Z :=
  let '(cues, cumulativeTime, index) := st in
  let '(cues, index) :=
    if Js.truthy (step_description step) then
      (cues ++ [mkCue index cumulativeTime
                      (cumulativeTime + step_duration step + 1000)
                      ("Step " +:+ Js.of_int (step_id step) +:+ ": "
                         +:+ step_description step)],
       index + 1)
    else (cues, index) in
  (cues, cumulativeTime + (step_duration step + 500), index).

Definition simpleCues (session : DemoSession) : list Cue :=
  (fold_left simpleSrt_body (sess_steps session) ([], 0, 1)).1.1.

Definition generateSimpleSrt (session : DemoSession) : string :=
  Js.join_lines (concat (map srtLines (simpleCues session))).

(** ** The JSON step log ([generator/json.ts]) *)

Record JsonStep := mkJsonStep {
  js_id : Z;
  js_action : string;
  js_description : string;
  js_timestamp : string;
  js_duration : Z;
  js_details : StepDetails;
  js_screenshotPath : option string;
  js_success : bool;
  js_error : option string
}.

Record StepsJson := mkStepsJson {
  sj_sessionId : string;
  sj_title : string;
  sj_startUrl : string;
  sj_startedAt : string;
  sj_completedAt : string;
  sj_summary : Progress;
  sj_steps : list JsonStep
}.

Section StepsJsonOf.

(** [Date.prototype.toISOString], and the instant [new Date()] reads. *)
Variable toISOString : Z -> string.
Variable now : Z.

Definition generateStepsJson (session : DemoSession) : StepsJson :=
  mkStepsJson (sess_id session) (sess_title session) (sess_startUrl session)
    (toISOString (sess_startedAt session)) (toISOString now)
    (progressOf (sess_steps session))
    (map (fun step =>
            mkJsonStep (step_id step) (step_action step) (step_description step)
                       (toISOString (step_timestamp step)) (step_duration step)
                       (step_details step)
                       (screenshotPath (step_evidence step))
                       (step_success step) (step_error step))
         (sess_steps session)).

End StepsJsonOf.

(** ** XML escaping ([escapeXml] of [generator/tts.ts]) *)

(** [s.replace(/c/g, replacement)] for a one-character pattern. *)
Fixpoint replaceAll (c : ascii) (replacement : string) (s : string) : string :=
  match s with
  | EmptyString => EmptyString
  | String x rest =>
      if Ascii.eqb x c then replacement +:+ replaceAll c replacement rest
      else String x (replaceAll c replacement rest)
  end.

Definition escapeXml (text : string) : string :=
  replaceAll "'"%char "&apos;"
    (replaceAll (ascii_of_nat 34) "&quot;"
       (replaceAll ">"%char "&gt;"
          (replaceAll "<"%char "&lt;"
             (replaceAll "&"%char "&amp;" text)))).

(** What one character becomes in a single pass. *)
Definition escapeUnit (c : ascii) : string :=
  if Ascii.eqb c "&"%char then "&amp;"
  else if Ascii.eqb c "<"%char then "&lt;"
  else if Ascii.eqb c ">"%char then "&gt;"
  else if Ascii.eqb c (ascii_of_nat 34) then "&quot;"
  else if Ascii.eqb c "'"%char then "&apos;"
  else String c EmptyString.

Fixpoint escapeEach (s : string) : string :=
  match s with
  | EmptyString => EmptyString
  | String c rest => escapeUnit c +:+ escapeEach rest
  end.

Fixpoint occurs (c : ascii) (s : string) : bool :=
  match s with
  | EmptyString => false
  | String x rest => Ascii.eqb x c || occurs c rest
  end.

(** ** The end tool ([tools/end.ts]) *)

Inductive EndOutput :=
  | EndFailure (error : string)
  | EndSuccess (deliverables : DemoDeliverables).

Section EndTool.
Context {Ext : Type} `{Driver Ext}.
Variable generateMarkdownGuide : DemoSession -> result string.
Variable stepsJsonText : DemoSession -> result string.
Variable generateHtmlTutorial : DemoSession -> result string.
Variable generateGif : DemoSession -> string -> Eff FileSystem (option string).

(** The end tool acts on the process state and on the file system. *)
Definition onWorld {A} (c : M Ext A) : Eff (World Ext * FileSystem) A :=
  fun st => let '(r, w') := c st.1 in (r, (w', st.2)).

Definition onDisk {A} (c : Eff FileSystem A) : Eff (World Ext * FileSystem) A :=
  fun st => let '(r, fs') := c st.2 in (r, (st.1, fs')).

Definition endTool : Eff (World Ext * FileSystem) EndOutput :=
  session <- onWorld getSession ;;
  match session with
  | None => ret (EndFailure "No active demo session")
  | Some _ =>
      completedSession <- onWorld endSession ;;
      match completedSession with
      | None => ret (EndFailure "Failed to end session")
      | Some ended =>
          deliverables <-
            onDisk (packageDeliverables generateMarkdownGuide stepsJsonText
                                        generateHtmlTutorial generateGif ended) ;;
          ret (EndSuccess deliverables)
      end
  end.

End EndTool.

(** ** Reading a time code *)

(** The character of a decimal digit, and the digit of a character. *)
Definition digitChar (d : Z) : ascii := ascii_of_nat (48 + Z.to_nat d).

Definition digitOf (c : ascii) : option Z :=
  let n := nat_of_ascii c in
  if ((48 <=? n) && (n <=? 57))%nat then Some (Z.of_nat n - 48) else None.

(** The milliseconds a time code [HH:MM:SS<sep>mmm] denotes, as a subtitle
    player reads it. *)
Definition readTimeCode (sep : ascii) (s : string) : option Z :=
  match s with
  | String h1 (String h0 (String c1 (String m1 (String m0 (String c2
      (String s1 (String s0 (String p (String f2 (String f1 (String f0
        EmptyString))))))))))) =>
      if (Ascii.eqb c1 ":"%char && Ascii.eqb c2 ":"%char && Ascii.eqb p sep)%bool
      then
        match digitOf h1, digitOf h0, digitOf m1, digitOf m0,
              digitOf s1, digitOf s0, digitOf f2, digitOf f1, digitOf f0 with
        | Some h1, Some h0, Some m1, Some m0, Some s1, Some s0,
          Some f2, Some f1, Some f0 =>
            Some ((10 * h1 + h0) * 3600000 + (10 * m1 + m0) * 60000
                  + (10 * s1 + s0) * 1000 + (100 * f2 + 10 * f1 + f0))
        | _, _, _, _, _, _, _, _, _ => None
        end
      else None
  | _ => None
  end.

(** ** Notions used to state the further properties *)

(** The steps with a description, which [generateSimpleSrt] prints. *)
Fixpoint describedCount (steps : list DemoStep) : nat :=
  match steps with
  | [] => O
  | step :: rest =>
      ((if Js.truthy (step_description step) then 1 else 0) + describedCount rest)%nat
  end.

(** The time [generateSimpleSrt] has counted after some steps: duration
    plus 500 ms of every one of them. *)
Fixpoint elapsedAfter (steps : list DemoStep) : Z :=
  match steps with
  | [] => 0
  | step :: rest => step_duration step + 500 + elapsedAfter rest
  end.

(** Entries whose timestamps rise by 500 ms or more from one to the next,
    the first one as much above [lo]. *)
Fixpoint risingFrom (lo : Z) (l : list Estimated.TimedEntry) : Prop :=
  match l with
  | [] => True
  | e :: rest =>
      lo + 500 <= Estimated.timestamp e /\ risingFrom (Estimated.timestamp e) rest
  end.

(** The actions whose narration is the description as it stands. *)
Definition narratesDescription (step : DemoStep) : bool :=
  let action := step_action step in
  let details := step_details step in
  if String.eqb action "navigate" then negb (Js.truthy_opt (d_url details))
  else if String.eqb action "click" then false
  else if String.eqb action "fill" then negb (Js.truthy_opt (d_value details))
  else if String.eqb action "select" then negb (Js.truthy_opt (d_value details))
  else if String.eqb action "scroll" then false
  else if String.eqb action "wait" then false
  else if String.eqb action "screenshot" then false
  else true.

(** The twelve characters of a time code with the given digits. *)
Definition timeCodeOf (sep : ascii) (h1 h0 m1 m0 s1 s0 f2 f1 f0 : Z) : string :=
  String (digitChar h1) (String (digitChar h0) (String ":"%char
    (String (digitChar m1) (String (digitChar m0) (String ":"%char
      (String (digitChar s1) (String (digitChar s0) (String sep
        (String (digitChar f2) (String (digitChar f1) (String (digitChar f0)
          EmptyString))))))))))).


(** ** A browser that has gone away *)

Module ClosedBrowser.

(** Every call throws but the opening of a page; the driver has no state.
    It is named where it is used. *)
Definition gone {A} (x : unit) : result A * unit :=
  (Throw (JsError "Target page, context or browser has been closed"), x).

Definition driver : Driver unit := {|
  page_screenshot := fun _ _ => gone;
  page_goto := fun _ _ => gone;
  page_close := fun _ => gone;
  page_bringToFront := fun _ => gone;
  context_newPage := fun _ x => (Ok 7%nat, x);
  launchBrowser := fun _ => gone;
  closeBrowser := fun _ => gone;
  scrollIntoViewIfNeeded := fun _ _ => gone;
  mouse_wheel := fun _ _ _ => gone;
  randomUUID := fun x => ("0f8fad5b-d9cb-469f-a165-70867728950e", x);
  os_tmpdir := "/tmp"
|}.

Definition world (s : option DemoSession) : World unit :=
  mkWorld s (fun n => 1500 + 100 * Z.of_nat n) 0 tt.

End ClosedBrowser.

(** What [requireSession] throws when no session is current. *)
Definition noSession : Exn :=
  JsError "No active demo session. Call demosmith_start first.".


(** Requests used in the samples. *)
Module SampleStart.

Definition input : StartSessionInput :=
  mkStartInput "https://example.test" "Log In" None None None None None None None.

(** The process before any session. *)
Definition idle : World (list string) :=
  mkWorld None (fun n => 1500 + 100 * Z.of_nat n) 0 [].

(** The session [startSession] creates there, and the process after it. *)
Definition started : DemoSession :=
  mkSession "0f8fad5b" "Log In" "https://example.test" 1500 running
            (mkOptions true true true "/tmp/demosmith/0f8fad5b" None false
                       (1280, 720))
            [] (Some 1600) (Some 1%nat) (Some 2%nat) (Some 3%nat)
            [(0, 3%nat)] 0 1.

Definition busy : World (list string) :=
  mkWorld (Some started) (clock idle) 2 ["launch"; "goto https://example.test"].

Definition calls : list RegistryCall :=
  [ CallNewTab (Some "https://example.test/docs"); CallSwitchTab 1;
    CallCloseTab 1; CallCloseTab 0; CallSwitchTab 5; CallNewTab None ].

End SampleStart.


(** What the tab registry never touches: the identity of the session, its
    options, its log and the handles of the browser. *)
Definition recorded (s : DemoSession) :=
  (sess_id s, sess_title s, sess_startUrl s, sess_startedAt s, sess_status s,
   sess_options s, sess_steps s, sess_videoStartTime s, sess_browser s,
   sess_context s).


(** A call of a tab tool, with the action it records. *)
Inductive TabToolCall :=
  | ToolNewTab (url : option string) (description : string)
  | ToolSwitchTab (pageId : Z) (description : string)
  | ToolCloseTab (pageId : Z) (description : string).

Definition toolAction (c : TabToolCall) : string :=
  match c with
  | ToolNewTab _ _ => "newTab"
  | ToolSwitchTab _ _ => "switchTab"
  | ToolCloseTab _ _ => "closeTab"
  end.

Definition toolDescription (c : TabToolCall) : string :=
  match c with
  | ToolNewTab _ description => description
  | ToolSwitchTab _ description => description
  | ToolCloseTab _ description => description
  end.

Section TabToolRuns.
Context {Ext : Type} `{Driver Ext}.
Variable page_url : Page -> Ext -> string.

(** The tool run, and the step number it answers. *)
Definition runTabTool (c : TabToolCall) : M Ext Z :=
  match c with
  | ToolNewTab url description =>
      out <- newTabTool url description ;; ret (tt_step out)
  | ToolSwitchTab pageId description =>
      out <- switchTabTool page_url pageId description ;; ret (tt_step out)
  | ToolCloseTab pageId description =>
      out <- closeTabTool pageId description ;; ret (ct_step out)
  end.

End TabToolRuns.

(** A running session that takes no screenshot on its steps. *)
Module SampleQuiet.

Definition session : DemoSession :=
  mkSession "0f8fad5b" "Log In" "https://example.test" 1000 running
            (mkOptions true true false "/out" None false (1280, 720))
            [Sample.earlyClick] (Some 1000) (Some 1%nat) (Some 2%nat)
            (Some 3%nat) [(0, 3%nat)] 0 1.

End SampleQuiet.


(** The screenshots of the log that the preview generator finds in a
    given file system, in the order of the steps. *)
Fixpoint accessibleShots (steps : list DemoStep) (outputDir : string)
    (fs : FileSystem) : list string :=
  match steps with
  | [] => []
  | step :: rest =>
      (if Js.truthy_opt (screenshotPath (step_evidence step)) then
         let p := default EmptyString (screenshotPath (step_evidence step)) in
         let fullPath := if Gif.isAbsolute p then p else Js.path_join outputDir p in
         match fs_files fs !! fullPath with
         | Some _ => [fullPath]
         | None => []
         end
       else [])
      ++ accessibleShots rest outputDir fs
  end.

(** The names of the files the preview generator writes. *)
Definition previewNames : list string :=
  ["animated-preview.html"; "generate-gif.sh"; "generate-gif.bat"].


(** A log with one screenshot on disk. *)
Module SampleShots.

Definition shotStep : DemoStep :=
  mkStep 1 "click" "Click the button" 1500 300 (Some 500) (Some 800) no_details
         (mkEvidence (Some "assets/step-001.png") None None) true None.

Definition session : DemoSession := Sample.session [shotStep].

Definition disk : FileSystem :=
  mkFs {[ "/out/assets/step-001.png" := "PNG" ]} ∅
       {[ "/out/assets" := ["step-001.png"; "notes.txt"] ]}.

End SampleShots.


(** What is told of a log: the id and the narration of every narrated
    step, in the order of the log. *)
Definition toldSteps (steps : list DemoStep) : list (Z * string) :=
  map (fun step => (step_id step, stepToNarration step))
      (List.filter narrated steps).





(** ** The estimated timing as the specification words it *)

(** The words of a text are its maximal runs of code units that are not
    white space.  The flag tells whether the previous code unit was part
    of a word. *)
Fixpoint wordCountFrom (in_word : bool) (s : string) : Z :=
  match s with
  | EmptyString => 0
  | String c r =>
      if Js.is_space c then wordCountFrom false r
      else (if in_word then 0 else 1) + wordCountFrom true r
  end.

Definition wordCount (s : string) : Z := wordCountFrom false s.





Module SampleTiming.


(** A screenshot step, which has no narration, before a click. *)
Definition shot : DemoStep :=
  mkStep 1 "screenshot" "The form" 1500 300 None None
         no_details Sample.evidence0 true None.


End SampleTiming.

(** * Properties *)

(** ** The primitives on sample inputs *)

(** What [path.join] answers on some inputs: a leading [./] and doubled
    or trailing slashes go, [..] takes the segment before it away. *)
Lemma path_join_samples :
  Js.path_join "./demosmith-output" "guide.md" = "demosmith-output/guide.md"
  /\ Js.path_join "/out/" "guide.md" = "/out/guide.md"
  /\ Js.path_join "/out" "assets/step-001.png" = "/out/assets/step-001.png"
  /\ Js.path_join "out//videos/" "../demo.webm" = "out/demo.webm"
  /\ Js.path_join "" "" = "."
  /\ Js.path_join "/" ".." = "/"
  /\ Js.path_join ".." "../a/" = "../../a/"
  /\ Js.path_join "a/.." "" = "."
  /\ Js.path_join "./" "" = "./"
  /\ Js.path_join3 "/tmp" "demosmith" "0f8fad5b" = "/tmp/demosmith/0f8fad5b".
Proof. by split_and!. Qed.

(** Divisions of whole numbers as doubles: a half, a forty-ninth (the
    double next below the exact quotient), and one. *)
Lemma divide_samples :
  Js.divide (Js.double_of_Z 1) (Js.double_of_Z 2)
  = S754_finite false 4503599627370496 (-53)
  /\ Js.divide (Js.double_of_Z 1) (Js.double_of_Z 49)
     = S754_finite false 5882252574524729 (-58)
  /\ Js.divide (Js.double_of_Z 3) (Js.double_of_Z 3) = Js.double_of_Z 1.
Proof. by split_and!. Qed.

(** ** Video-synchronised narration and subtitle cues *)

Lemma lastEndOr_snoc segs seg d :
  VideoSync.lastEndOr (segs ++ [seg]) d = VideoSync.endMs seg.
Proof. unfold VideoSync.lastEndOr. by rewrite last_snoc. Qed.

Lemma lastEndOr_cons seg segs d :
  VideoSync.lastEndOr (seg :: segs) d = VideoSync.lastEndOr segs (VideoSync.endMs seg).
Proof. unfold VideoSync.lastEndOr. rewrite last_cons. by destruct (last segs). Qed.

(** The loop appends the step segments to what it starts from. *)
Lemma fold_loop_body steps : forall segs seg,
  fold_left VideoSync.loop_body steps (segs ++ [seg])
  = (segs ++ [seg]) ++ stepSegments (VideoSync.endMs seg) steps.
Proof.
  induction steps as [|step rest IH]; intros segs seg; simpl.
  - by rewrite app_nil_r.
  - unfold VideoSync.loop_body at 2. fold (narrated step).
    destruct (narrated step) eqn:E.
    + rewrite lastEndOr_snoc, IH. simpl.
      by rewrite <- !app_assoc.
    + apply IH.
Qed.

Lemma lastEndOr_stepSegments steps : forall p,
  VideoSync.lastEndOr (stepSegments p steps) p = finalEnd p steps.
Proof.
  induction steps as [|step rest IH]; intros p; simpl; [done|].
  destruct (narrated step); [|apply IH].
  rewrite lastEndOr_cons. apply IH.
Qed.

Lemma finalEnd_app l1 l2 : forall p,
  finalEnd p (l1 ++ l2) = finalEnd (finalEnd p l1) l2.
Proof.
  induction l1 as [|step rest IH]; intros p; simpl; [done|].
  destruct (narrated step); apply IH.
Qed.

(** The segment list: intro, step segments, outro. *)
Lemma segments_shape (s : DemoSession) :
  VideoSync.segments (VideoSync.generateTimedNarration s)
  = introSegment s :: stepSegments 2000 (sess_steps s) ++ [outroSegment s].
Proof.
  unfold VideoSync.generateTimedNarration, outroSegment. simpl.
  pose proof (fold_loop_body (sess_steps s) [] (introSegment s)) as F.
  simpl in F. unfold introSegment in F at 1. rewrite F.
  rewrite lastEndOr_cons, lastEndOr_stepSegments. reflexivity.
Qed.

Lemma chained_app p l1 l2 :
  chained p (l1 ++ l2) <-> chained p l1 /\ chained (VideoSync.lastEndOr l1 p) l2.
Proof.
  revert p. induction l1 as [|a l1 IH]; intros p; simpl.
  - unfold VideoSync.lastEndOr; simpl. tauto.
  - rewrite IH, lastEndOr_cons. tauto.
Qed.

Lemma chained_stepSegments steps : forall p,
  chained p (stepSegments p steps) <-> offsetsOrdered p steps = true.
Proof.
  induction steps as [|st r IH]; intros p; simpl; [tauto|].
  destruct (narrated st); [|apply IH].
  simpl. rewrite IH, andb_true_iff, Z.leb_le. tauto.
Qed.

Lemma nonOverlapping_chained (segs : list VideoSync.NarrationSegment) seg :
  (forall (i : nat) a b,
      (seg :: segs) !! i = Some a -> (seg :: segs) !! S i = Some b ->
      VideoSync.endMs a <= VideoSync.startMs b)
  <-> chained (VideoSync.endMs seg) segs.
Proof.
  revert seg. induction segs as [|x r IH]; intros seg; simpl.
  - split; [done|]. intros _ i a b Ha Hb. destruct i; simpl in *; done.
  - rewrite <- IH. split.
    + intros Hall. split.
      * by apply (Hall 0%nat seg x).
      * intros i a b Ha Hb. by apply (Hall (S i) a b).
    + intros [H0 Hr] i a b Ha Hb. destruct i as [|i]; simpl in *.
      * by simplify_eq.
      * by apply (Hr i a b).
Qed.

Lemma cuesOf_lookup s (i : nat) :
  cuesOf s !! i =
  (fun item => mkCue (Z.of_nat i + 1) (VideoSync.startMs item)
                     (VideoSync.endMs item) (VideoSync.text item))
    <$> VideoSync.segments (VideoSync.generateTimedNarration s) !! i.
Proof. unfold cuesOf. by rewrite list_lookup_imap. Qed.

(** The time code [formatSrtTime] prints denotes the millisecond count it
    is given. *)
Lemma srtTimeFields_sound (ms : Z) :
  0 <= ms ->
  let '(h, m, s, milli) := srtTimeFields ms in
  ms = h * 3600000 + m * 60000 + s * 1000 + milli
  /\ 0 <= h /\ 0 <= m < 60 /\ 0 <= s < 60 /\ 0 <= milli < 1000.
Proof.
  intros Hms. unfold srtTimeFields.
  rewrite !Z.rem_mod_nonneg by lia.
  pose proof (Z.mod_pos_bound ms 3600000).
  pose proof (Z.mod_pos_bound ms 60000).
  pose proof (Z.mod_pos_bound ms 1000).
  pose proof (Z.div_mod ms 3600000).
  pose proof (Z.div_mod (ms mod 3600000) 60000).
  pose proof (Z.div_mod (ms mod 60000) 1000).
  assert (ms mod 3600000 mod 60000 = ms mod 60000) as E1
    by (apply Z.mod_mod_divide; by exists 60).
  assert (ms mod 60000 mod 1000 = ms mod 1000) as E2
    by (apply Z.mod_mod_divide; by exists 60).
  pose proof (Z.div_pos ms 3600000).
  pose proof (Z.div_pos (ms mod 3600000) 60000).
  pose proof (Z.div_pos (ms mod 60000) 1000).
  pose proof (Z.div_lt_upper_bound (ms mod 3600000) 60000 60).
  pose proof (Z.div_lt_upper_bound (ms mod 60000) 1000 60).
  lia.
Qed.

(** C3, as stated, fails: with a click recorded 500 ms after the video
    origin, the second cue starts at 500 ms while the intro cue before it
    ends at 2000 ms. *)
Lemma C3_counterexample :
  ~ cuesNonOverlapping (cuesOf (Sample.session [Sample.earlyClick])).
Proof.
  intros Hc.
  specialize (Hc 0%nat _ _ eq_refl eq_refl). simpl in Hc. lia.
Qed.

(** C3, amended: the cues of the SRT and VTT outputs are non-overlapping
    (each cue starts at or after the end of the previous one) exactly when
    the recorded video offsets are ordered: every narrated step that carries
    a start offset starts at or after the end of the cue before it, which is
    2000 ms for the first.  The outro and the steps without a recorded start
    always begin where the previous cue ends. *)
Theorem C3_cues_nonoverlapping_iff_offsets_ordered (s : DemoSession) :
  cuesNonOverlapping (cuesOf s) <-> offsetsOrdered 2000 (sess_steps s) = true.
Proof.
  rewrite <- chained_stepSegments.
  transitivity (chained 2000 (stepSegments 2000 (sess_steps s) ++ [outroSegment s])).
  2:{ rewrite chained_app. simpl.
      split; [tauto|]. intros Hc. split; [done|]. split; [|done].
      rewrite lastEndOr_stepSegments. lia. }
  change 2000 with (VideoSync.endMs (introSegment s)) at 1.
  rewrite <- nonOverlapping_chained, <- segments_shape.
  unfold cuesNonOverlapping. split.
  - intros Hc i a b Ha Hb.
    specialize (Hc i
      (mkCue (Z.of_nat i + 1) (VideoSync.startMs a) (VideoSync.endMs a)
             (VideoSync.text a))
      (mkCue (Z.of_nat (S i) + 1) (VideoSync.startMs b) (VideoSync.endMs b)
             (VideoSync.text b))).
    rewrite !cuesOf_lookup, Ha, Hb in Hc. by apply Hc.
  - intros Hs i a b. rewrite !cuesOf_lookup. intros Ha Hb.
    destruct (_ !! i) as [sa|] eqn:Ea; [|done].
    destruct (_ !! S i) as [sb|] eqn:Eb; [|done].
    simpl in *. simplify_eq. simpl. by apply (Hs i).
Qed.

Lemma C3_cues_nonoverlapping_iff_offsets_ordered_witness :
  cuesNonOverlapping (cuesOf (Sample.session [Sample.lateClick])).
Proof.
  apply (proj2 (C3_cues_nonoverlapping_iff_offsets_ordered
                  (Sample.session [Sample.lateClick]))).
  reflexivity.
Defined.

(** C10: when the final step is narrated and carries a recorded video end
    offset, the total duration is that offset and the outro segment starts
    and ends there, with [durationMs = 0]. *)
Theorem C10_outro_zero_width (s : DemoSession) (init : list DemoStep)
    (final : DemoStep) (e : Z) :
  sess_steps s = init ++ [final] ->
  narrated final = true ->
  step_videoEndMs final = Some e ->
  let data := VideoSync.generateTimedNarration s in
  VideoSync.totalDurationMs data = e
  /\ last (VideoSync.segments data)
     = Some (VideoSync.mkSegment (-1) e e 0 (outroText (sess_title s))).
Proof.
  intros Hsteps Hnarr Hend data.
  assert (VideoSync.totalDuration (sess_steps s) = e) as Htotal.
  { unfold VideoSync.totalDuration. rewrite Hsteps, last_snoc, Hend. done. }
  assert (finalEnd 2000 (sess_steps s) = e) as Hfinal.
  { rewrite Hsteps, finalEnd_app. simpl. by rewrite Hnarr, Hend. }
  split; [exact Htotal|].
  unfold data. rewrite segments_shape.
  change (introSegment s :: ?l ++ [?o]) with ((introSegment s :: l) ++ [o]).
  rewrite last_snoc. unfold outroSegment. simpl.
  rewrite Htotal, Hfinal. do 2 f_equal. lia.
Qed.

Lemma C10_outro_zero_width_witness :
  let s := Sample.session [Sample.earlyClick] in
  VideoSync.totalDurationMs (VideoSync.generateTimedNarration s) = 800
  /\ last (VideoSync.segments (VideoSync.generateTimedNarration s))
     = Some (VideoSync.mkSegment (-1) 800 800 0 (outroText (sess_title s))).
Proof.
  exact (C10_outro_zero_width (Sample.session [Sample.earlyClick]) []
           Sample.earlyClick 800 eq_refl eq_refl eq_refl).
Defined.

(** ** Estimated narration timing *)

Lemma Math_round_integer (z : Z) : Js.Math_round (inject_Z z) = z.
Proof.
  unfold Js.Math_round, Qfloor, Qplus, inject_Z. simpl.
  symmetry. apply (Z.div_unique _ 2 z 1); lia.
Qed.

Lemma Qfloor_Qeq (x y : Q) : (x == y)%Q -> Qfloor x = Qfloor y.
Proof. intros E. by rewrite E. Qed.

(** The rounded estimate is a whole number of milliseconds: 400 a word,
    floored at 2000. *)
Lemma estimatedDuration_round (narration : string) :
  Js.Math_round (Estimated.estimatedDuration narration)
  = Z.max 2000 (Js.split_ws_length narration * 60000 / 150).
Proof.
  unfold Estimated.estimatedDuration.
  set (wc := Js.split_ws_length narration).
  assert (wc * 60000 / 150 = 400 * wc) as ->.
  { replace (wc * 60000) with (400 * wc * 150) by lia. by apply Z.div_mul. }
  assert ((inject_Z wc / 150 * 60 * 1000 == inject_Z (400 * wc))%Q) as E.
  { rewrite inject_Z_mult. field. }
  unfold Js.Math_max.
  destruct (Qle_bool 2000 _) eqn:L.
  - apply Qle_bool_iff in L. rewrite E in L.
    change (2000%Q) with (inject_Z 2000) in L. rewrite <- Zle_Qle in L.
    unfold Js.Math_round.
    rewrite (Qfloor_Qeq _ (inject_Z (400 * wc) + (1#2))%Q) by (by rewrite E).
    fold (Js.Math_round (inject_Z (400 * wc))). rewrite Math_round_integer. lia.
  - assert (~ (2000 <= inject_Z wc / 150 * 60 * 1000)%Q) as N.
    { intros C. apply Qle_bool_iff in C. congruence. }
    rewrite E in N. change (2000%Q) with (inject_Z 2000) in N.
    rewrite <- Zle_Qle in N.
    change (2000%Q) with (inject_Z 2000). rewrite Math_round_integer. lia.
Qed.

Lemma below_forall (P : Z -> bool) (n : Z) :
  forallb P (map Z.of_nat (seq 0 (Z.to_nat (n + 1)))) = true ->
  forall z, 0 <= z <= n -> P z = true.
Proof.
  intros Hall z Hz. rewrite forallb_forall in Hall. apply Hall.
  apply in_map_iff. exists (Z.to_nat z). split; [lia|].
  apply in_seq. lia.
Qed.

Lemma split_ws_count_bounds (s : string) : forall in_run,
  0 <= Js.split_ws_count in_run s.
Proof.
  induction s as [|c r IH]; intros in_run; simpl; [lia|].
  destruct (Js.is_space c); [|apply IH].
  specialize (IH true). destruct in_run; lia.
Qed.

(** Computing the estimate on exact rationals loses nothing: for a
    narration of up to 2000 pieces, rounding what the doubles give is the
    same whole number of milliseconds. *)
Lemma estimate_exact_as_double (narration : string) :
  Js.split_ws_length narration <= 2000 ->
  Js.Math_round_double (Estimated.estimatedDurationDouble narration)
  = Some (Js.Math_round (Estimated.estimatedDuration narration)).
Proof.
  intros Hlen. rewrite estimatedDuration_round.
  unfold Estimated.estimatedDurationDouble.
  pose proof (split_ws_count_bounds narration false) as Hpos.
  fold (Js.split_ws_length narration) in Hpos.
  set (wc := Js.split_ws_length narration) in *.
  pose (P := fun z =>
          bool_decide
            (Js.Math_round_double
               (Js.Math_max_double (Js.double_of_Z 2000)
                  (Js.multiply
                     (Js.multiply (Js.divide (Js.double_of_Z z) (Js.double_of_Z 150))
                                  (Js.double_of_Z 60))
                     (Js.double_of_Z 1000)))
             = Some (Z.max 2000 (z * 60000 / 150)))).
  assert (P wc = true) as HP.
  { apply (below_forall P 2000); [|lia]. vm_compute. reflexivity. }
  by apply bool_decide_eq_true in HP.
Qed.

Lemma fold_estimated steps : forall acc t,
  fold_left Estimated.loop_body steps (acc, t)
  = (acc ++ estimatedLayout t steps, t + clockAdvance steps).
Proof.
  induction steps as [|step rest IH]; intros acc t; simpl.
  - by rewrite app_nil_r, Z.add_0_r.
  - fold (narrated step). destruct (narrated step).
    + rewrite IH, estimatedDuration_round, <- app_assoc. simpl.
      f_equal. lia.
    + rewrite IH. f_equal.
Qed.

Lemma estimated_shape (s : DemoSession) :
  Estimated.generateTimedNarration s
  = Estimated.mkEntry 0 0 3000 (introText (sess_title s))
      :: estimatedLayout 3000 (sess_steps s)
      ++ [Estimated.mkEntry (-1) (3000 + clockAdvance (sess_steps s)) 4000
                            (outroText (sess_title s))].
Proof.
  unfold Estimated.generateTimedNarration. by rewrite fold_estimated.
Qed.


Lemma length_estimatedLayout l : forall t,
  length (estimatedLayout t l) = narratedCount l.
Proof.
  induction l as [|step rest IH]; intros t; simpl; [done|].
  destruct (narrated step); simpl; by rewrite IH.
Qed.







(** ** The monad and the JavaScript map *)

Lemma bind_Ok_inv {St A B} (c : Eff St A) (k : A -> Eff St B) w b w' :
  bind c k w = (Ok b, w') ->
  exists a w1, c w = (Ok a, w1) /\ k a w1 = (Ok b, w').
Proof.
  unfold bind. destruct (c w) as [[a|e] w1]; [eauto|done].
Qed.

Lemma sorted_snoc (l : list Z) (k : Z) :
  StronglySorted Z.lt l -> Forall (fun x => x < k) l ->
  StronglySorted Z.lt (l ++ [k]).
Proof.
  induction 1 as [|a l Hs IH Hall]; intros Hlt; simpl.
  - repeat constructor.
  - apply Forall_cons in Hlt as [Ha Hl].
    constructor; [by apply IH|].
    apply Forall_app. split; [done|]. by repeat constructor.
Qed.

Section MapProps.
Context {V : Type}.
Implicit Types m : list (Z * V).

Lemma get_elem_of k m v : JsMap.get k m = Some v -> k ∈ JsMap.keys m.
Proof.
  induction m as [|[k' v'] r IH]; simpl; [done|].
  destruct (Z.eqb_spec k' k) as [->|]; [left|]. intros Hg. right. by apply IH.
Qed.

Lemma sorted_head_notin k (l : list Z) :
  StronglySorted Z.lt (k :: l) -> k ∉ l.
Proof.
  intros Hs Hin. apply StronglySorted_inv in Hs as [_ Hall].
  rewrite Forall_forall in Hall. specialize (Hall k Hin). lia.
Qed.

Lemma sorted_head_min k (l : list Z) x :
  StronglySorted Z.lt (k :: l) -> x ∈ k :: l -> k <= x.
Proof.
  intros Hs [->|Hin]%elem_of_cons; [lia|].
  apply StronglySorted_inv in Hs as [_ Hall].
  rewrite Forall_forall in Hall. specialize (Hall x Hin). lia.
Qed.

Lemma elem_of_keys_delete k k' m :
  StronglySorted Z.lt (JsMap.keys m) ->
  k' ∈ JsMap.keys (JsMap.delete k m) <-> k' ∈ JsMap.keys m /\ k' <> k.
Proof.
  induction m as [|[k0 v0] r IH]; simpl.
  - intros _. rewrite elem_of_nil. tauto.
  - intros Hs.
    pose proof (sorted_head_notin _ _ Hs) as Hhead.
    apply StronglySorted_inv in Hs as [Hs _].
    destruct (Z.eqb_spec k0 k) as [->|Hne]; simpl; rewrite !elem_of_cons.
    + split; [|tauto]. intros Hin. split; [by right|]. by intros ->.
    + rewrite (IH Hs). split; [|tauto].
      intros [->|[Hin Hk]]; tauto.
Qed.

Lemma sorted_delete k m :
  StronglySorted Z.lt (JsMap.keys m) ->
  StronglySorted Z.lt (JsMap.keys (JsMap.delete k m)).
Proof.
  induction m as [|[k0 v0] r IH]; simpl; [done|]. intros Hs.
  apply StronglySorted_inv in Hs as [Hs Hall].
  destruct (Z.eqb_spec k0 k); [done|]. simpl.
  constructor; [by apply IH|].
  rewrite Forall_forall in *. intros x Hx.
  apply (elem_of_keys_delete k x r Hs) in Hx as [Hx _]. by apply Hall.
Qed.

Lemma get_head k v m : JsMap.get k ((k, v) :: m) = Some v.
Proof. simpl. by rewrite Z.eqb_refl. Qed.

Lemma set_fresh k v m :
  k ∉ JsMap.keys m -> JsMap.set k v m = m ++ [(k, v)].
Proof.
  induction m as [|[k0 v0] r IH]; simpl; [done|]. rewrite not_elem_of_cons.
  intros [Hn Hr]. destruct (Z.eqb_spec k0 k); [congruence|]. f_equal. by apply IH.
Qed.

Lemma get_set_ne k k' v m :
  k <> k' -> JsMap.get k (JsMap.set k' v m) = JsMap.get k m.
Proof.
  intros Hne. induction m as [|[k0 v0] r IH]; simpl.
  - by destruct (Z.eqb_spec k' k); [congruence|].
  - destruct (Z.eqb_spec k0 k'); simpl.
    + subst. by destruct (Z.eqb_spec k' k); [congruence|].
    + by rewrite IH.
Qed.

Lemma get_delete_ne k k' m :
  k <> k' -> JsMap.get k (JsMap.delete k' m) = JsMap.get k m.
Proof.
  intros Hne. induction m as [|[k0 v0] r IH]; simpl; [done|].
  destruct (Z.eqb_spec k0 k'); simpl.
  - subst. by destruct (Z.eqb_spec k' k); [congruence|].
  - by rewrite IH.
Qed.

Lemma length_delete k m v :
  JsMap.get k m = Some v -> S (length (JsMap.delete k m)) = length m.
Proof.
  induction m as [|[k0 v0] r IH]; simpl; [done|].
  destruct (Z.eqb_spec k0 k); [done|]. intros Hg. simpl. f_equal. by apply IH.
Qed.
End MapProps.

(** ** The step log *)

Section StoreProps.
Context {Ext : Type} `{Driver Ext}.

Lemma requireSession_active (w : World Ext) s :
  activeIn w s -> requireSession w = (Ok s, w).
Proof.
  intros [Hcur [page Hpage]].
  unfold requireSession, getSession, bind. by rewrite Hcur, Hpage.
Qed.

Lemma addStep_spec (w : World Ext) s p :
  activeIn w s ->
  let fullStep := with_id p (Z.of_nat (length (sess_steps s)) + 1) in
  addStep p w = (Ok fullStep, with_session w (set_steps (sess_steps s ++ [fullStep]) s)).
Proof.
  intros Hact. unfold addStep, bind. by rewrite (requireSession_active w s).
Qed.

Lemma addSteps_spec (ps : list PartialStep) : forall (w : World Ext) s,
  activeIn w s ->
  let new := imap (fun i p => with_id p (Z.of_nat (length (sess_steps s) + i) + 1)) ps in
  addSteps ps w = (Ok new, with_session w (set_steps (sess_steps s ++ new) s)).
Proof.
  induction ps as [|p rest IH]; intros w s Hact; simpl.
  - unfold ret, with_session. rewrite app_nil_r.
    destruct Hact as [Hcur _]. destruct w, s; simpl in *. by rewrite Hcur.
  - unfold bind at 1. rewrite (addStep_spec w s p Hact). 
    set (full := with_id p _).
    set (s1 := set_steps _ s).
    assert (activeIn (with_session w s1) s1) as Hact1.
    { split; [done|]. destruct Hact as [_ Hp]. by destruct s. }
    unfold bind at 1. rewrite (IH _ s1 Hact1). unfold ret. simpl.
    rewrite length_app. simpl.
    replace (length (sess_steps s) + 0)%nat with (length (sess_steps s)) by lia.
    fold full.
    assert (imap (λ (i : nat) (p0 : PartialStep), with_id p0 (Z.of_nat (length (sess_steps s) + 1 + i) + 1)) rest
          = imap ((λ (i : nat) (p0 : PartialStep), with_id p0 (Z.of_nat (length (sess_steps s) + i) + 1)) ∘ S) rest) as ->.
    { apply imap_ext. intros i x _. simpl. do 2 f_equal. lia. }
    f_equal. unfold with_session, s1. simpl. rewrite <- app_assoc. simpl.
    by destruct s.
Qed.

Lemma imap_ids (ps : list PartialStep) : forall n : nat,
  map step_id (imap (fun i p => with_id p (Z.of_nat (n + i) + 1)) ps)
  = map Z.of_nat (seq (S n) (length ps)).
Proof.
  induction ps as [|p rest IH]; intros n; simpl; [done|].
  f_equal; [lia|]. rewrite <- (IH (S n)). f_equal.
  apply imap_ext. intros i x _. simpl. do 2 f_equal. lia.
Qed.

Lemma imap_without_id (ps : list PartialStep) : forall f : nat -> Z,
  map without_id (imap (fun i p => with_id p (f i)) ps) = ps.
Proof.
  induction ps as [|p rest IH]; intros f; simpl; [done|].
  f_equal; [by destruct p|]. apply (IH (f ∘ S)).
Qed.

(** C2: whatever is appended, failed actions included, [addStep] gives
    the step the id [length log + 1] and puts it at the end of the log,
    leaving the steps already there as they were; a log whose ids are
    [1..N] therefore keeps ids [1..N'] after any sequence of appends, in
    the order of the appends. *)
Theorem C2_step_ids_contiguous (w : World Ext) (s : DemoSession)
    (ps : list PartialStep) :
  activeIn w s ->
  map step_id (sess_steps s) = idsUpTo (length (sess_steps s)) ->
  exists new : list DemoStep,
    addSteps ps w = (Ok new, with_session w (set_steps (sess_steps s ++ new) s))
    /\ map without_id new = ps
    /\ map step_id (sess_steps s ++ new) = idsUpTo (length (sess_steps s ++ new))
    /\ forall (i : nat) (p : PartialStep),
         ps !! i = Some p ->
         new !! i = Some (with_id p (Z.of_nat (length (sess_steps s) + i) + 1)).
Proof.
  intros Hact Hids.
  exists (imap (fun i p => with_id p (Z.of_nat (length (sess_steps s) + i) + 1)) ps).
  split; [by apply addSteps_spec|].
  split; [apply (imap_without_id ps (fun i => Z.of_nat (length (sess_steps s) + i) + 1))|].
  split.
  - rewrite map_app, Hids, imap_ids, length_app, length_imap.
    unfold idsUpTo. by rewrite seq_app, map_app.
  - intros i p Hp. by rewrite list_lookup_imap, Hp.
Qed.

End StoreProps.

Lemma C2_step_ids_contiguous_witness :
  let s := SampleWorld.session [] [(0, 3%nat)] 0 3%nat 1 in
  let w := SampleWorld.world s in
  exists new : list DemoStep,
    addSteps [SampleWorld.partialClick; SampleWorld.partialFailed] w
    = (Ok new, with_session w (set_steps (sess_steps s ++ new) s))
    /\ map without_id new = [SampleWorld.partialClick; SampleWorld.partialFailed]
    /\ map step_id (sess_steps s ++ new) = idsUpTo (length (sess_steps s ++ new))
    /\ forall (i : nat) (p : PartialStep),
         [SampleWorld.partialClick; SampleWorld.partialFailed] !! i = Some p ->
         new !! i = Some (with_id p (Z.of_nat (length (sess_steps s) + i) + 1)).
Proof.
  intros s w.
  apply (C2_step_ids_contiguous w s).
  - split; [reflexivity|]. eexists. reflexivity.
  - reflexivity.
Defined.

(** ** The tab registry *)

Section RegistryProps.
Context {Ext : Type} `{Driver Ext}.

Lemma switchTab_spec (w : World Ext) s pageId page :
  activeIn w s ->
  JsMap.get pageId (sess_pages s) = Some page ->
  exists r x,
    switchTab pageId w
    = (r, mkWorld (Some (set_active pageId page s)) (clock w) (ticks w) x).
Proof.
  intros Hact Hget. unfold switchTab, bind at 1.
  rewrite (requireSession_active w s Hact), Hget.
  unfold bind, set_session, lift. simpl.
  destruct (page_bringToFront page (ext w)) as [[[]|e] x]; eauto.
Qed.

(** Closing the active tab when another one remains. *)
Lemma closeTab_active_run (w : World Ext) s page x :
  activeIn w s ->
  JsMap.get (sess_activePageId s) (sess_pages s) = Some page ->
  JsMap.size (sess_pages s) <> 1 ->
  page_close page (ext w) = (Ok tt, x) ->
  exists r x' first firstPage rest,
    JsMap.delete (sess_activePageId s) (sess_pages s) = (first, firstPage) :: rest
    /\ closeTab (sess_activePageId s) w
       = (r, mkWorld (Some (set_active first firstPage
                              (set_pages ((first, firstPage) :: rest) s)))
                     (clock w) (ticks w) x').
Proof.
  intros Hact Hget Hsize Hclose.
  set (a := sess_activePageId s) in *.
  pose proof (length_delete a _ _ Hget) as Hlen.
  destruct (JsMap.delete a (sess_pages s)) as [|[first firstPage] rest] eqn:Hdel.
  { exfalso. apply Hsize. unfold JsMap.size. by rewrite <- Hlen. }
  set (s1 := set_pages ((first, firstPage) :: rest) s).
  set (w1 := mkWorld (Some s1) (clock w) (ticks w) x).
  assert (activeIn w1 s1) as Hact1.
  { split; [done|]. destruct Hact as [_ Hp]. by destruct s. }
  assert (JsMap.get first (sess_pages s1) = Some firstPage) as Hget1.
  { replace (sess_pages s1) with ((first, firstPage) :: rest) by (by destruct s).
    apply get_head. }
  destruct (switchTab_spec w1 s1 first firstPage Hact1 Hget1) as (r & x' & Hsw).
  exists (match r with Ok _ => Ok tt | Throw e => Throw e end), x', first, firstPage, rest.
  split; [done|].
  unfold closeTab, bind at 1.
  rewrite (requireSession_active w s Hact), Hget.
  destruct (Z.eqb_spec (JsMap.size (sess_pages s)) 1); [done|].
  unfold bind at 1, lift. rewrite Hclose.
  unfold bind at 1, set_session. simpl.
  fold a. rewrite Z.eqb_refl, Hdel. simpl. fold s1. fold w1.
  unfold bind at 1. rewrite Hsw. by destruct r.
Qed.

(** Closing a tab that is not the active one. *)
Lemma closeTab_other_run (w : World Ext) s pageId page x :
  activeIn w s ->
  JsMap.get pageId (sess_pages s) = Some page ->
  JsMap.size (sess_pages s) <> 1 ->
  sess_activePageId s <> pageId ->
  page_close page (ext w) = (Ok tt, x) ->
  closeTab pageId w
  = (Ok tt, mkWorld (Some (set_pages (JsMap.delete pageId (sess_pages s)) s))
                    (clock w) (ticks w) x).
Proof.
  intros Hact Hget Hsize Hother Hclose.
  unfold closeTab, bind at 1.
  rewrite (requireSession_active w s Hact), Hget.
  destruct (Z.eqb_spec (JsMap.size (sess_pages s)) 1); [done|].
  unfold bind at 1, lift. rewrite Hclose.
  unfold bind at 1, set_session. simpl.
  by destruct (Z.eqb_spec (sess_activePageId s) pageId).
Qed.

Lemma registryOk_intro (w : World Ext) (s : DemoSession) :
  currentSession w = Some s ->
  StronglySorted Z.lt (JsMap.keys (sess_pages s)) ->
  Forall (fun k => k < sess_nextPageId s) (JsMap.keys (sess_pages s)) ->
  is_Some (sess_page s) ->
  JsMap.get (sess_activePageId s) (sess_pages s) = sess_page s ->
  registryOk w.
Proof. intros. exists s. by split_and!. Qed.

Lemma startSession_establishes (input : StartSessionInput) (w w' : World Ext) s :
  startSession input w = (Ok s, w') ->
  registryOk w' /\ currentSession w' = Some s
  /\ sess_steps s = [] /\ sess_status s = running.
Proof.
  unfold startSession. intros Hrun.
  apply bind_Ok_inv in Hrun as (cur & w1 & _ & Hrun).
  apply bind_Ok_inv in Hrun as (? & w2 & _ & Hrun).
  apply bind_Ok_inv in Hrun as (uuid & w3 & _ & Hrun).
  apply bind_Ok_inv in Hrun as (startedAt & w4 & _ & Hrun).
  apply bind_Ok_inv in Hrun as (videoStartTime & w5 & _ & Hrun).
  apply bind_Ok_inv in Hrun as ([[browser context] page] & w6 & _ & Hrun).
  apply bind_Ok_inv in Hrun as (? & w7 & _ & Hrun).
  apply bind_Ok_inv in Hrun as (? & w8 & Hset & Hrun).
  unfold ret in Hrun. unfold set_session in Hset. simplify_eq. simpl.
  split_and!; try done.
  eapply registryOk_intro; simpl; eauto; repeat constructor.
Qed.

Lemma newTab_preserves (url : option string) (w : World Ext) :
  registryOk w -> registryOk (newTab url w).2.
Proof.
  intros (s & Hact & [Hsorted Hbound] & Hactive).
  pose proof Hact as [Hcur Hpage].
  unfold newTab, bind at 1.
  rewrite (requireSession_active w s Hact).
  destruct (sess_context s) as [context|] eqn:Hctx.
  2:{ unfold throw. simpl. by exists s. }
  unfold bind at 1, lift.
  destruct (context_newPage context (ext w)) as [[page|e] x] eqn:Hnew.
  2:{ simpl. by exists s. }
  unfold bind at 1, set_session. simpl.
  set (s1 := set_pages _ _).
  assert (sess_nextPageId s ∉ JsMap.keys (sess_pages s)) as Hfresh.
  { intros Hin. rewrite Forall_forall in Hbound. specialize (Hbound _ Hin). lia. }
  assert (sess_activePageId s <> sess_nextPageId s) as Hne.
  { intros Heq. apply Hfresh. rewrite <- Heq.
    destruct Hpage as [p Hp]. rewrite Hp in Hactive. by apply get_elem_of in Hactive. }
  assert (registryOk (mkWorld (Some s1) (clock w) (ticks w) x)) as Hok.
  { apply (registryOk_intro _ s1); unfold s1; destruct s; simpl in *; try done.
    - rewrite (set_fresh _ _ _ Hfresh). unfold JsMap.keys. rewrite map_app.
      by apply sorted_snoc.
    - rewrite (set_fresh _ _ _ Hfresh). unfold JsMap.keys. rewrite map_app.
      apply Forall_app. split.
      + eapply Forall_impl; [exact Hbound|]. simpl. intros; lia.
      + simpl. constructor; [lia|constructor].
    - by rewrite get_set_ne. }
  assert (forall (c : M Ext unit) r' w',
             c (mkWorld (Some s1) (clock w) (ticks w) x) = (r', w') ->
             currentSession w' = Some s1 ->
             registryOk (bind c (fun _ => ret (sess_nextPageId s, page))
                              (mkWorld (Some s1) (clock w) (ticks w) x)).2) as Hgo.
  { intros c r' w' Hc Hcur'. unfold bind. rewrite Hc.
    destruct Hok as (s' & [Hc' Hp'] & Hwf' & Ha'). simpl in Hc'.
    injection Hc' as <-.
    destruct r'; simpl; exists s1; by split_and!. }
  destruct url as [u|]; [destruct (Js.truthy u)|].
  - unfold lift.
    destruct (page_goto page u x) as [r' x'] eqn:Hgoto.
    eapply Hgo; [simpl; by rewrite Hgoto|done].
  - eapply Hgo; [reflexivity|done].
  - eapply Hgo; [reflexivity|done].
Qed.

Lemma switchTab_preserves (pageId : Z) (w : World Ext) :
  registryOk w -> registryOk (switchTab pageId w).2.
Proof.
  intros (s & Hact & Hwf & Hactive).
  destruct (JsMap.get pageId (sess_pages s)) as [page|] eqn:Hget.
  - destruct (switchTab_spec w s pageId page Hact Hget) as (r' & x & ->). simpl.
    apply (registryOk_intro _ (set_active pageId page s));
      destruct Hwf; destruct s; simpl in *; by eauto.
  - unfold switchTab, bind at 1.
    rewrite (requireSession_active w s Hact), Hget. simpl. by exists s.
Qed.

Lemma closeTab_preserves (pageId : Z) (w : World Ext) :
  registryOk w -> registryOk (closeTab pageId w).2.
Proof.
  intros (s & Hact & Hwf & Hactive). pose proof Hwf as [Hsorted Hbound].
  pose proof Hact as [Hcur Hpage].
  assert (registryOk w) as Hsame by (by exists s).
  assert (forall l : list (Z * Page),
             (forall k, k ∈ JsMap.keys l -> k ∈ JsMap.keys (sess_pages s)) ->
             Forall (fun k => k < sess_nextPageId s) (JsMap.keys l)) as Hsub.
  { intros l Hl. rewrite Forall_forall in *. intros k Hk. by apply Hbound, Hl. }
  destruct (JsMap.get pageId (sess_pages s)) as [page|] eqn:Hget.
  2:{ unfold closeTab, bind at 1.
      by rewrite (requireSession_active w s Hact), Hget. }
  destruct (Z.eqb_spec (JsMap.size (sess_pages s)) 1) as [Hone|Hmany].
  { unfold closeTab, bind at 1.
    rewrite (requireSession_active w s Hact), Hget.
    by destruct (Z.eqb_spec (JsMap.size (sess_pages s)) 1). }
  destruct (page_close page (ext w)) as [[[]|e] x] eqn:Hclose.
  2:{ unfold closeTab, bind at 1.
      rewrite (requireSession_active w s Hact), Hget.
      destruct (Z.eqb_spec (JsMap.size (sess_pages s)) 1); [done|].
      unfold bind at 1, lift. rewrite Hclose. simpl. by exists s. }
  destruct (Z.eq_dec (sess_activePageId s) pageId) as [<-|Hother].
  - destruct (closeTab_active_run w s page x Hact Hget Hmany Hclose)
      as (r1 & x' & first & firstPage & rest & Hdel & ->). simpl.
    pose proof (sorted_delete (sess_activePageId s) _ Hsorted) as Hs1.
    rewrite Hdel in Hs1.
    eapply registryOk_intro; [reflexivity|..].
    + by destruct s.
    + replace (sess_pages (set_active _ _ _)) with ((first, firstPage) :: rest)
        by (by destruct s).
      replace (sess_nextPageId (set_active _ _ _)) with (sess_nextPageId s)
        by (by destruct s).
      apply Hsub. intros k Hk. rewrite <- Hdel in Hk.
      by apply (elem_of_keys_delete _ _ _ Hsorted) in Hk as [Hk _].
    + by destruct s.
    + destruct s; simpl. by rewrite Z.eqb_refl.
  - rewrite (closeTab_other_run w s pageId page x Hact Hget Hmany Hother Hclose).
    simpl. eapply registryOk_intro; [reflexivity|..].
    + replace (sess_pages (set_pages _ _)) with (JsMap.delete pageId (sess_pages s))
        by (by destruct s).
      by apply sorted_delete.
    + replace (sess_pages (set_pages _ _)) with (JsMap.delete pageId (sess_pages s))
        by (by destruct s).
      replace (sess_nextPageId (set_pages _ _)) with (sess_nextPageId s)
        by (by destruct s).
      apply Hsub. intros k Hk.
      by apply (elem_of_keys_delete _ _ _ Hsorted) in Hk as [Hk _].
    + by destruct s.
    + replace (sess_pages (set_pages _ _)) with (JsMap.delete pageId (sess_pages s))
        by (by destruct s).
      replace (sess_activePageId (set_pages _ _)) with (sess_activePageId s)
        by (by destruct s).
      replace (sess_page (set_pages _ _)) with (sess_page s) by (by destruct s).
      by rewrite get_delete_ne.
Qed.

(** The registry stays sound along every sequence of calls, whichever of
    them return or throw. *)
Lemma registry_invariant (calls : list RegistryCall) : forall w : World Ext,
  registryOk w -> registryOk (performAll calls w).
Proof.
  induction calls as [|c rest IH]; intros w Hok; simpl; [done|].
  apply IH. destruct c; simpl.
  - by apply newTab_preserves.
  - by apply switchTab_preserves.
  - by apply closeTab_preserves.
Qed.

(** C5: closing the only live tab throws the last-tab error and leaves the
    whole process state, registry included, as it was. *)
Theorem C5_close_last_tab_rejected (w : World Ext) (s : DemoSession)
    (pageId : Z) (page : Page) :
  activeIn w s ->
  JsMap.get pageId (sess_pages s) = Some page ->
  JsMap.size (sess_pages s) = 1 ->
  closeTab pageId w = (Throw (JsError "Cannot close the last tab"), w).
Proof.
  intros Hact Hget Hsize. unfold closeTab, bind.
  by rewrite (requireSession_active w s Hact), Hget, Hsize.
Qed.

(** C6: when the active tab is closed and another tab remains, the
    registry holds the former ids but the closed one, and the new active
    id is the least of them; the session page is that tab's page.  The
    ids of a registry are in increasing insertion order ([registry_wf]),
    which [startSession] establishes and every registry operation keeps. *)
Theorem C6_close_active_selects_minimum (w : World Ext) (s : DemoSession)
    (page : Page) (x : Ext) :
  activeIn w s ->
  registry_wf s ->
  JsMap.get (sess_activePageId s) (sess_pages s) = Some page ->
  JsMap.size (sess_pages s) <> 1 ->
  page_close page (ext w) = (Ok tt, x) ->
  exists r w' s' newPage,
    closeTab (sess_activePageId s) w = (r, w')
    /\ currentSession w' = Some s'
    /\ sess_pages s' = JsMap.delete (sess_activePageId s) (sess_pages s)
    /\ (forall k, k ∈ JsMap.keys (sess_pages s')
                  <-> k ∈ JsMap.keys (sess_pages s) /\ k <> sess_activePageId s)
    /\ sess_activePageId s' ∈ JsMap.keys (sess_pages s')
    /\ (forall k, k ∈ JsMap.keys (sess_pages s') -> sess_activePageId s' <= k)
    /\ JsMap.get (sess_activePageId s') (sess_pages s') = Some newPage
    /\ sess_page s' = Some newPage.
Proof.
  intros Hact [Hsorted _] Hget Hsize Hclose.
  destruct (closeTab_active_run w s page x Hact Hget Hsize Hclose)
    as (r & x' & first & firstPage & rest & Hdel & Hrun).
  pose proof (sorted_delete (sess_activePageId s) _ Hsorted) as Hsorted1.
  rewrite Hdel in Hsorted1.
  eexists r, _, _, firstPage. split; [exact Hrun|]. split; [done|].
  replace (sess_pages (set_active _ _ _)) with ((first, firstPage) :: rest)
    by (by destruct s).
  replace (sess_activePageId (set_active _ _ _)) with first by (by destruct s).
  split; [done|]. split.
  { intros k. rewrite <- Hdel. by apply elem_of_keys_delete. }
  split; [left|]. split.
  { intros k Hk. by apply (sorted_head_min first (JsMap.keys rest)). }
  split; [apply get_head|by destruct s].
Qed.

End RegistryProps.

Lemma C5_close_last_tab_rejected_witness :
  let w := SampleWorld.world (SampleWorld.session [] [(0, 3%nat)] 0 3%nat 1) in
  closeTab 0 w = (Throw (JsError "Cannot close the last tab"), w).
Proof.
  intros w.
  apply (C5_close_last_tab_rejected w (SampleWorld.session [] [(0, 3%nat)] 0 3%nat 1)
           0 3%nat).
  - split; [reflexivity|]. eexists. reflexivity.
  - reflexivity.
  - reflexivity.
Defined.

Lemma C6_close_active_selects_minimum_witness :
  let s := SampleWorld.session [] [(0, 3%nat); (1, 4%nat); (2, 5%nat)] 1 4%nat 3 in
  exists r w' s' newPage,
    closeTab 1 (SampleWorld.world s) = (r, w')
    /\ currentSession w' = Some s'
    /\ sess_pages s' = [(0, 3%nat); (2, 5%nat)]
    /\ (forall k, k ∈ JsMap.keys (sess_pages s')
                  <-> k ∈ JsMap.keys (sess_pages s) /\ k <> 1)
    /\ sess_activePageId s' ∈ JsMap.keys (sess_pages s')
    /\ (forall k, k ∈ JsMap.keys (sess_pages s') -> sess_activePageId s' <= k)
    /\ JsMap.get (sess_activePageId s') (sess_pages s') = Some newPage
    /\ sess_page s' = Some newPage.
Proof.
  intros s.
  apply (C6_close_active_selects_minimum (SampleWorld.world s) s 4%nat ["close"]).
  - split; [reflexivity|]. eexists. reflexivity.
  - split; simpl; repeat constructor; lia.
  - reflexivity.
  - unfold JsMap.size. simpl. lia.
  - reflexivity.
Defined.

(** ** Evidence capture *)

Section EvidenceProps.
Context {Ext : Type} `{Driver Ext}.

(** The screenshot acts on the driver only. *)
Lemma captureBefore_session (s : DemoSession) (w w' : World Ext) r :
  captureBefore s w = (r, w') ->
  currentSession w' = currentSession w /\ clock w' = clock w /\ ticks w' = ticks w.
Proof.
  unfold captureBefore.
  destruct (opt_screenshotOnStep (sess_options s)); [|unfold ret; by intros [= <- <-]].
  destruct (sess_page s) as [page|]; [|unfold throw; by intros [= <- <-]].
  unfold bind, lift, ret.
  destruct (page_screenshot page _ (ext w)) as [[[]|e] x]; by intros [= <- <-].
Qed.

Lemma executeWithEvidence_spec {T} (options : ExecuteOptions) (fn : M Ext T)
    (w w0 w1 : World Ext) (s s1 : DemoSession) (shot : option string)
    (outcome : result T) :
  activeIn w s ->
  captureBefore s (ticked w) = (Ok shot, w0) ->
  fn w0 = (outcome, w1) ->
  activeIn w1 s1 ->
  let step := evidenceStep options s (clock w (ticks w)) shot outcome w1
                           (length (sess_steps s1)) in
  executeWithEvidence options fn w
  = (match outcome with
     | Ok v => Ok (Some step, v)
     | Throw e => Throw e
     end,
     mkWorld (Some (set_steps (sess_steps s1 ++ [step]) s1)) (clock w1)
             (if Js.truthy_num (sess_videoStartTime s)
              then S (S (S (ticks w1))) else S (S (ticks w1)))
             (ext w1)).
Proof.
  intros Hact Hshot Hfn Hact1 step.
  unfold executeWithEvidence, bind at 1.
  rewrite (requireSession_active w s Hact).
  unfold bind at 1, Date_now. fold (ticked w).
  unfold bind at 1. rewrite Hshot.
  unfold bind at 1, try_finally. rewrite Hfn.
  unfold recordStep, bind at 1, Date_now.
  unfold step, evidenceStep.
  destruct (Js.truthy_num (sess_videoStartTime s)) eqn:Htimed.
  - unfold bind at 1. unfold bind at 1. unfold Date_now, ret. simpl.
    unfold bind at 1. unfold bind at 1.
    match goal with |- context [addStep ?p ?w'] =>
      assert (activeIn w' s1) as Hact2 by (destruct Hact1; by split);
      rewrite (addStep_spec w' s1 p Hact2) end.
    simpl. destruct outcome; unfold bind, getSession, ret, with_session; simpl;
      rewrite ?last_snoc; reflexivity.
  - unfold bind at 1. unfold ret at 1. simpl.
    unfold bind at 1. unfold bind at 1.
    match goal with |- context [addStep ?p ?w'] =>
      assert (activeIn w' s1) as Hact2 by (destruct Hact1; by split);
      rewrite (addStep_spec w' s1 p Hact2) end.
    simpl. destruct outcome; unfold bind, getSession, ret, with_session; simpl;
      rewrite ?last_snoc; reflexivity.
Qed.


(** A callback that only drives the page, as those of the tools do, leaves
    the session as it was: the step is appended to the log the action
    started with. *)
Lemma executeWithEvidence_driver_callback {T} (options : ExecuteOptions)
    (op : Ext -> result T * Ext) (w w0 : World Ext) (s : DemoSession)
    (shot : option string) :
  activeIn w s ->
  captureBefore s (ticked w) = (Ok shot, w0) ->
  exists (step : DemoStep) (w2 : World Ext),
    (executeWithEvidence options (lift op) w).2 = w2
    /\ currentSession w2 = Some (set_steps (sess_steps s ++ [step]) s)
    /\ step_id step = Z.of_nat (length (sess_steps s)) + 1
    /\ step_success step = match (op (ext w0)).1 with Ok _ => true | Throw _ => false end.
Proof.
  intros Hact Hshot.
  destruct (captureBefore_session s _ _ _ Hshot) as (Hcur0 & _ & _).
  destruct (op (ext w0)) as [outcome x] eqn:Hop.
  set (w1 := mkWorld (currentSession w0) (clock w0) (ticks w0) x).
  assert (lift op w0 = (outcome, w1)) as Hrun by (unfold lift; by rewrite Hop).
  assert (activeIn w1 s) as Hact1.
  { destruct Hact as [Hcur Hpage]. split; [|done]. simpl. by rewrite Hcur0. }
  rewrite (executeWithEvidence_spec options (lift op) w w0 w1 s s shot outcome
             Hact Hshot Hrun Hact1).
  eexists _, _. by split_and!.
Qed.

(** What the scroll tool records, whatever the direction asked for. *)
Lemma scroll_records (input : ScrollInput) (w w0 : World Ext) (s : DemoSession)
    (shot : option string) :
  activeIn w s ->
  captureBefore s (ticked w) = (Ok shot, w0) ->
  exists r w' step,
    scroll input w = (r, w')
    /\ currentSession w' = Some (set_steps (sess_steps s ++ [step]) s)
    /\ step_action step = "scroll"
    /\ d_direction (step_details step) = None
    /\ stepToNarration step = "Let me scroll down to show you more.".
Proof.
  intros Hact Hshot.
  destruct (captureBefore_session s _ _ _ Hshot) as (Hcur0 & Hclock0 & Hticks0).
  unfold scroll, bind at 1. rewrite (requireSession_active w s Hact).
  set (fn := if Js.truthy_opt (si_ref input) then _ else _).
  assert (exists op : Ext -> result unit * Ext, fn = lift op) as [op Hfn].
  { unfold fn. destruct (Js.truthy_opt (si_ref input)); eauto. }
  destruct (op (ext w0)) as [outcome x] eqn:Hop.
  set (w1 := mkWorld (currentSession w0) (clock w0) (ticks w0) x).
  assert (fn w0 = (outcome, w1)) as Hrun.
  { rewrite Hfn. unfold lift. by rewrite Hop. }
  assert (activeIn w1 s) as Hact1.
  { destruct Hact as [Hcur Hpage]. split; [|done]. simpl. by rewrite Hcur0. }
  unfold bind at 1.
  rewrite (executeWithEvidence_spec _ fn w w0 w1 s s shot outcome Hact Hshot Hrun Hact1).
  set (step := evidenceStep _ _ _ _ _ _ _).
  destruct outcome as [[]|e]; simpl.
  - eexists _, _, step. split; [reflexivity|]. by split_and!.
  - eexists _, _, step. split; [reflexivity|]. by split_and!.
Qed.

End EvidenceProps.


(** C8 fails on the code: the scroll tool is asked to scroll up, and the
    step it records has no direction in its details, so that its narration
    says down. *)
Theorem C8_scroll_up_narrated_as_down :
  exists (out : ScrollOutput) (w' : World (list string)) (s' : DemoSession)
         (step : DemoStep),
    scroll SampleScroll.scrollUp (SampleWorld.world SampleScroll.session)
    = (Ok out, w')
    /\ so_direction out = up
    /\ ext w' = ["screenshot /out/assets/step-001.png"; "wheel -500"]
    /\ currentSession w' = Some s'
    /\ sess_steps s' = [step]
    /\ step_details step
       = mkDetails None None None None None None None None
                   None None None None None None None None
    /\ stepToNarration step = "Let me scroll down to show you more.".
Proof.
  destruct (scroll SampleScroll.scrollUp (SampleWorld.world SampleScroll.session))
    as [r w'] eqn:Hrun.
  vm_compute in Hrun. injection Hrun as <- <-.
  eexists _, _, _, _. split; [reflexivity|]. by split_and!.
Qed.

(** ** Deliverable packaging *)

Lemma fs_writeFile_ok (path content : string) (fs : FileSystem) :
  path ∉ fs_denied fs ->
  fs_writeFile path content fs
  = (Ok tt, mkFs (<[path := content]> (fs_files fs)) (fs_denied fs) (fs_dirs fs)).
Proof. intros Hok. unfold fs_writeFile. by rewrite decide_False. Qed.

Lemma fs_writeFile_denied (path content : string) (fs : FileSystem) :
  path ∈ fs_denied fs ->
  fs_writeFile path content fs
  = (Throw (JsError ("EACCES: permission denied, open '" +:+ path +:+ "'")), fs).
Proof. intros Hno. unfold fs_writeFile. by rewrite decide_True. Qed.

(** The look-ups never throw and leave the file system as it is. *)
Lemma collectAssets_spec (outputDir : string) (fs : FileSystem) :
  collectAssets (Js.path_join outputDir "assets") fs = (Ok (assetsIn outputDir fs), fs).
Proof.
  unfold collectAssets, assetsIn, try_catch, bind, fs_readdir, ret.
  by destruct (fs_dirs fs !! _).
Qed.

Lemma locateVideo_spec (outputDir : string) (fs : FileSystem) :
  locateVideo outputDir fs = (Ok (videoIn outputDir fs), fs).
Proof.
  unfold locateVideo, videoIn, try_catch, bind, fs_access, fs_readdir, ret.
  destruct (fs_files fs !! _); [done|].
  destruct (fs_dirs fs !! _) as [files|]; [|done].
  by destruct (find _ files).
Qed.

Lemma locateTrace_spec (outputDir : string) (fs : FileSystem) :
  locateTrace outputDir fs = (Ok (traceIn outputDir fs), fs).
Proof.
  unfold locateTrace, traceIn, try_catch, bind, fs_access, ret.
  by destruct (fs_files fs !! _).
Qed.

Section PackagerProps.
Variable generateMarkdownGuide : DemoSession -> result string.
Variable stepsJsonText : DemoSession -> result string.
Variable generateHtmlTutorial : DemoSession -> result string.
Variable generateGif : DemoSession -> string -> Eff FileSystem (option string).

Local Abbreviation package :=
  (packageDeliverables generateMarkdownGuide stepsJsonText generateHtmlTutorial
                       generateGif).
Local Abbreviation stagesOf :=
  (stages generateMarkdownGuide stepsJsonText generateHtmlTutorial).

(** One stage that passes: its generator returns, its write is accepted. *)
Local Ltac pass_stage Hpass :=
  let c := fresh "content" in
  let Hc := fresh "Hcontent" in
  let Hn := fresh "Haccepted" in
  apply Forall_cons in Hpass as [[[c Hc] Hn] Hpass]; simpl in Hc, Hn;
  first [injection Hc as <- | rewrite Hc];
  unfold bind at 1, call; cbv beta iota;
  unfold bind at 1; rewrite fs_writeFile_ok by done; simpl.

(** Every stage passes: packaging ends as the preview generator does. *)
Lemma package_stages_pass (s : DemoSession) (fs : FileSystem) :
  Forall (stagePasses (opt_outputDir (sess_options s)) fs) (stagesOf s) ->
  package s fs
  = match generateGif s (opt_outputDir (sess_options s))
                      (written (opt_outputDir (sess_options s))
                               (outputs (stagesOf s)) fs) with
    | (Ok g, fs') => (Ok (manifestOf s g fs'), fs')
    | (Throw e, fs') => (Throw e, fs')
    end.
Proof.
  intros Hpass. unfold packageDeliverables, stages in *.
  do 6 pass_stage Hpass.
  unfold bind at 1, written. simpl.
  destruct (generateGif s _ _) as [[g|e] fs']; [|done].
  unfold bind at 1. rewrite collectAssets_spec.
  unfold bind at 1. rewrite locateVideo_spec.
  unfold bind at 1. rewrite locateTrace_spec.
  reflexivity.
Qed.

(** One stage that fails: the generator throws, or the write is rejected. *)
Local Ltac fail_stage Hfail :=
  let e := fresh "e" in
  let He := fresh "Hthrown" in
  let Hd := fresh "Hdenied" in
  unfold failureOf;
  destruct Hfail as [[e He]|Hd]; simpl in *;
  [ try discriminate He; unfold bind at 1, call; rewrite He; reflexivity
  | unfold bind at 1, call; cbv beta iota;
    match goal with
    | |- context [match ?r with Ok _ => _ | Throw _ => _ end] =>
        destruct r; [|reflexivity]
    | _ => idtac
    end;
    unfold bind at 1; rewrite fs_writeFile_denied by done; reflexivity ].

(** A failing stage ends packaging there: its error is the outcome, the
    deliverables of the stages before it are written, those of the stages
    after it are not. *)
Lemma package_stage_fails (s : DemoSession) (fs : FileSystem)
    (before after : list (string * result string)) (failed : string * result string) :
  stagesOf s = before ++ failed :: after ->
  Forall (stagePasses (opt_outputDir (sess_options s)) fs) before ->
  stageFails (opt_outputDir (sess_options s)) fs failed ->
  package s fs
  = (Throw (failureOf (opt_outputDir (sess_options s)) failed),
     written (opt_outputDir (sess_options s)) (outputs before) fs).
Proof.
  intros Hstages Hpass Hfail. unfold packageDeliverables, stages, written in *.
  destruct fs as [files denied dirs].
  repeat (destruct before as [|? before];
          [ injection Hstages as <- _; fail_stage Hfail
          | injection Hstages as <- Hstages; pass_stage Hpass ]).
  destruct before; discriminate Hstages.
Qed.


(** Whatever manifest packaging returns carries the summary of the log. *)
Lemma package_summary (s : DemoSession) (fs fs' : FileSystem) (m : DemoDeliverables) :
  package s fs = (Ok m, fs') -> dl_summary m = summaryOf (sess_steps s).
Proof.
  unfold packageDeliverables.
  do 6 (unfold bind at 1, call; cbv beta iota;
        try match goal with
            | |- context [match ?r with Ok _ => _ | Throw _ => _ end] =>
                destruct r; [|done]
            end;
        unfold bind at 1; unfold fs_writeFile at 1;
        destruct (decide _); [done|]; simpl).
  unfold bind at 1. destruct (generateGif s _ _) as [[g|e] fs7]; [|done].
  unfold bind at 1. rewrite collectAssets_spec.
  unfold bind at 1. rewrite locateVideo_spec.
  unfold bind at 1. rewrite locateTrace_spec.
  unfold ret. by intros [= <- <-].
Qed.

(** C4, amended: the failure of a deliverable stage (its generator throws
    or its write is rejected) is not isolated: it ends packaging with
    exactly that error ([failureOf]: the error the generator threw, or else
    the error of the rejected write), the deliverables of the stages before
    it being written and those of the stages after it not; a failure of the
    preview generator ends packaging with its error likewise.  What is
    isolated is the search for the optional artifacts: once the six stages
    have passed and the preview generator has returned, packaging returns
    a manifest whatever the look-ups find, with the paths of the six
    deliverables as [path.join] gives them and without the video, the
    trace or the screenshots that are not there. *)
Theorem C4_packaging_failures (s : DemoSession) (fs : FileSystem) :
  let outputDir := opt_outputDir (sess_options s) in
  (forall before failed after,
      stagesOf s = before ++ failed :: after ->
      Forall (stagePasses outputDir fs) before ->
      stageFails outputDir fs failed ->
      package s fs
      = (Throw (failureOf outputDir failed), written outputDir (outputs before) fs))
  /\ (forall e fs',
      Forall (stagePasses outputDir fs) (stagesOf s) ->
      generateGif s outputDir (written outputDir (outputs (stagesOf s)) fs)
      = (Throw e, fs') ->
      package s fs = (Throw e, fs'))
  /\ (forall g fs',
      Forall (stagePasses outputDir fs) (stagesOf s) ->
      generateGif s outputDir (written outputDir (outputs (stagesOf s)) fs)
      = (Ok g, fs') ->
      exists m,
        package s fs = (Ok m, fs')
        /\ f_guide (dl_files m) = Js.path_join outputDir "guide.md"
        /\ f_steps (dl_files m) = Js.path_join outputDir "steps.json"
        /\ f_narration (dl_files m) = Some (Js.path_join outputDir "narration.txt")
        /\ f_subtitleSrt (dl_files m) = Some (Js.path_join outputDir "subtitles.srt")
        /\ f_subtitleVtt (dl_files m) = Some (Js.path_join outputDir "subtitles.vtt")
        /\ f_tutorial (dl_files m) = Some (Js.path_join outputDir "tutorial.html")
        /\ (fs_files fs' !! Js.path_join outputDir "demo.webm" = None ->
            fs_dirs fs' !! Js.path_join outputDir "videos" = None ->
            f_video (dl_files m) = None)
        /\ (fs_files fs' !! Js.path_join outputDir "trace.zip" = None ->
            f_trace (dl_files m) = None)
        /\ (fs_dirs fs' !! Js.path_join outputDir "assets" = None ->
            f_assets (dl_files m) = [])).
Proof.
  intros outputDir. split_and!.
  - intros before failed after Hstages Hpass Hfail.
    by apply (package_stage_fails s fs before after failed).
  - intros e fs' Hpass Hgif.
    rewrite (package_stages_pass s fs Hpass). fold outputDir. by rewrite Hgif.
  - intros g fs' Hpass Hgif. exists (manifestOf s g fs').
    rewrite (package_stages_pass s fs Hpass). fold outputDir. rewrite Hgif.
    split; [done|]. simpl. split_and!; try done.
    + unfold videoIn. fold outputDir. by intros -> ->.
    + unfold traceIn. fold outputDir. by intros ->.
    + unfold assetsIn. fold outputDir. by intros ->.
Qed.

(** C9: packaging a session with an empty step log reports
    [totalSteps = 0], [duration = 0] and [successRate = 1]: every manifest
    it returns does, and it does return one once the six stages have passed
    and the preview generator has returned. *)
Theorem C9_empty_log_summary (s : DemoSession) (fs : FileSystem) :
  sess_steps s = [] ->
  (forall m fs', package s fs = (Ok m, fs') -> dl_summary m = mkSummary 0 0 (Js.double_of_Z 1))
  /\ (forall g fs',
      Forall (stagePasses (opt_outputDir (sess_options s)) fs) (stagesOf s) ->
      generateGif s (opt_outputDir (sess_options s))
                  (written (opt_outputDir (sess_options s)) (outputs (stagesOf s)) fs)
      = (Ok g, fs') ->
      exists m,
        package s fs = (Ok m, fs')
        /\ totalSteps (dl_summary m) = 0
        /\ duration (dl_summary m) = 0
        /\ successRate (dl_summary m) = Js.double_of_Z 1).
Proof.
  intros Hempty. split.
  - intros m fs' Hrun. rewrite (package_summary s fs fs' m Hrun), Hempty. reflexivity.
  - intros g fs' Hpass Hgif. exists (manifestOf s g fs').
    rewrite (package_stages_pass s fs Hpass), Hgif.
    split; [done|]. simpl. by rewrite Hempty.
Qed.

End PackagerProps.

(** Every listed stage of a sample passes: its generator returns and its
    path is not among the rejected ones. *)
Ltac sample_stages_pass :=
  simpl;
  repeat (apply Forall_cons; split;
          [ split; [by eexists|];
            simpl; rewrite ?elem_of_singleton, ?elem_of_empty; by intros ?
          | ]);
  constructor.

(** C4, as stated, fails: when the JSON generator throws, packaging throws
    that error although the claim promises a manifest and the deliverables
    of the other generators. *)
Lemma C4_counterexample :
  ~ failureIsolated SamplePackaging.guide SamplePackaging.jsonThrows
      SamplePackaging.html SamplePackaging.gif (Sample.session [])
      SamplePackaging.emptyDisk.
Proof.
  intros Hiso.
  destruct (Hiso
              [("guide.md", SamplePackaging.guide (Sample.session []))]
              ("steps.json", SamplePackaging.jsonThrows (Sample.session []))
              [("narration.txt", Ok (generateNarrationScript (Sample.session [])));
               ("subtitles.srt", Ok (generateSrt (Sample.session [])));
               ("subtitles.vtt", Ok (generateVtt (Sample.session [])));
               ("tutorial.html", SamplePackaging.html (Sample.session []))]
              (JsError "Invalid time value"))
    as (m & fs' & Hrun & _).
  - reflexivity.
  - reflexivity.
  - sample_stages_pass.
  - vm_compute in Hrun. discriminate Hrun.
Qed.

Lemma C4_packaging_failures_witness :
  packageDeliverables SamplePackaging.guide SamplePackaging.jsonThrows
    SamplePackaging.html SamplePackaging.gif (Sample.session [])
    SamplePackaging.emptyDisk
  = (Throw (JsError "Invalid time value"),
     written "/out" [("guide.md", "# Log In")] SamplePackaging.emptyDisk)
  /\ packageDeliverables SamplePackaging.guide SamplePackaging.json
       SamplePackaging.html SamplePackaging.gif (Sample.session [])
       SamplePackaging.narrationDenied
     = (Throw (JsError "EACCES: permission denied, open '/out/narration.txt'"),
        written "/out" [("guide.md", "# Log In");
                        ("steps.json", "{ " +:+ Js.dquote +:+ "title" +:+ Js.dquote
                                         +:+ ": " +:+ Js.dquote +:+ "Log In"
                                         +:+ Js.dquote +:+ " }")]
                SamplePackaging.narrationDenied)
  /\ (exists m,
        packageDeliverables SamplePackaging.guide SamplePackaging.json
          SamplePackaging.html SamplePackaging.gif SamplePackaging.relative
          SamplePackaging.emptyDisk
        = (Ok m, written "./demosmith-output"
                   (outputs (stages SamplePackaging.guide SamplePackaging.json
                                    SamplePackaging.html SamplePackaging.relative))
                   SamplePackaging.emptyDisk)
        /\ f_guide (dl_files m) = "demosmith-output/guide.md"
        /\ f_tutorial (dl_files m) = Some "demosmith-output/tutorial.html"
        /\ f_video (dl_files m) = None
        /\ f_trace (dl_files m) = None
        /\ f_assets (dl_files m) = []).
Proof.
  split_and!.
  - apply (proj1 (C4_packaging_failures SamplePackaging.guide
                    SamplePackaging.jsonThrows SamplePackaging.html
                    SamplePackaging.gif (Sample.session [])
                    SamplePackaging.emptyDisk)
             [("guide.md", SamplePackaging.guide (Sample.session []))]
             ("steps.json", SamplePackaging.jsonThrows (Sample.session []))
             [("narration.txt", Ok (generateNarrationScript (Sample.session [])));
              ("subtitles.srt", Ok (generateSrt (Sample.session [])));
              ("subtitles.vtt", Ok (generateVtt (Sample.session [])));
              ("tutorial.html", SamplePackaging.html (Sample.session []))]).
    + reflexivity.
    + sample_stages_pass.
    + left. by eexists.
  - apply (proj1 (C4_packaging_failures SamplePackaging.guide SamplePackaging.json
                    SamplePackaging.html SamplePackaging.gif (Sample.session [])
                    SamplePackaging.narrationDenied)
             [("guide.md", SamplePackaging.guide (Sample.session []));
              ("steps.json", SamplePackaging.json (Sample.session []))]
             ("narration.txt", Ok (generateNarrationScript (Sample.session [])))
             [("subtitles.srt", Ok (generateSrt (Sample.session [])));
              ("subtitles.vtt", Ok (generateVtt (Sample.session [])));
              ("tutorial.html", SamplePackaging.html (Sample.session []))]).
    + reflexivity.
    + sample_stages_pass.
    + right. simpl. by apply elem_of_singleton.
  - destruct (proj2 (proj2 (C4_packaging_failures SamplePackaging.guide
                    SamplePackaging.json SamplePackaging.html SamplePackaging.gif
                    SamplePackaging.relative SamplePackaging.emptyDisk)) None
                 (written "./demosmith-output"
                   (outputs (stages SamplePackaging.guide SamplePackaging.json
                                    SamplePackaging.html SamplePackaging.relative))
                   SamplePackaging.emptyDisk))
      as (m & Hrun & Hguide & _ & _ & _ & _ & Htutorial & Hvideo & Htrace & Hassets).
    + unfold stages. sample_stages_pass.
    + reflexivity.
    + exists m. split; [exact Hrun|].
      split; [exact Hguide|]. split; [exact Htutorial|].
      split; [apply Hvideo; reflexivity|].
      split; [apply Htrace; reflexivity|apply Hassets; reflexivity].
Defined.

Lemma C9_empty_log_summary_witness :
  exists m,
    packageDeliverables SamplePackaging.guide SamplePackaging.json
      SamplePackaging.html SamplePackaging.gif (Sample.session [])
      SamplePackaging.emptyDisk
    = (Ok m, written "/out"
               (outputs (stages SamplePackaging.guide SamplePackaging.json
                                SamplePackaging.html (Sample.session [])))
               SamplePackaging.emptyDisk)
    /\ totalSteps (dl_summary m) = 0
    /\ duration (dl_summary m) = 0
    /\ successRate (dl_summary m) = Js.double_of_Z 1.
Proof.
  apply (proj2 (C9_empty_log_summary SamplePackaging.guide SamplePackaging.json
                  SamplePackaging.html SamplePackaging.gif (Sample.session [])
                  SamplePackaging.emptyDisk eq_refl) None).
  - unfold stages. sample_stages_pass.
  - reflexivity.
Defined.

(** * Further properties *)

(** ** Narration segments and subtitle cues *)

Lemma length_stepSegments steps : forall p,
  length (stepSegments p steps) = narratedCount steps.
Proof.
  induction steps as [|step rest IH]; intros p; simpl; [done|].
  destruct (narrated step); simpl; by rewrite IH.
Qed.

Lemma join_lines_cons (line : string) (rest : list string) :
  rest <> [] -> Js.join_lines (line :: rest) = line +:+ Js.nl +:+ Js.join_lines rest.
Proof. by destruct rest. Qed.

(** X1: the video-synchronised narration has two segments more than there
    are narrated steps, and each subtitle encoder prints one cue a segment,
    in the order of the segments: four lines, which are the number of the
    segment counted from 1, its time range as two time codes around an
    arrow, its text and an empty line; the WebVTT encoder puts its header
    and an empty line first and a dot for the comma of each time code.
    Either output opens with the cue of the intro, from 0 to 2 s. *)
Theorem cues_mirror_segments (s : DemoSession) :
  let segs := VideoSync.segments (VideoSync.generateTimedNarration s) in
  let block (code : Z -> string) (index : nat) (seg : VideoSync.NarrationSegment) :=
    [ Js.of_int (Z.of_nat index + 1);
      code (VideoSync.startMs seg) +:+ " --> " +:+ code (VideoSync.endMs seg);
      VideoSync.text seg;
      EmptyString ] in
  length segs = S (S (narratedCount (sess_steps s)))
  /\ generateSrt s = Js.join_lines (concat (imap (block formatSrtTime) segs))
  /\ generateVtt s
     = Js.join_lines
         ("WEBVTT" :: EmptyString
            :: concat (imap (block (fun ms => replaceComma (formatSrtTime ms))) segs))
  /\ (exists rest,
        generateSrt s
        = "1" +:+ Js.nl +:+ "00:00:00,000 --> 00:00:02,000" +:+ Js.nl
            +:+ introText (sess_title s) +:+ Js.nl +:+ Js.nl +:+ rest)
  /\ (exists rest,
        generateVtt s
        = "WEBVTT" +:+ Js.nl +:+ Js.nl
            +:+ "1" +:+ Js.nl +:+ "00:00:00.000 --> 00:00:02.000" +:+ Js.nl
            +:+ introText (sess_title s) +:+ Js.nl +:+ Js.nl +:+ rest).
Proof.
  intros segs block.
  assert (generateSrt s = Js.join_lines (concat (imap (block formatSrtTime) segs)))
    as Hsrt.
  { unfold generateSrt, cuesOf. fold segs.
    change (map srtLines) with (fmap (M := list) srtLines). by rewrite fmap_imap. }
  assert (generateVtt s
          = Js.join_lines
              ("WEBVTT" :: EmptyString
                 :: concat (imap (block (fun ms => replaceComma (formatSrtTime ms)))
                                 segs))) as Hvtt.
  { unfold generateVtt, cuesOf. fold segs.
    change (map vttLines) with (fmap (M := list) vttLines). by rewrite fmap_imap. }
  assert (segs = introSegment s :: stepSegments 2000 (sess_steps s) ++ [outroSegment s])
    as Hsegs by apply segments_shape.
  assert (forall (f : nat -> VideoSync.NarrationSegment -> list string) l seg,
            (forall i x, f i x <> []) -> concat (imap f (l ++ [seg])) <> [])
    as blocks_some.
  { intros f l seg Hf. rewrite imap_app, concat_app. simpl.
    intros Hnil. apply app_eq_nil in Hnil as [_ Hnil].
    apply app_eq_nil in Hnil as [Hnil _]. by apply (Hf _ _ Hnil). }
  split_and!; [|done|done| |].
  - rewrite Hsegs. simpl. rewrite length_app, length_stepSegments. simpl. lia.
  - rewrite Hsrt, Hsegs. cbn [imap concat]. unfold block at 1.
    cbn [app introSegment VideoSync.startMs VideoSync.endMs VideoSync.text].
    eexists.
    rewrite !join_lines_cons; [|by apply blocks_some|done..].
    replace (Js.of_int (Z.of_nat 0 + 1)) with "1" by reflexivity.
    replace (formatSrtTime 0 +:+ " --> " +:+ formatSrtTime 2000)
      with "00:00:00,000 --> 00:00:02,000" by reflexivity.
    reflexivity.
  - rewrite Hvtt, Hsegs. cbn [imap concat]. unfold block at 1.
    cbn [app introSegment VideoSync.startMs VideoSync.endMs VideoSync.text].
    eexists.
    rewrite !join_lines_cons; [|by apply blocks_some|done..].
    replace (Js.of_int (Z.of_nat 0 + 1)) with "1" by reflexivity.
    replace (replaceComma (formatSrtTime 0) +:+ " --> "
               +:+ replaceComma (formatSrtTime 2000))
      with "00:00:00.000 --> 00:00:02.000" by reflexivity.
    reflexivity.
Qed.

(** X2: the estimated narration has two entries more than there are
    narrated steps: the intro at 0 for 3000 ms first, and last the outro for
    4000 ms, at 3000 ms plus the duration and the 500 ms pause of every
    narrated step. *)
Theorem estimated_entries_frame (s : DemoSession) :
  let entries := Estimated.generateTimedNarration s in
  length entries = S (S (narratedCount (sess_steps s)))
  /\ head entries = Some (Estimated.mkEntry 0 0 3000 (introText (sess_title s)))
  /\ last entries
     = Some (Estimated.mkEntry (-1) (3000 + clockAdvance (sess_steps s)) 4000
                               (outroText (sess_title s))).
Proof.
  intros entries. unfold entries. rewrite estimated_shape. split_and!.
  - simpl. rewrite length_app, length_estimatedLayout. simpl. lia.
  - done.
  - change (?a :: ?l ++ [?o]) with ((a :: l) ++ [o]). by rewrite last_snoc.
Qed.

Lemma risingFrom_app lo l1 l2 :
  risingFrom lo (l1 ++ l2)
  <-> risingFrom lo l1
      /\ risingFrom (default lo (Estimated.timestamp <$> last l1)) l2.
Proof.
  revert lo. induction l1 as [|e l1 IH]; intros lo; simpl; [tauto|].
  rewrite IH, last_cons. destruct (last l1); simpl; tauto.
Qed.

Lemma risingFrom_lookup l : forall lo (i : nat) a b,
  risingFrom lo l -> l !! i = Some a -> l !! S i = Some b ->
  Estimated.timestamp a + 500 <= Estimated.timestamp b.
Proof.
  induction l as [|e rest IH]; intros lo i a b Hrise Ha Hb; [done|].
  destruct Hrise as [_ Hrest]. destruct i as [|i]; simpl in *.
  - simplify_eq. destruct rest as [|e' rest]; [done|].
    simpl in *. simplify_eq. by destruct Hrest.
  - by apply (IH (Estimated.timestamp e) i).
Qed.

(** The laid out entries rise from the clock, and the clock ends 500 ms
    or more above the last of them. *)
Lemma estimatedLayout_rising steps : forall t lo,
  Forall (fun step => 0 <= step_duration step) steps ->
  lo + 500 <= t ->
  risingFrom lo (estimatedLayout t steps)
  /\ default lo (Estimated.timestamp <$> last (estimatedLayout t steps)) + 500
     <= t + clockAdvance steps.
Proof.
  induction steps as [|step rest IH]; intros t lo Hdur Hlo; simpl.
  - split; [done|]. simpl. lia.
  - apply Forall_cons in Hdur as [Hd Hdur].
    destruct (narrated step); simpl.
    + destruct (IH (t + (step_duration step + 500)) t Hdur) as [Hrise Hlast]; [lia|].
      split; [by split|].
      rewrite last_cons.
      destruct (last (estimatedLayout _ rest)) as [e|]; simpl in *; lia.
    + destruct (IH t lo Hdur Hlo) as [Hrise Hlast]. split; [done|]. lia.
Qed.

(** X3: when no step has a negative duration, the timestamps of the
    estimated narration rise from one entry to the next, each being at
    least 500 ms after the one before. *)
Theorem estimated_timestamps_rise (s : DemoSession) (i : nat)
    (a b : Estimated.TimedEntry) :
  Forall (fun step => 0 <= step_duration step) (sess_steps s) ->
  Estimated.generateTimedNarration s !! i = Some a ->
  Estimated.generateTimedNarration s !! S i = Some b ->
  Estimated.timestamp a + 500 <= Estimated.timestamp b.
Proof.
  intros Hdur. apply (risingFrom_lookup _ (-500)).
  rewrite estimated_shape. simpl. split; [lia|].
  destruct (estimatedLayout_rising (sess_steps s) 3000 0 Hdur) as [Hrise Hlast]; [lia|].
  apply risingFrom_app. split; [done|]. simpl. split; [|done]. exact Hlast.
Qed.

Lemma estimated_timestamps_rise_witness :
  Estimated.timestamp (Estimated.mkEntry 1 3000 2000 "Now, Click the button") + 500
  <= Estimated.timestamp (Estimated.mkEntry 1 3800 2000 "Now, Click the button").
Proof.
  apply (estimated_timestamps_rise
           (Sample.session [Sample.earlyClick; Sample.lateClick]) 1%nat).
  - repeat constructor; simpl; lia.
  - reflexivity.
  - reflexivity.
Defined.

(** ** Narration text *)

Lemma truthy_app_r (a b : string) : Js.truthy b = true -> Js.truthy (a +:+ b) = true.
Proof. destruct a; simpl; [done|]. by intros _. Qed.

Lemma truthy_false (a : string) : Js.truthy a = false <-> a = EmptyString.
Proof. by destruct a. Qed.

(** X4: a step is left out of the narration exactly when its action is
    [screenshot], or its description is empty and its action is one that is
    narrated by the description alone (an unknown action, or a navigate,
    fill or select step without url or value). *)
Theorem narration_empty_iff (step : DemoStep) :
  narrated step = false
  <-> step_action step = "screenshot"
      \/ (step_description step = EmptyString /\ narratesDescription step = true).
Proof.
  unfold narrated, stepToNarration, narratesDescription.
  destruct (String.eqb_spec (step_action step) "navigate") as [Ha|_].
  { rewrite Ha. destruct (Js.truthy_opt (d_url (step_details step))); simpl.
    - split; [done|]. intros [?|[_ ?]]; done.
    - rewrite truthy_false. split; [by right|]. intros [?|[? _]]; done. }
  destruct (String.eqb_spec (step_action step) "click") as [Ha|_].
  { rewrite Ha. simpl. split; [done|]. intros [?|[_ ?]]; done. }
  destruct (String.eqb_spec (step_action step) "fill") as [Ha|_].
  { rewrite Ha. unfold Js.truthy_opt.
    destruct (d_value (step_details step)) as [v|]; [destruct (Js.truthy v) eqn:Hv|];
      simpl.
    - rewrite truthy_app_r by (by apply truthy_app_r).
      split; [done|]. intros [?|[_ ?]]; done.
    - rewrite truthy_false. split; [by right|]. intros [?|[? _]]; done.
    - rewrite truthy_false. split; [by right|]. intros [?|[? _]]; done. }
  destruct (String.eqb_spec (step_action step) "select") as [Ha|_].
  { rewrite Ha. unfold Js.truthy_opt.
    destruct (d_value (step_details step)) as [v|]; [destruct (Js.truthy v) eqn:Hv|];
      simpl.
    - rewrite truthy_app_r by (by apply truthy_app_r).
      split; [done|]. intros [?|[_ ?]]; done.
    - rewrite truthy_false. split; [by right|]. intros [?|[? _]]; done.
    - rewrite truthy_false. split; [by right|]. intros [?|[? _]]; done. }
  destruct (String.eqb_spec (step_action step) "scroll") as [Ha|_].
  { rewrite Ha. simpl. split; [done|]. intros [?|[_ ?]]; done. }
  destruct (String.eqb_spec (step_action step) "wait") as [Ha|_].
  { rewrite Ha. simpl. split; [done|]. intros [?|[_ ?]]; done. }
  destruct (String.eqb_spec (step_action step) "screenshot") as [Ha|Hne].
  { simpl. split; [by left|done]. }
  rewrite truthy_false. split; [by right|]. intros [?|[? _]]; done.
Qed.

Lemma length_app_string (a b : string) :
  String.length (a +:+ b) = (String.length a + String.length b)%nat.
Proof. induction a as [|c a IH]; simpl; [done|]. by rewrite IH. Qed.

Lemma length_substring0 (n : nat) (s : string) :
  (n <= String.length s)%nat -> String.length (Js.substring0 n s) = n.
Proof.
  unfold Js.substring0. revert n. induction s as [|c s IH]; intros n Hn.
  - simpl in Hn. assert (n = O) as -> by lia. done.
  - destruct n as [|n]; simpl; [done|]. f_equal. apply IH. simpl in Hn. lia.
Qed.

Lemma substring0_prefix (n : nat) (s : string) :
  exists rest, s = Js.substring0 n s +:+ rest.
Proof.
  unfold Js.substring0. revert n. induction s as [|c s IH]; intros n.
  - exists EmptyString. by destruct n.
  - destruct n as [|n]; simpl.
    + by exists (String c s).
    + destruct (IH n) as [rest Hrest]. exists rest.
      change (String c (String.substring 0 n s) +:+ rest)
        with (String c (String.substring 0 n s +:+ rest)).
      by rewrite <- Hrest.
Qed.

(** X5: the narration of a fill step is its description when the step has
    no value or an empty one.  Otherwise it is the description followed
    by [. I'll type "<quoted>".], where the quoted text is the value when
    that has at most 20 code units, and its first 20 code units and an
    ellipsis when it is longer: at most 23 code units are quoted, and
    whatever the value, the narration is at most 38 code units longer
    than the description. *)
Theorem fill_narration_bounded (step : DemoStep) :
  step_action step = "fill" ->
  (String.length (stepToNarration step)
   <= String.length (step_description step) + 38)%nat
  /\ (Js.truthy_opt (d_value (step_details step)) = false ->
      stepToNarration step = step_description step)
  /\ (forall v,
        d_value (step_details step) = Some v ->
        Js.truthy v = true ->
        exists quoted,
          stepToNarration step
          = step_description step +:+ ". I'll type " +:+ Js.dquote +:+ quoted
              +:+ Js.dquote +:+ "."
          /\ (String.length quoted <= 23)%nat
          /\ ((String.length v <= 20)%nat -> quoted = v)
          /\ ((20 < String.length v)%nat ->
              exists head rest,
                quoted = head +:+ "..." /\ v = head +:+ rest
                /\ String.length head = 20%nat)).
Proof.
  intros Ha. unfold stepToNarration. rewrite Ha. simpl. split_and!.
  - destruct (d_value (step_details step)) as [v|]; [|lia].
    destruct (Js.truthy v); [|lia].
    rewrite !length_app_string. simpl.
    destruct (Nat.ltb_spec 20 (String.length v)) as [Hlong|Hshort].
    + rewrite length_app_string, length_substring0 by lia. simpl. lia.
    + lia.
  - destruct (d_value (step_details step)) as [v|]; [|done].
    simpl. by intros ->.
  - intros v -> ->. eexists. split; [reflexivity|].
    destruct (Nat.ltb_spec 20 (String.length v)) as [Hlong|Hshort].
    + split_and!.
      * rewrite length_app_string, length_substring0 by lia. simpl. lia.
      * lia.
      * intros _. destruct (substring0_prefix 20 v) as [rest Hrest].
        exists (Js.substring0 20 v), rest.
        split; [done|]. split; [done|]. apply length_substring0. lia.
    + split_and!; [lia|done|lia].
Qed.

Lemma fill_narration_bounded_witness :
  stepToNarration
    (mkStep 2 "fill" "Enter the name" 0 1 None None
       (mkDetails (Some "1") None (Some "a-very-long-example-value-123")
          None None None None None None None None None None None None None)
       Sample.evidence0 true None)
  = "Enter the name. I'll type " +:+ Js.dquote +:+ "a-very-long-example-..."
      +:+ Js.dquote +:+ ".".
Proof.
  destruct (proj2 (proj2 (fill_narration_bounded
              (mkStep 2 "fill" "Enter the name" 0 1 None None
                 (mkDetails (Some "1") None (Some "a-very-long-example-value-123")
                    None None None None None None None None None None None None None)
                 Sample.evidence0 true None) eq_refl))
              "a-very-long-example-value-123" eq_refl eq_refl)
    as (quoted & Hnarration & _ & _ & Hlong).
  destruct Hlong as (head & rest & Hquoted & Hvalue & Hhead); [simpl; lia|].
  assert (head = "a-very-long-example-") as Hfirst.
  { clear Hnarration Hquoted.
    repeat (destruct head as [|? head]; [discriminate Hhead|];
            injection Hvalue as <- Hvalue; simpl in Hhead).
    destruct head; [reflexivity|discriminate Hhead]. }
  rewrite Hnarration, Hquoted, Hfirst. reflexivity.
Defined.

(** ** Step-by-step subtitles *)

Lemma fold_simpleSrt steps : forall cues t index,
  exists added,
    fold_left simpleSrt_body steps (cues, t, index)
    = (cues ++ added, t + elapsedAfter steps,
       index + Z.of_nat (describedCount steps))
    /\ length added = describedCount steps.
Proof.
  induction steps as [|step rest IH]; intros cues t index; simpl.
  - exists []. rewrite app_nil_r, !Z.add_0_r. done.
  - destruct (Js.truthy (step_description step)).
    + destruct (IH (cues ++ [mkCue index t (t + step_duration step + 1000)
                               ("Step " +:+ Js.of_int (step_id step) +:+ ": "
                                  +:+ step_description step)])
                   (t + (step_duration step + 500)) (index + 1))
        as (added & -> & Hlen).
      eexists (_ :: added). rewrite <- app_assoc. simpl.
      split; [|by rewrite Hlen]. f_equal; [f_equal|]; lia.
    + destruct (IH cues (t + (step_duration step + 500)) index)
        as (added & -> & Hlen).
      exists added. split; [|done]. do 2 f_equal. lia.
Qed.

Lemma simpleCues_at (s : DemoSession) (before after : list DemoStep)
    (step : DemoStep) :
  sess_steps s = before ++ step :: after ->
  Js.truthy (step_description step) = true ->
  simpleCues s !! describedCount before
  = Some (mkCue (Z.of_nat (describedCount before) + 1)
                (elapsedAfter before)
                (elapsedAfter before + step_duration step + 1000)
                ("Step " +:+ Js.of_int (step_id step) +:+ ": "
                   +:+ step_description step)).
Proof.
  intros Hsteps Hdesc. unfold simpleCues. rewrite Hsteps, fold_left_app.
  destruct (fold_simpleSrt before [] 0 1) as (cuesBefore & -> & Hlen).
  simpl. rewrite Hdesc.
  match goal with |- context [fold_left _ after (?c, ?t, ?i)] =>
    destruct (fold_simpleSrt after c t i) as (added & -> & _) end.
  simpl. rewrite <- app_assoc.
  rewrite lookup_app_r by lia. rewrite Hlen, Nat.sub_diag. simpl.
  do 2 f_equal. lia.
Qed.

(** X6: in the step-by-step subtitles, a step with a description gets the
    cue numbered by its rank among the described steps; the cue starts at
    the sum, over all the steps before it, of duration plus 500 ms, lasts
    the step's duration plus 1000 ms, and reads [Step <id>: <description>]. *)
Theorem simple_cue_of_step (s : DemoSession) (before after : list DemoStep)
    (step : DemoStep) :
  sess_steps s = before ++ step :: after ->
  Js.truthy (step_description step) = true ->
  exists cue,
    simpleCues s !! describedCount before = Some cue
    /\ cue_index cue = Z.of_nat (describedCount before) + 1
    /\ cue_start cue = elapsedAfter before
    /\ cue_end cue = cue_start cue + step_duration step + 1000
    /\ cue_text cue
       = "Step " +:+ Js.of_int (step_id step) +:+ ": " +:+ step_description step.
Proof.
  intros Hsteps Hdesc. eexists.
  split; [by apply (simpleCues_at s before after step)|]. done.
Qed.

Lemma simple_cue_of_step_witness :
  exists cue,
    simpleCues (Sample.session [Sample.earlyClick; Sample.lateClick]) !! 1%nat
    = Some cue
    /\ cue_index cue = 2
    /\ cue_start cue = 800
    /\ cue_end cue = cue_start cue + 300 + 1000
    /\ cue_text cue = "Step 1: Click the button".
Proof.
  apply (simple_cue_of_step (Sample.session [Sample.earlyClick; Sample.lateClick])
           [Sample.earlyClick] [] Sample.lateClick); reflexivity.
Defined.

(** X7: the cues of two consecutive described steps overlap: the second
    starts 500 ms before the first ends. *)
Theorem simple_cues_overlap (s : DemoSession) (before after : list DemoStep)
    (first second : DemoStep) :
  sess_steps s = before ++ first :: second :: after ->
  Js.truthy (step_description first) = true ->
  Js.truthy (step_description second) = true ->
  exists a b,
    simpleCues s !! describedCount before = Some a
    /\ simpleCues s !! S (describedCount before) = Some b
    /\ cue_start b = cue_end a - 500.
Proof.
  intros Hsteps Hfirst Hsecond.
  pose proof (simpleCues_at s before (second :: after) first Hsteps Hfirst) as Ha.
  assert (sess_steps s = (before ++ [first]) ++ second :: after) as Hsteps'
    by (by rewrite <- app_assoc).
  pose proof (simpleCues_at s (before ++ [first]) after second Hsteps' Hsecond) as Hb.
  assert (describedCount (before ++ [first]) = S (describedCount before)) as Hcount.
  { clear -Hfirst. induction before as [|x l IH]; simpl; [by rewrite Hfirst|].
    rewrite IH. lia. }
  assert (elapsedAfter (before ++ [first])
          = elapsedAfter before + step_duration first + 500) as Helapsed.
  { clear. induction before as [|x l IH]; simpl; [lia|]. rewrite IH. lia. }
  rewrite Hcount in Hb.
  eexists _, _. split; [exact Ha|]. split; [exact Hb|]. simpl. lia.
Qed.

Lemma simple_cues_overlap_witness :
  exists a b,
    simpleCues (Sample.session [Sample.earlyClick; Sample.lateClick]) !! 0%nat
    = Some a
    /\ simpleCues (Sample.session [Sample.earlyClick; Sample.lateClick]) !! 1%nat
       = Some b
    /\ cue_start b = cue_end a - 500.
Proof.
  apply (simple_cues_overlap (Sample.session [Sample.earlyClick; Sample.lateClick])
           [] [] Sample.earlyClick Sample.lateClick); reflexivity.
Defined.

(** ** Time codes *)

Lemma digitOf_digitChar (d : Z) : 0 <= d <= 9 -> digitOf (digitChar d) = Some d.
Proof.
  intros Hd. assert (d = 0 \/ d = 1 \/ d = 2 \/ d = 3 \/ d = 4 \/ d = 5 \/ d = 6
                     \/ d = 7 \/ d = 8 \/ d = 9) as Hcases by lia.
  repeat (destruct Hcases as [->|Hcases]; [reflexivity|]). by subst.
Qed.

Lemma digitChar_plain (d : Z) :
  0 <= d <= 9 ->
  Ascii.eqb (digitChar d) ","%char = false.
Proof.
  intros Hd. assert (d = 0 \/ d = 1 \/ d = 2 \/ d = 3 \/ d = 4 \/ d = 5 \/ d = 6
                     \/ d = 7 \/ d = 8 \/ d = 9) as Hcases by lia.
  repeat (destruct Hcases as [->|Hcases]; [reflexivity|]). by subst.
Qed.

(** Two and three digit fields, checked on every value they can take. *)
Lemma pad2_digits (z : Z) :
  0 <= z < 100 ->
  Js.padStart0 2 (Js.of_int z)
  = String (digitChar (z / 10)) (String (digitChar (z mod 10)) EmptyString).
Proof.
  intros Hz.
  assert (List.forallb
            (fun n : nat =>
               String.eqb (Js.padStart0 2 (Js.of_int (Z.of_nat n)))
                 (String (digitChar (Z.of_nat n / 10))
                    (String (digitChar (Z.of_nat n mod 10)) EmptyString)))
            (seq 0 100) = true) as Hall by (vm_compute; reflexivity).
  rewrite List.forallb_forall in Hall.
  specialize (Hall (Z.to_nat z)). rewrite Z2Nat.id in Hall by lia.
  apply String.eqb_eq, Hall, List.in_seq. lia.
Qed.

Lemma pad3_digits (z : Z) :
  0 <= z < 1000 ->
  Js.padStart0 3 (Js.of_int z)
  = String (digitChar (z / 100))
      (String (digitChar (z / 10 mod 10))
         (String (digitChar (z mod 10)) EmptyString)).
Proof.
  intros Hz.
  assert (List.forallb
            (fun n : nat =>
               String.eqb (Js.padStart0 3 (Js.of_int (Z.of_nat n)))
                 (String (digitChar (Z.of_nat n / 100))
                    (String (digitChar (Z.of_nat n / 10 mod 10))
                       (String (digitChar (Z.of_nat n mod 10)) EmptyString))))
            (seq 0 1000) = true) as Hall by (vm_compute; reflexivity).
  rewrite List.forallb_forall in Hall.
  specialize (Hall (Z.to_nat z)). rewrite Z2Nat.id in Hall by lia.
  apply String.eqb_eq, Hall, List.in_seq. lia.
Qed.

Lemma readTimeCode_digits (sep : ascii) (h1 h0 m1 m0 s1 s0 f2 f1 f0 : Z) :
  0 <= h1 <= 9 -> 0 <= h0 <= 9 -> 0 <= m1 <= 9 -> 0 <= m0 <= 9 ->
  0 <= s1 <= 9 -> 0 <= s0 <= 9 -> 0 <= f2 <= 9 -> 0 <= f1 <= 9 -> 0 <= f0 <= 9 ->
  readTimeCode sep (timeCodeOf sep h1 h0 m1 m0 s1 s0 f2 f1 f0)
  = Some ((10 * h1 + h0) * 3600000 + (10 * m1 + m0) * 60000
          + (10 * s1 + s0) * 1000 + (100 * f2 + 10 * f1 + f0)).
Proof.
  intros. unfold readTimeCode, timeCodeOf.
  cbn [Ascii.eqb Bool.eqb andb].
  rewrite !digitOf_digitChar by done. by rewrite Ascii.eqb_refl.
Qed.

Lemma replaceComma_digits (h1 h0 m1 m0 s1 s0 f2 f1 f0 : Z) :
  0 <= h1 <= 9 -> 0 <= h0 <= 9 -> 0 <= m1 <= 9 -> 0 <= m0 <= 9 ->
  0 <= s1 <= 9 -> 0 <= s0 <= 9 ->
  replaceComma (timeCodeOf ","%char h1 h0 m1 m0 s1 s0 f2 f1 f0)
  = timeCodeOf "."%char h1 h0 m1 m0 s1 s0 f2 f1 f0.
Proof.
  intros. unfold timeCodeOf. cbn [replaceComma].
  rewrite !digitChar_plain by done. cbn [Ascii.eqb Bool.eqb]. reflexivity.
Qed.

Lemma formatSrtTime_digits (ms : Z) :
  0 <= ms < 360000000 ->
  exists h1 h0 m1 m0 s1 s0 f2 f1 f0 : Z,
    formatSrtTime ms = timeCodeOf ","%char h1 h0 m1 m0 s1 s0 f2 f1 f0
    /\ (0 <= h1 <= 9 /\ 0 <= h0 <= 9 /\ 0 <= m1 <= 9 /\ 0 <= m0 <= 9
        /\ 0 <= s1 <= 9 /\ 0 <= s0 <= 9 /\ 0 <= f2 <= 9 /\ 0 <= f1 <= 9
        /\ 0 <= f0 <= 9)
    /\ ms = (10 * h1 + h0) * 3600000 + (10 * m1 + m0) * 60000
            + (10 * s1 + s0) * 1000 + (100 * f2 + 10 * f1 + f0).
Proof.
  intros Hms.
  pose proof (srtTimeFields_sound ms (proj1 Hms)) as Hfields.
  unfold formatSrtTime.
  destruct (srtTimeFields ms) as [[[h m] s] f].
  destruct Hfields as (Hsum & Hh & Hm & Hs & Hf).
  assert (h < 100) as Hh' by lia.
  rewrite !pad2_digits, pad3_digits by lia.
  assert (forall z, 0 <= z < 100 -> 0 <= z / 10 <= 9) as Hdiv.
  { intros z Hz. split; [apply Z.div_pos; lia|].
    assert (z / 10 < 10) by (apply Z.div_lt_upper_bound; lia). lia. }
  assert (forall z, 0 <= z mod 10 <= 9) as Hmod.
  { intros z. pose proof (Z.mod_pos_bound z 10). lia. }
  assert (0 <= f / 100 <= 9) as Hf2.
  { split; [apply Z.div_pos; lia|].
    assert (f / 100 < 10) by (apply Z.div_lt_upper_bound; lia). lia. }
  assert (f = 100 * (f / 100) + 10 * (f / 10 mod 10) + f mod 10) as Hfdigits.
  { pose proof (Z.div_mod f 10). pose proof (Z.div_mod (f / 10) 10).
    assert (f / 10 / 10 = f / 100) as E by (rewrite Z.div_div by lia; reflexivity). lia. }
  pose proof (Z.div_mod h 10). pose proof (Z.div_mod m 10).
  pose proof (Z.div_mod s 10).
  exists (h / 10), (h mod 10), (m / 10), (m mod 10), (s / 10), (s mod 10),
         (f / 100), (f / 10 mod 10), (f mod 10).
  split; [reflexivity|]. split.
  - split_and!; try apply Hmod; try apply Hdiv; try lia.
  - lia.
Qed.

(** X8: below one hundred hours, the time code [formatSrtTime] prints is
    [HH:MM:SS,mmm] and reads back as the milliseconds it was given; the
    VTT encoder's variant is the same with a dot and reads back alike. *)
Theorem time_code_reads_back (ms : Z) :
  0 <= ms < 360000000 ->
  readTimeCode ","%char (formatSrtTime ms) = Some ms
  /\ readTimeCode "."%char (replaceComma (formatSrtTime ms)) = Some ms.
Proof.
  intros Hms.
  destruct (formatSrtTime_digits ms Hms)
    as (h1 & h0 & m1 & m0 & s1 & s0 & f2 & f1 & f0 & -> & Hd & ->).
  destruct Hd as (? & ? & ? & ? & ? & ? & ? & ? & ?).
  split.
  - by apply readTimeCode_digits.
  - rewrite replaceComma_digits by done. by apply readTimeCode_digits.
Qed.

Lemma time_code_reads_back_witness :
  readTimeCode ","%char (formatSrtTime 3723004) = Some 3723004
  /\ readTimeCode "."%char (replaceComma (formatSrtTime 3723004)) = Some 3723004.
Proof. apply (time_code_reads_back 3723004). lia. Defined.
(** ** The session store *)

Lemma bind_Throw_inv {St A B} (c : Eff St A) (k : A -> Eff St B) w e w' :
  bind c k w = (Throw e, w') ->
  c w = (Throw e, w')
  \/ exists a w1, c w = (Ok a, w1) /\ k a w1 = (Throw e, w').
Proof.
  unfold bind. destruct (c w) as [[a|e1] w1]; [right; eauto|].
  intros [= <- <-]. by left.
Qed.

Lemma sorted_NoDup (l : list Z) : StronglySorted Z.lt l -> NoDup l.
Proof.
  induction 1 as [|a l Hs IH Hall]; constructor; [|done].
  intros Hin. rewrite Forall_forall in Hall. specialize (Hall a Hin). lia.
Qed.

Lemma length_substring0_le (n : nat) (s : string) :
  (String.length (Js.substring0 n s) <= n)%nat.
Proof.
  unfold Js.substring0. revert n. induction s as [|c s IH]; intros n.
  - destruct n; simpl; lia.
  - destruct n as [|n]; simpl; [lia|]. specialize (IH n). lia.
Qed.

Section SessionProps.
Context {Ext : Type} `{Driver Ext}.

Lemma endSession_run (w : World Ext) (s : DemoSession) :
  currentSession w = Some s ->
  endSession w
  = match closeBrowser (set_status completed s) (ext w) with
    | (Ok _, x) =>
        (Ok (Some (set_pages [] (set_handles None None None (set_status completed s)))),
         mkWorld None (clock w) (ticks w) x)
    | (Throw e, x) =>
        (Throw e, mkWorld (Some (set_status completed s)) (clock w) (ticks w) x)
    end.
Proof.
  intros Hcur. unfold endSession, bind, getSession, set_session, lift, ret.
  rewrite Hcur. simpl. by destruct (closeBrowser _ _) as [[[]|e] x].
Qed.

Lemma requireSession_none (w : World Ext) :
  currentSession w = None -> requireSession w = (Throw noSession, w).
Proof. intros Hcur. unfold requireSession, getSession, bind. by rewrite Hcur. Qed.

(** X9: ending the session marks it completed, closes the browser, drops
    the handles and the tabs, keeps the log and clears the current
    session; ending again answers null, and the store then rejects every
    request for a session. *)
Theorem endSession_ends_once (w : World Ext) (s : DemoSession) (x : Ext) :
  currentSession w = Some s ->
  closeBrowser (set_status completed s) (ext w) = (Ok tt, x) ->
  exists ended w',
    endSession w = (Ok (Some ended), w')
    /\ ext w' = x
    /\ currentSession w' = None
    /\ sess_status ended = completed
    /\ sess_steps ended = sess_steps s
    /\ sess_options ended = sess_options s
    /\ (sess_browser ended, sess_context ended, sess_page ended) = (None, None, None)
    /\ sess_pages ended = []
    /\ endSession w' = (Ok None, w')
    /\ requireSession w' = (Throw noSession, w').
Proof.
  intros Hcur Hclose. eexists _, _.
  split; [by rewrite (endSession_run w s Hcur), Hclose|].
  split_and!; try done.
Qed.

(** X10: when closing the browser throws, [endSession] throws the same
    error after it has marked the session completed and before it clears
    anything: the session stays current with its handles, its tabs and
    its log, so that the store still hands it out. *)
Theorem endSession_close_failure (w : World Ext) (s : DemoSession) (e : Exn)
    (x : Ext) :
  currentSession w = Some s ->
  closeBrowser (set_status completed s) (ext w) = (Throw e, x) ->
  exists w',
    endSession w = (Throw e, w')
    /\ currentSession w' = Some (set_status completed s)
    /\ (is_Some (sess_page s) ->
        requireSession w' = (Ok (set_status completed s), w')).
Proof.
  intros Hcur Hclose. eexists. split; [by rewrite (endSession_run w s Hcur), Hclose|].
  split; [done|]. intros [page Hpage].
  unfold requireSession, getSession, bind. simpl. by rewrite Hpage.
Qed.

Lemma lift_session {A} (op : Ext -> result A * Ext) (w w' : World Ext) r :
  lift op w = (r, w') -> currentSession w' = currentSession w.
Proof. unfold lift. destruct (op (ext w)). by intros [= <- <-]. Qed.

Lemma startSession_inv (input : StartSessionInput) (w w' : World Ext) s :
  startSession input w = (Ok s, w') ->
  currentSession w' = Some s
  /\ exists uuid startedAt videoStartTime browser context page,
       s = mkSession (Js.substring0 8 uuid) (in_title input) (in_url input)
             startedAt running
             (mkOptions (default true (in_video input))
                (default true (in_trace input))
                (default true (in_screenshotOnStep input))
                (default (Js.path_join3 os_tmpdir "demosmith"
                                       (Js.substring0 8 uuid))
                         (in_outputDir input))
                (in_storageState input)
                (default false (in_headless input))
                (default (1280, 720) (in_viewport input)))
             [] (Some videoStartTime) (Some browser) (Some context)
             (Some page) [(0, page)] 0 1.
Proof.
  unfold startSession. intros Hrun.
  apply bind_Ok_inv in Hrun as (cur & w1 & _ & Hrun).
  apply bind_Ok_inv in Hrun as (? & w2 & _ & Hrun).
  apply bind_Ok_inv in Hrun as (uuid & w3 & _ & Hrun).
  apply bind_Ok_inv in Hrun as (startedAt & w4 & _ & Hrun).
  apply bind_Ok_inv in Hrun as (videoStartTime & w5 & _ & Hrun).
  apply bind_Ok_inv in Hrun as ([[browser context] page] & w6 & _ & Hrun).
  apply bind_Ok_inv in Hrun as (? & w7 & _ & Hrun).
  apply bind_Ok_inv in Hrun as (? & w8 & Hset & Hrun).
  unfold ret in Hrun. unfold set_session in Hset. simplify_eq. simpl.
  split; [done|]. by eexists _, _, _, _, _, _.
Qed.

(** X11: a session that [startSession] returns is the current one; it is
    running with an empty log, one tab of id 0 that is the active tab and
    holds the session page, and 1 as the next id; the options left out
    take their defaults, the output directory being
    [<tmpdir>/demosmith/<session id>]. *)
Theorem startSession_fresh (input : StartSessionInput) (w w' : World Ext)
    (s : DemoSession) :
  startSession input w = (Ok s, w') ->
  currentSession w' = Some s
  /\ registryOk w'
  /\ sess_status s = running
  /\ sess_steps s = []
  /\ (exists page, sess_pages s = [(0, page)] /\ sess_page s = Some page)
  /\ sess_activePageId s = 0
  /\ sess_nextPageId s = 1
  /\ (String.length (sess_id s) <= 8)%nat
  /\ (in_outputDir input = None ->
      opt_outputDir (sess_options s)
      = Js.path_join3 os_tmpdir "demosmith" (sess_id s))
  /\ (in_video input = None -> opt_video (sess_options s) = true)
  /\ (in_trace input = None -> opt_trace (sess_options s) = true)
  /\ (in_screenshotOnStep input = None ->
      opt_screenshotOnStep (sess_options s) = true)
  /\ (in_headless input = None -> opt_headless (sess_options s) = false).
Proof.
  intros Hrun.
  destruct (startSession_establishes input w w' s Hrun) as (Hok & _).
  destruct (startSession_inv input w w' s Hrun)
    as (Hcur & uuid & startedAt & vst & browser & context & page & ->).
  simpl. split_and!; try done; try (by intros ->).
  - by exists page.
  - apply length_substring0_le.
Qed.

(** X12: when [startSession] throws, no running session is left behind:
    either no session is current, or the session that was current could
    not be closed and is still current, marked completed.  The session
    being started is never registered. *)
Theorem startSession_failure (input : StartSessionInput) (w w' : World Ext)
    (e : Exn) :
  startSession input w = (Throw e, w') ->
  currentSession w' = None
  \/ exists s, currentSession w = Some s
               /\ currentSession w' = Some (set_status completed s).
Proof.
  unfold startSession. intros Hrun.
  apply bind_Throw_inv in Hrun as [Hrun|(cur & w1 & Hget & Hrun)];
    [discriminate Hrun|].
  unfold getSession in Hget. injection Hget as <- <-.
  apply bind_Throw_inv in Hrun as [Hend|(ended & w2 & Hend & Hrun)].
  - destruct (currentSession w) as [s|] eqn:Hcur; [|discriminate Hend].
    right. exists s. split; [done|].
    rewrite (endSession_run w s Hcur) in Hend.
    destruct (closeBrowser _ _) as [[[]|e'] x]; [discriminate Hend|].
    by injection Hend as <- <-.
  - left.
    assert (currentSession w2 = None) as Hnone.
    { destruct (currentSession w) as [s|] eqn:Hcur.
      - rewrite (endSession_run w s Hcur) in Hend.
        destruct (closeBrowser _ _) as [[[]|e'] x]; [|discriminate Hend].
        by injection Hend as _ <-.
      - unfold ret in Hend. injection Hend as _ <-. done. }
    clear Hend.
    apply bind_Throw_inv in Hrun as [Hrun|(uuid & w3 & Hstep & Hrun)].
    { apply lift_session in Hrun. congruence. }
    apply lift_session in Hstep.
    apply bind_Throw_inv in Hrun as [Hrun|(startedAt & w4 & Hnow1 & Hrun)];
      [discriminate Hrun|].
    apply bind_Throw_inv in Hrun as [Hrun|(vst & w5 & Hnow2 & Hrun)];
      [discriminate Hrun|].
    unfold Date_now in Hnow1, Hnow2.
    injection Hnow1 as _ <-. injection Hnow2 as _ <-. simpl in Hrun.
    apply bind_Throw_inv in Hrun as [Hrun|([[browser context] page] & w6 & Hlaunch & Hrun)].
    { apply lift_session in Hrun. simpl in Hrun. congruence. }
    apply lift_session in Hlaunch. simpl in Hlaunch.
    apply bind_Throw_inv in Hrun as [Hrun|(? & w7 & Hgoto & Hrun)].
    { apply lift_session in Hrun. congruence. }
    apply bind_Throw_inv in Hrun as [Hrun|(? & w8 & _ & Hrun)];
      discriminate Hrun.
Qed.

(** X13: from the start of a session on, along every sequence of tab
    operations, whichever of them return or throw, a session is current,
    the active id names a live tab whose page is the session page, no id
    occurs twice and every id lies below the next one to hand out. *)
Theorem registry_sound_after_calls (input : StartSessionInput)
    (w w0 : World Ext) (s0 : DemoSession) (calls : list RegistryCall) :
  startSession input w = (Ok s0, w0) ->
  exists s page,
    currentSession (performAll calls w0) = Some s
    /\ sess_page s = Some page
    /\ JsMap.get (sess_activePageId s) (sess_pages s) = Some page
    /\ sess_activePageId s ∈ JsMap.keys (sess_pages s)
    /\ NoDup (JsMap.keys (sess_pages s))
    /\ Forall (fun k => k < sess_nextPageId s) (JsMap.keys (sess_pages s)).
Proof.
  intros Hrun.
  destruct (startSession_establishes input w w0 s0 Hrun) as (Hok & _).
  destruct (registry_invariant calls w0 Hok)
    as (s & [Hcur [page Hpage]] & [Hsorted Hbound] & Hactive).
  rewrite Hpage in Hactive.
  exists s, page. split_and!; try done.
  - by apply get_elem_of in Hactive.
  - by apply sorted_NoDup.
Qed.

(** X14: [newTab] hands out the next id, which no live tab has, puts the
    new tab last, and leaves the active tab and the session page as they
    were; the tab is registered before the navigation, so that it stays
    registered when the navigation throws. *)
Theorem newTab_allocates (url : option string) (w : World Ext) (s : DemoSession)
    (context : BrowserContext) (page : Page) (x : Ext) :
  activeIn w s ->
  sess_context s = Some context ->
  context_newPage context (ext w) = (Ok page, x) ->
  Forall (fun k => k < sess_nextPageId s) (JsMap.keys (sess_pages s)) ->
  exists r w' s',
    newTab url w = (r, w')
    /\ currentSession w' = Some s'
    /\ (sess_nextPageId s ∉ JsMap.keys (sess_pages s))
    /\ sess_pages s' = sess_pages s ++ [(sess_nextPageId s, page)]
    /\ sess_nextPageId s' = sess_nextPageId s + 1
    /\ sess_activePageId s' = sess_activePageId s
    /\ sess_page s' = sess_page s
    /\ sess_steps s' = sess_steps s
    /\ (r = Ok (sess_nextPageId s, page)
        \/ exists u e, url = Some u /\ Js.truthy u = true
                       /\ (page_goto page u x).1 = Throw e /\ r = Throw e).
Proof.
  intros Hact Hctx Hnew Hbound.
  assert (sess_nextPageId s ∉ JsMap.keys (sess_pages s)) as Hfresh.
  { intros Hin. rewrite Forall_forall in Hbound. specialize (Hbound _ Hin). lia. }
  unfold newTab, bind at 1.
  rewrite (requireSession_active w s Hact), Hctx.
  unfold bind at 1, lift. rewrite Hnew.
  unfold bind at 1, set_session. cbv beta iota. simpl.
  rewrite (set_fresh _ _ _ Hfresh).
  set (s1 := set_pages _ _).
  assert (forall (c : M Ext unit) r' w',
            c (mkWorld (Some s1) (clock w) (ticks w) x) = (r', w') ->
            currentSession w' = Some s1 ->
            (r' = Ok tt
             \/ exists u e, url = Some u /\ Js.truthy u = true
                            /\ (page_goto page u x).1 = Throw e /\ r' = Throw e) ->
            exists r w' s',
              bind c (fun _ => ret (sess_nextPageId s, page))
                   (mkWorld (Some s1) (clock w) (ticks w) x) = (r, w')
              /\ currentSession w' = Some s'
              /\ (sess_nextPageId s ∉ JsMap.keys (sess_pages s))
              /\ sess_pages s' = sess_pages s ++ [(sess_nextPageId s, page)]
              /\ sess_nextPageId s' = sess_nextPageId s + 1
              /\ sess_activePageId s' = sess_activePageId s
              /\ sess_page s' = sess_page s
              /\ sess_steps s' = sess_steps s
              /\ (r = Ok (sess_nextPageId s, page)
                  \/ exists u e, url = Some u /\ Js.truthy u = true
                                 /\ (page_goto page u x).1 = Throw e /\ r = Throw e))
    as Hgo.
  { intros c r' w' Hc Hcur' Hr. unfold bind. rewrite Hc.
    destruct Hr as [->|(u & e & Hu & Ht & Hg & ->)].
    - eexists _, _, s1. split; [reflexivity|]. unfold s1.
      destruct s; simpl in *. split_and!; try done. by left.
    - eexists _, _, s1. split; [reflexivity|]. unfold s1.
      destruct s; simpl in *. split_and!; try done. right. by exists u, e. }
  destruct url as [u|]; [destruct (Js.truthy u) eqn:Htruthy|].
  - unfold lift. destruct (page_goto page u x) as [[[]|e] x'] eqn:Hgoto.
    + eapply Hgo; [simpl; by rewrite Hgoto|done|by left].
    + eapply Hgo; [simpl; by rewrite Hgoto|done|].
      right. exists u, e. by rewrite Hgoto.
  - eapply Hgo; [reflexivity|done|by left].
  - eapply Hgo; [reflexivity|done|by left].
Qed.

(** X15: [switchTab] with an id that is not registered throws the
    not-found error and changes nothing; with a registered id it makes
    that tab the active one before it raises the tab, so that the pointer
    has moved also when raising the tab throws. *)
Theorem switchTab_outcomes (w : World Ext) (s : DemoSession) (pageId : Z) :
  activeIn w s ->
  match JsMap.get pageId (sess_pages s) with
  | None => switchTab pageId w = (Throw (tabNotFound (Js.of_int pageId)), w)
  | Some page =>
      switchTab pageId w
      = (match (page_bringToFront page (ext w)).1 with
         | Ok _ => Ok page
         | Throw e => Throw e
         end,
         mkWorld (Some (set_active pageId page s)) (clock w) (ticks w)
                 (page_bringToFront page (ext w)).2)
  end.
Proof.
  intros Hact.
  destruct (JsMap.get pageId (sess_pages s)) as [page|] eqn:Hget;
    unfold switchTab, bind at 1;
    rewrite (requireSession_active w s Hact), Hget; [|reflexivity].
  unfold bind, set_session, lift. simpl.
  by destruct (page_bringToFront page (ext w)) as [[[]|e] x].
Qed.

(** X16: [closeTab] with an id that is not registered throws the
    not-found error and changes nothing; when closing the page throws,
    the error reaches the caller and the tab stays registered. *)
Theorem closeTab_rejections (w : World Ext) (s : DemoSession) (pageId : Z) :
  activeIn w s ->
  match JsMap.get pageId (sess_pages s) with
  | None => closeTab pageId w = (Throw (tabNotFound (Js.of_int pageId)), w)
  | Some page =>
      forall e x,
        JsMap.size (sess_pages s) <> 1 ->
        page_close page (ext w) = (Throw e, x) ->
        closeTab pageId w = (Throw e, mkWorld (Some s) (clock w) (ticks w) x)
  end.
Proof.
  intros Hact. pose proof Hact as [Hcur _].
  destruct (JsMap.get pageId (sess_pages s)) as [page|] eqn:Hget.
  2:{ unfold closeTab, bind at 1.
      by rewrite (requireSession_active w s Hact), Hget. }
  intros e x Hsize Hclose. unfold closeTab, bind at 1.
  rewrite (requireSession_active w s Hact), Hget.
  destruct (Z.eqb_spec (JsMap.size (sess_pages s)) 1); [done|].
  unfold bind at 1, lift. by rewrite Hclose, Hcur.
Qed.

(** X17: a tab that is not the active one can always be closed: another
    tab remains.  Closing it removes that id and no other, and leaves the
    active tab, the session page and the log as they were. *)
Theorem closeTab_other_keeps_active (w : World Ext) (s : DemoSession)
    (pageId : Z) (page : Page) (x : Ext) :
  activeIn w s ->
  registry_wf s ->
  JsMap.get (sess_activePageId s) (sess_pages s) = sess_page s ->
  JsMap.get pageId (sess_pages s) = Some page ->
  sess_activePageId s <> pageId ->
  page_close page (ext w) = (Ok tt, x) ->
  1 < JsMap.size (sess_pages s)
  /\ exists w' s',
    closeTab pageId w = (Ok tt, w')
    /\ currentSession w' = Some s'
    /\ (forall k, k ∈ JsMap.keys (sess_pages s')
                  <-> k ∈ JsMap.keys (sess_pages s) /\ k <> pageId)
    /\ JsMap.get pageId (sess_pages s') = None
    /\ sess_activePageId s' = sess_activePageId s
    /\ sess_page s' = sess_page s
    /\ JsMap.get (sess_activePageId s') (sess_pages s') = sess_page s'
    /\ sess_steps s' = sess_steps s.
Proof.
  intros Hact [Hsorted _] Hactive Hget Hother Hclose.
  assert (1 < JsMap.size (sess_pages s)) as Hsize.
  { destruct Hact as [_ [p Hp]]. rewrite Hp in Hactive.
    unfold JsMap.size.
    destruct (sess_pages s) as [|[k0 v0] [|? ?]]; simpl in *; try lia; try done.
    destruct (Z.eqb_spec k0 pageId); [|done].
    destruct (Z.eqb_spec k0 (sess_activePageId s)); [|done]. congruence. }
  split; [done|].
  assert (JsMap.size (sess_pages s) <> 1) as Hne by lia.
  rewrite (closeTab_other_run w s pageId page x Hact Hget Hne Hother Hclose).
  eexists _, _. split; [reflexivity|]. split; [reflexivity|].
  replace (sess_pages (set_pages _ _)) with (JsMap.delete pageId (sess_pages s))
    by (by destruct s).
  replace (sess_activePageId (set_pages _ _)) with (sess_activePageId s)
    by (by destruct s).
  replace (sess_page (set_pages _ _)) with (sess_page s) by (by destruct s).
  replace (sess_steps (set_pages _ _)) with (sess_steps s) by (by destruct s).
  split_and!; try done.
  - intros k. by apply elem_of_keys_delete.
  - destruct (JsMap.get pageId (JsMap.delete pageId (sess_pages s))) eqn:Hgone;
      [|done].
    apply get_elem_of in Hgone.
    apply (elem_of_keys_delete _ _ _ Hsorted) in Hgone as [_ Hgone]. done.
  - by rewrite get_delete_ne.
Qed.

End SessionProps.

Lemma endSession_ends_once_witness :
  let s := SampleWorld.session [Sample.earlyClick] [(0, 3%nat)] 0 3%nat 1 in
  exists ended w',
    endSession (SampleWorld.world s) = (Ok (Some ended), w')
    /\ ext w' = ["closeBrowser"]
    /\ currentSession w' = None
    /\ sess_status ended = completed
    /\ sess_steps ended = [Sample.earlyClick]
    /\ sess_options ended = Sample.options
    /\ (sess_browser ended, sess_context ended, sess_page ended) = (None, None, None)
    /\ sess_pages ended = []
    /\ endSession w' = (Ok None, w')
    /\ requireSession w' = (Throw noSession, w').
Proof.
  intros s.
  apply (endSession_ends_once (SampleWorld.world s) s ["closeBrowser"]);
    reflexivity.
Defined.

Lemma endSession_close_failure_witness :
  let s := SampleWorld.session [Sample.earlyClick] [(0, 3%nat)] 0 3%nat 1 in
  exists w',
    @endSession unit ClosedBrowser.driver (ClosedBrowser.world (Some s))
    = (Throw (JsError "Target page, context or browser has been closed"), w')
    /\ currentSession w' = Some (set_status completed s)
    /\ (is_Some (sess_page s) ->
        requireSession w'
        = (Ok (set_status completed s), w')).
Proof.
  intros s.
  apply (endSession_close_failure (H := ClosedBrowser.driver)
           (ClosedBrowser.world (Some s)) s _ tt);
    reflexivity.
Defined.

Lemma startSession_fresh_witness :
  let s := SampleStart.started in
  let w' := SampleStart.busy in
  startSession SampleStart.input SampleStart.idle = (Ok s, w')
  /\ currentSession w' = Some s
  /\ registryOk w'
  /\ sess_status s = running
  /\ sess_steps s = []
  /\ (exists page, sess_pages s = [(0, page)] /\ sess_page s = Some page)
  /\ sess_activePageId s = 0
  /\ sess_nextPageId s = 1
  /\ (String.length (sess_id s) <= 8)%nat
  /\ (in_outputDir SampleStart.input = None ->
      opt_outputDir (sess_options s) = "/tmp/demosmith/0f8fad5b")
  /\ (in_video SampleStart.input = None -> opt_video (sess_options s) = true)
  /\ (in_trace SampleStart.input = None -> opt_trace (sess_options s) = true)
  /\ (in_screenshotOnStep SampleStart.input = None ->
      opt_screenshotOnStep (sess_options s) = true)
  /\ (in_headless SampleStart.input = None ->
      opt_headless (sess_options s) = false).
Proof.
  intros s w'. split; [reflexivity|].
  exact (startSession_fresh SampleStart.input SampleStart.idle w' s eq_refl).
Defined.

Lemma startSession_failure_witness :
  let e := JsError "Target page, context or browser has been closed" in
  let w' := mkWorld None (clock (ClosedBrowser.world None)) 2 tt in
  @startSession unit ClosedBrowser.driver SampleStart.input
    (ClosedBrowser.world None) = (Throw e, w')
  /\ (currentSession w' = None
      \/ exists s, currentSession (ClosedBrowser.world None) = Some s
                   /\ currentSession w' = Some (set_status completed s)).
Proof.
  intros e w'. split; [reflexivity|].
  apply (startSession_failure (H := ClosedBrowser.driver) SampleStart.input
           (ClosedBrowser.world None) w' e).
  reflexivity.
Defined.

Lemma registry_sound_after_calls_witness :
  startSession SampleStart.input SampleStart.idle
  = (Ok SampleStart.started, SampleStart.busy)
  /\ exists s page,
       currentSession (performAll SampleStart.calls SampleStart.busy) = Some s
       /\ sess_page s = Some page
       /\ JsMap.get (sess_activePageId s) (sess_pages s) = Some page
       /\ sess_activePageId s ∈ JsMap.keys (sess_pages s)
       /\ NoDup (JsMap.keys (sess_pages s))
       /\ Forall (fun k => k < sess_nextPageId s) (JsMap.keys (sess_pages s)).
Proof.
  split; [reflexivity|].
  apply (registry_sound_after_calls SampleStart.input SampleStart.idle
           SampleStart.busy SampleStart.started).
  reflexivity.
Defined.

Lemma newTab_allocates_witness :
  let s := SampleWorld.session [] [(0, 3%nat)] 0 3%nat 1 in
  exists r w' s',
    newTab (Some "https://example.test/docs") (SampleWorld.world s) = (r, w')
    /\ currentSession w' = Some s'
    /\ (1 ∉ JsMap.keys (sess_pages s))
    /\ sess_pages s' = [(0, 3%nat); (1, 0%nat)]
    /\ sess_nextPageId s' = 2
    /\ sess_activePageId s' = 0
    /\ sess_page s' = Some 3%nat
    /\ sess_steps s' = []
    /\ (r = Ok (1, 0%nat)
        \/ exists u e, Some "https://example.test/docs" = Some u
                       /\ Js.truthy u = true
                       /\ (page_goto 0%nat u ["newPage"]).1 = Throw e
                       /\ r = Throw e).
Proof.
  intros s.
  apply (newTab_allocates (Some "https://example.test/docs")
           (SampleWorld.world s) s 2%nat 0%nat ["newPage"]).
  - split; [reflexivity|]. eexists. reflexivity.
  - reflexivity.
  - reflexivity.
  - simpl. repeat constructor.
Defined.

Lemma switchTab_outcomes_witness :
  let s := SampleWorld.session [] [(0, 3%nat); (1, 4%nat)] 0 3%nat 2 in
  switchTab 5 (SampleWorld.world s)
  = (Throw (JsError "Tab with id 5 not found"), SampleWorld.world s).
Proof.
  intros s.
  apply (switchTab_outcomes (SampleWorld.world s) s 5).
  split; [reflexivity|]. eexists. reflexivity.
Defined.

Lemma closeTab_rejections_witness :
  let s := SampleWorld.session [] [(0, 3%nat); (1, 4%nat)] 0 3%nat 2 in
  @closeTab unit ClosedBrowser.driver 1 (ClosedBrowser.world (Some s))
  = (Throw (JsError "Target page, context or browser has been closed"),
     ClosedBrowser.world (Some s)).
Proof.
  intros s.
  apply (closeTab_rejections (H := ClosedBrowser.driver)
           (ClosedBrowser.world (Some s)) s 1).
  - split; [reflexivity|]. eexists. reflexivity.
  - unfold JsMap.size. simpl. lia.
  - reflexivity.
Defined.

Lemma closeTab_other_keeps_active_witness :
  let s := SampleWorld.session [Sample.earlyClick]
             [(0, 3%nat); (1, 4%nat); (2, 5%nat)] 0 3%nat 3 in
  1 < JsMap.size (sess_pages s)
  /\ exists w' s',
    closeTab 2 (SampleWorld.world s) = (Ok tt, w')
    /\ currentSession w' = Some s'
    /\ (forall k, k ∈ JsMap.keys (sess_pages s')
                  <-> k ∈ JsMap.keys (sess_pages s) /\ k <> 2)
    /\ JsMap.get 2 (sess_pages s') = None
    /\ sess_activePageId s' = 0
    /\ sess_page s' = Some 3%nat
    /\ JsMap.get (sess_activePageId s') (sess_pages s') = sess_page s'
    /\ sess_steps s' = [Sample.earlyClick].
Proof.
  intros s.
  apply (closeTab_other_keeps_active (SampleWorld.world s) s 2 5%nat ["close"]).
  - split; [reflexivity|]. eexists. reflexivity.
  - split; simpl; repeat constructor; lia.
  - reflexivity.
  - reflexivity.
  - done.
  - reflexivity.
Defined.

(** ** The tools *)

Section ToolProps.
Context {Ext : Type} `{Driver Ext}.
Variable page_url : Page -> Ext -> string.
Variable page_title : Page -> Ext -> result string * Ext.

(** X18: without a current session, the store operations and the tools
    built on them throw the no-session error before they do anything: the
    process state, driver included, is as it was and no callback has run.
    The status tool and [endSession] answer instead of throwing. *)
Theorem no_session_rejected (w : World Ext) :
  currentSession w = None ->
  (forall p, addStep p w = (Throw noSession, w))
  /\ (forall url, newTab url w = (Throw noSession, w))
  /\ (forall pageId, switchTab pageId w = (Throw noSession, w))
  /\ (forall pageId, closeTab pageId w = (Throw noSession, w))
  /\ (forall T options (fn : M Ext T),
        executeWithEvidence options fn w = (Throw noSession, w))
  /\ (forall name, takeScreenshot name w = (Throw noSession, w))
  /\ (forall input, screenshot input w = (Throw noSession, w))
  /\ (forall input, scroll input w = (Throw noSession, w))
  /\ (forall url description, navigate url description w = (Throw noSession, w))
  /\ (forall url description, newTabTool url description w = (Throw noSession, w))
  /\ (forall pageId description,
        switchTabTool page_url pageId description w = (Throw noSession, w))
  /\ (forall pageId description,
        closeTabTool pageId description w = (Throw noSession, w))
  /\ listTabs page_url w = (Throw noSession, w)
  /\ listTabsTool page_url page_title w = (Throw noSession, w)
  /\ status page_url w
     = (Ok (StatusInactive "No active demo session. Use demosmith_start to begin."), w)
  /\ endSession w = (Ok None, w).
Proof.
  intros Hcur. pose proof (requireSession_none w Hcur) as Hreq.
  split_and!; intros;
    try (unfold addStep, newTab, switchTab, closeTab, executeWithEvidence,
           takeScreenshot, screenshot, scroll, navigate, newTabTool,
           switchTabTool, closeTabTool, listTabs, listTabsTool, listTabsAsync;
         unfold bind at 1; try unfold bind at 1; by rewrite Hreq).
  - unfold status, bind, getSession. by rewrite Hcur.
  - unfold endSession, bind, getSession. by rewrite Hcur.
Qed.

Lemma listEntries_run (active : Z) (entries : list (Z * Page)) :
  forall (w w' : World Ext) tabs,
    listEntries page_url page_title active entries w = (Ok tabs, w') ->
    map tab_pageId tabs = map fst entries
    /\ Forall (fun t => tab_isActive t = (tab_pageId t =? active)) tabs
    /\ currentSession w' = currentSession w.
Proof.
  induction entries as [|[pageId page] rest IH]; intros w w' tabs; simpl.
  - unfold ret. intros [= <- <-]. split_and!; [done|constructor|done].
  - intros Hrun.
    apply bind_Ok_inv in Hrun as (url & w1 & Hurl & Hrun).
    apply bind_Ok_inv in Hrun as (title & w2 & Htitle & Hrun).
    apply bind_Ok_inv in Hrun as (others & w3 & Hrest & Hrun).
    unfold ret in Hrun. injection Hrun as <- <-. injection Hurl as _ <-.
    apply lift_session in Htitle.
    destruct (IH _ _ _ Hrest) as (Hids & Hflags & Hcur).
    simpl. split_and!; [by f_equal|by constructor|congruence].
Qed.

Lemma find_active (active : Z) (tabs : list TabInfo) :
  Forall (fun t => tab_isActive t = (tab_pageId t =? active)) tabs ->
  active ∈ map tab_pageId tabs ->
  tab_pageId <$> find tab_isActive tabs = Some active.
Proof.
  induction 1 as [|t rest Ht Hrest IH]; simpl; [by intros ?%elem_of_nil|].
  rewrite elem_of_cons. intros Hin. rewrite Ht.
  destruct (Z.eqb_spec (tab_pageId t) active) as [Heq|Hne];
    [simpl; by f_equal|].
  apply IH. destruct Hin; [congruence|done].
Qed.

Lemma filter_active (active : Z) (tabs : list TabInfo) :
  Forall (fun t => tab_isActive t = (tab_pageId t =? active)) tabs ->
  NoDup (map tab_pageId tabs) ->
  active ∈ map tab_pageId tabs ->
  map tab_pageId (List.filter tab_isActive tabs) = [active].
Proof.
  assert (forall l, Forall (fun t => tab_isActive t = (tab_pageId t =? active)) l ->
                    active ∉ map tab_pageId l -> List.filter tab_isActive l = [])
    as Hnone.
  { induction 1 as [|t rest Ht Hrest IH]; simpl; [done|].
    rewrite not_elem_of_cons. intros [Hne Hnot]. rewrite Ht.
    destruct (Z.eqb_spec (tab_pageId t) active); [congruence|]. by apply IH. }
  induction 1 as [|t rest Ht Hrest IH]; simpl; [by intros _ ?%elem_of_nil|].
  rewrite NoDup_cons, elem_of_cons. intros [Hfresh Hnodup] Hin. rewrite Ht.
  destruct (Z.eqb_spec (tab_pageId t) active) as [Heq|Hne]; simpl.
  - rewrite Heq in *. by rewrite (Hnone rest Hrest Hfresh).
  - apply IH; [done|]. destruct Hin; [congruence|done].
Qed.

(** X19: in a sound registry, [listTabs] answers one entry per live tab,
    in the order of the ids, with an empty title, and flags exactly one of
    them as active: the tab of the active id.  The id [listTabsTool]
    reports beside its entries, whenever it returns, is that id. *)
Theorem listTabs_one_active (w : World Ext) :
  registryOk w ->
  exists s tabs,
    currentSession w = Some s
    /\ listTabs page_url w = (Ok tabs, w)
    /\ map tab_pageId tabs = JsMap.keys (sess_pages s)
    /\ map tab_pageId (List.filter tab_isActive tabs) = [sess_activePageId s]
    /\ Forall (fun t => tab_title t = EmptyString) tabs
    /\ forall tabs' active w',
         listTabsTool page_url page_title w = (Ok (tabs', active), w') ->
         map tab_pageId tabs' = JsMap.keys (sess_pages s)
         /\ active = Some (sess_activePageId s)
         /\ currentSession w' = Some s.
Proof.
  intros (s & Hact & [Hsorted Hbound] & Hactive).
  pose proof Hact as [Hcur [page Hpage]]. rewrite Hpage in Hactive.
  apply get_elem_of in Hactive.
  eexists s, _. split; [done|]. split.
  { unfold listTabs, bind. by rewrite (requireSession_active w s Hact). }
  split; [by rewrite map_map|]. split.
  { apply filter_active.
    - apply Forall_map. simpl. by apply Forall_true.
    - rewrite map_map. simpl. by apply sorted_NoDup.
    - by rewrite map_map. }
  split; [apply Forall_map; by apply Forall_true|].
  intros tabs' active w' Hrun. unfold listTabsTool, listTabsAsync in Hrun.
  apply bind_Ok_inv in Hrun as (tabs1 & w1 & Hrun & Hret).
  unfold ret in Hret. injection Hret as <- <- <-.
  unfold bind in Hrun. rewrite (requireSession_active w s Hact) in Hrun.
  apply listEntries_run in Hrun as (Hids & Hflags & Hcur').
  split_and!; [done| |congruence].
  apply find_active; [done|]. by rewrite Hids.
Qed.

Lemma perform_keeps (c : RegistryCall) (w : World Ext) (s : DemoSession) :
  activeIn w s ->
  exists s',
    activeIn (perform w c) s'
    /\ recorded s' = recorded s
    /\ clock (perform w c) = clock w
    /\ ticks (perform w c) = ticks w.
Proof.
  intros Hact. pose proof Hact as [Hcur [p Hp]].
  pose (P := fun w' : World Ext =>
               exists s', activeIn w' s' /\ recorded s' = recorded s
                          /\ clock w' = clock w /\ ticks w' = ticks w).
  change (P (perform w c)).
  assert (P w) as Hsame by (by exists s).
  assert (forall x : Ext, P (mkWorld (currentSession w) (clock w) (ticks w) x))
    as Hdriver by (intros x; by exists s).
  assert (forall (s' : DemoSession) (x : Ext),
            is_Some (sess_page s') -> recorded s' = recorded s ->
            P (mkWorld (Some s') (clock w) (ticks w) x)) as Hset.
  { intros s' x Hpage Hrec. by exists s'. }
  destruct c as [url|pageId|pageId]; unfold perform.
  - unfold newTab, bind at 1. rewrite (requireSession_active w s Hact).
    destruct (sess_context s) as [context|]; [|exact Hsame].
    unfold bind at 1, lift.
    destruct (context_newPage context (ext w)) as [[page|e] x]; [|apply Hdriver].
    unfold bind at 1, set_session. cbv beta iota.
    set (s1 := set_pages _ _).
    assert (is_Some (sess_page s1)) as Hpage1 by (exists p; by destruct s).
    assert (recorded s1 = recorded s) as Hrec1 by (by destruct s).
    destruct url as [u|]; [destruct (Js.truthy u)|]; unfold bind, lift, ret; simpl.
    + destruct (page_goto page u x) as [[[]|e] x']; by apply Hset.
    + by apply Hset.
    + by apply Hset.
  - destruct (JsMap.get pageId (sess_pages s)) as [page|] eqn:Hget.
    + destruct (switchTab_spec w s pageId page Hact Hget) as (r' & x & ->).
      apply Hset; [exists page|]; by destruct s.
    + unfold switchTab, bind at 1.
      by rewrite (requireSession_active w s Hact), Hget.
  - destruct (JsMap.get pageId (sess_pages s)) as [page|] eqn:Hget.
    2:{ unfold closeTab, bind at 1.
        by rewrite (requireSession_active w s Hact), Hget. }
    destruct (Z.eqb_spec (JsMap.size (sess_pages s)) 1) as [Hone|Hmany].
    { unfold closeTab, bind at 1.
      rewrite (requireSession_active w s Hact), Hget.
      by destruct (Z.eqb_spec (JsMap.size (sess_pages s)) 1). }
    destruct (page_close page (ext w)) as [[[]|e] x] eqn:Hclose.
    2:{ unfold closeTab, bind at 1.
        rewrite (requireSession_active w s Hact), Hget.
        destruct (Z.eqb_spec (JsMap.size (sess_pages s)) 1); [done|].
        unfold bind at 1, lift. rewrite Hclose. apply Hdriver. }
    destruct (Z.eq_dec (sess_activePageId s) pageId) as [<-|Hother].
    + destruct (closeTab_active_run w s page x Hact Hget Hmany Hclose)
        as (r1 & x' & first & firstPage & rest & Hdel & ->).
      apply Hset; [exists firstPage|]; by destruct s.
    + rewrite (closeTab_other_run w s pageId page x Hact Hget Hmany Hother Hclose).
      apply Hset; [exists p|]; by destruct s.
Qed.

(** X20: the tab operations touch the registry only: along every sequence
    of them, whichever return or throw, the session stays current with
    the identity, the options, the log and the browser handles it had, and
    the clock is never read. *)
Theorem tab_operations_keep_log (calls : list RegistryCall) :
  forall (w : World Ext) (s : DemoSession),
    activeIn w s ->
    exists s',
      activeIn (performAll calls w) s'
      /\ recorded s' = recorded s
      /\ clock (performAll calls w) = clock w
      /\ ticks (performAll calls w) = ticks w.
Proof.
  induction calls as [|c rest IH]; intros w s Hact; simpl.
  - by exists s.
  - destruct (perform_keeps c w s Hact) as (s1 & Hact1 & Hrec1 & Hclock1 & Hticks1).
    destruct (IH _ s1 Hact1) as (s' & Hact' & Hrec' & Hclock' & Hticks').
    exists s'. split_and!; [done|congruence|congruence|congruence].
Qed.

End ToolProps.

Lemma no_session_rejected_witness :
  let w := SampleStart.idle in
  (forall p, addStep p w = (Throw noSession, w))
  /\ (forall url, newTab url w = (Throw noSession, w))
  /\ (forall pageId, switchTab pageId w = (Throw noSession, w))
  /\ (forall pageId, closeTab pageId w = (Throw noSession, w))
  /\ (forall T options (fn : M (list string) T),
        executeWithEvidence options fn w = (Throw noSession, w))
  /\ (forall name, takeScreenshot name w = (Throw noSession, w))
  /\ (forall input, screenshot input w = (Throw noSession, w))
  /\ (forall input, scroll input w = (Throw noSession, w))
  /\ (forall url description, navigate url description w = (Throw noSession, w))
  /\ (forall url description, newTabTool url description w = (Throw noSession, w))
  /\ (forall pageId description,
        switchTabTool (fun _ _ => "about:blank") pageId description w
        = (Throw noSession, w))
  /\ (forall pageId description,
        closeTabTool pageId description w = (Throw noSession, w))
  /\ listTabs (fun _ _ => "about:blank") w = (Throw noSession, w)
  /\ listTabsTool (fun _ _ => "about:blank") (fun _ x => (Ok "Docs", x)) w
     = (Throw noSession, w)
  /\ status (fun _ _ => "about:blank") w
     = (Ok (StatusInactive "No active demo session. Use demosmith_start to begin."), w)
  /\ endSession w = (Ok None, w).
Proof.
  intros w.
  apply (no_session_rejected (fun _ _ => "about:blank") (fun _ x => (Ok "Docs", x)) w).
  reflexivity.
Defined.

Lemma listTabs_one_active_witness :
  let s := SampleWorld.session [] [(0, 3%nat); (1, 4%nat); (2, 5%nat)] 1 4%nat 3 in
  let w := SampleWorld.world s in
  let url := fun (p : Page) (_ : list string) => "https://example.test/" +:+ Js.of_int (Z.of_nat p) in
  let title := fun (p : Page) (x : list string) => (Ok "Docs", x) in
  exists s' tabs,
    currentSession w = Some s'
    /\ listTabs url w = (Ok tabs, w)
    /\ map tab_pageId tabs = JsMap.keys (sess_pages s')
    /\ map tab_pageId (List.filter tab_isActive tabs) = [sess_activePageId s']
    /\ Forall (fun t => tab_title t = EmptyString) tabs
    /\ forall tabs' active w',
         listTabsTool url title w = (Ok (tabs', active), w') ->
         map tab_pageId tabs' = JsMap.keys (sess_pages s')
         /\ active = Some (sess_activePageId s')
         /\ currentSession w' = Some s'.
Proof.
  intros s w url title.
  apply (listTabs_one_active url title w).
  exists s. split; [split; [reflexivity|eexists; reflexivity]|].
  split; [split; simpl; repeat constructor; lia|reflexivity].
Defined.

Lemma tab_operations_keep_log_witness :
  exists s',
    activeIn (performAll SampleStart.calls SampleStart.busy) s'
    /\ recorded s' = recorded SampleStart.started
    /\ clock (performAll SampleStart.calls SampleStart.busy) = clock SampleStart.busy
    /\ ticks (performAll SampleStart.calls SampleStart.busy) = ticks SampleStart.busy.
Proof.
  apply (tab_operations_keep_log SampleStart.calls SampleStart.busy SampleStart.started).
  split; [reflexivity|]. eexists. reflexivity.
Defined.

Section TabToolProps.
Context {Ext : Type} `{Driver Ext}.
Variable page_url : Page -> Ext -> string.

Lemma stepScreenshot_session (s : DemoSession) (page : Page) (w w' : World Ext) r :
  stepScreenshot s page w = (r, w') ->
  currentSession w' = currentSession w /\ clock w' = clock w /\ ticks w' = ticks w.
Proof.
  unfold stepScreenshot, bind, lift, ret.
  destruct (page_screenshot page _ (ext w)) as [[[]|e] x]; by intros [= <- <-].
Qed.

(** The end of a tab tool: the screenshot, if any, then the step. *)
Lemma record_tail {A} (shot : M Ext (option string)) (action description : string)
    (duration : Z) (details : StepDetails) (k : DemoStep -> M Ext A)
    (w : World Ext) (s : DemoSession) :
  activeIn w s ->
  (forall r w', shot w = (r, w') ->
     currentSession w' = currentSession w /\ clock w' = clock w
     /\ ticks w' = ticks w) ->
  (screenshotPath <- shot ;;
   timestamp <- Date_now ;;
   step <- addStep (mkPartial action description timestamp duration None None
                              details (mkEvidence screenshotPath None None)
                              true None) ;;
   k step) w
  = match shot w with
    | (Ok sp, w1) =>
        let step :=
          with_id (mkPartial action description (clock w (ticks w)) duration
                             None None details (mkEvidence sp None None) true None)
                  (Z.of_nat (length (sess_steps s)) + 1) in
        k step (mkWorld (Some (set_steps (sess_steps s ++ [step]) s)) (clock w)
                        (S (ticks w)) (ext w1))
    | (Throw e, w1) => (Throw e, w1)
    end.
Proof.
  intros Hact Hshot. unfold bind at 1.
  destruct (shot w) as [[sp|e] w1] eqn:Hrun; [|done].
  destruct (Hshot _ _ eq_refl) as (Hcur & Hclock & Hticks).
  unfold bind at 1, Date_now. unfold bind at 1.
  match goal with |- context [addStep ?p ?w'] =>
    assert (activeIn w' s) as Hact2
      by (destruct Hact as [Hc Hp]; split; [simpl; congruence|done]);
    rewrite (addStep_spec w' s p Hact2) end.
  unfold with_session. simpl. by rewrite Hclock, Hticks.
Qed.

Lemma ticked_active (w : World Ext) (s : DemoSession) :
  activeIn w s -> activeIn (ticked w) s.
Proof. by intros [Hcur Hpage]. Qed.

Lemma bind_Date_now {A} (k : Z -> M Ext A) (w : World Ext) :
  bind Date_now k w = k (clock w (ticks w)) (ticked w).
Proof. reflexivity. Qed.

Lemma bind_sessionNow {A} (s s1 : DemoSession) (k : DemoSession -> M Ext A)
    (w : World Ext) :
  currentSession w = Some s1 -> bind (sessionNow s) k w = k s1 w.
Proof. intros Hcur. unfold bind, sessionNow. by rewrite Hcur. Qed.

Lemma bind_requireSession {A} (s : DemoSession) (k : DemoSession -> M Ext A)
    (w : World Ext) :
  activeIn w s -> bind requireSession k w = k s w.
Proof. intros Hact. unfold bind. by rewrite (requireSession_active w s Hact). Qed.

Lemma recorded_log (s1 s : DemoSession) :
  recorded s1 = recorded s ->
  sess_steps s1 = sess_steps s /\ sess_options s1 = sess_options s.
Proof. unfold recorded. by intros [= _ _ _ _ _ -> -> _ _ _]. Qed.

Lemma tabShot_session (enabled : bool) (s : DemoSession) (page : Page)
    (w : World Ext) r (w' : World Ext) :
  (if enabled then p <- stepScreenshot s page ;; ret (Some p) else ret None) w
  = (r, w') ->
  currentSession w' = currentSession w /\ clock w' = clock w /\ ticks w' = ticks w.
Proof.
  destruct enabled; [|unfold ret; by intros [= <- <-]].
  unfold bind at 1.
  destruct (stepScreenshot s page w) as [[p|e] w1] eqn:Hshot;
    apply stepScreenshot_session in Hshot; unfold ret; by intros [= <- <-].
Qed.

Lemma closeShot_session (s : DemoSession) (w : World Ext) r (w' : World Ext) :
  (match sess_page s with
   | Some page =>
       if opt_screenshotOnStep (sess_options s)
       then p <- stepScreenshot s page ;; ret (Some p)
       else ret None
   | None => ret None
   end) w = (r, w') ->
  currentSession w' = currentSession w /\ clock w' = clock w /\ ticks w' = ticks w.
Proof.
  destruct (sess_page s) as [page|]; [apply tabShot_session|].
  unfold ret. by intros [= <- <-].
Qed.

(** What is left to show once the tab operation has returned: the
    screenshot throws and nothing is recorded, or the step is appended. *)
Local Ltac finish_tab_tool w1 s1 Hact2 Hrec Hclock Hticks Hdrv :=
  let sp := fresh "sp" in
  let e := fresh "e" in
  let w2 := fresh "w" in
  let Hshot := fresh "Hshot" in
  let Hcur2 := fresh "Hcur" in
  let Hsteps := fresh "Hsteps" in
  destruct (recorded_log _ _ Hrec) as [Hsteps _];
  match goal with
  | |- context [let (_, _) := ?shot (ticked w1) in _] =>
      destruct (shot (ticked w1)) as [[sp|e] w2] eqn:Hshot
  end;
  destruct (Hdrv _ _ Hshot) as (Hcur2 & _ & _);
  [ unfold bind, ret; simpl;
    eexists (Ok _), _, _; split; [reflexivity|]; split; [reflexivity|];
    eexists; simpl; rewrite Hsteps, Hclock, Hticks; by split_and!
  | exists (Throw e), w2, s1; split; [reflexivity|];
    split; [rewrite Hcur2; apply Hact2|exact Hsteps] ].

(** X21: a tab tool appends exactly one step when it returns and none
    when it throws; the session stays current either way.  The step has
    the next id, which the tool answers, the action and the description of
    the call, [success = true], no error, no video offsets, and as its
    duration the time the tab operation took. *)
Theorem tab_tool_records_on_success (c : TabToolCall) (w : World Ext)
    (s : DemoSession) :
  activeIn w s ->
  exists r w' s',
    runTabTool page_url c w = (r, w')
    /\ currentSession w' = Some s'
    /\ match r with
       | Ok id =>
           exists step,
             sess_steps s' = sess_steps s ++ [step]
             /\ id = Z.of_nat (length (sess_steps s)) + 1
             /\ step_id step = id
             /\ step_action step = toolAction c
             /\ step_description step = toolDescription c
             /\ step_success step = true
             /\ step_error step = None
             /\ step_videoStartMs step = None
             /\ step_videoEndMs step = None
             /\ step_duration step = clock w (S (ticks w)) - clock w (ticks w)
       | Throw _ => sess_steps s' = sess_steps s
       end.
Proof.
  intros Hact. pose proof (ticked_active w s Hact) as Hact0.
  destruct c as [url description|pageId description|pageId description];
    unfold runTabTool.
  - destruct (perform_keeps (CallNewTab url) (ticked w) s Hact0)
      as (s1 & Hact1 & Hrec & Hclock & Hticks).
    unfold perform in *.
    unfold bind at 1, newTabTool.
    rewrite (bind_requireSession s _ w Hact), bind_Date_now.
    unfold bind at 1.
    destruct (newTab url (ticked w)) as [[[pageId page]|e] w1];
      simpl in Hact1, Hclock, Hticks.
    2:{ exists (Throw e), w1, s1. destruct Hact1 as [Hcur1 _].
        split_and!; [done|done|]. by destruct (recorded_log _ _ Hrec). }
    rewrite bind_Date_now.
    pose proof (ticked_active w1 s1 Hact1) as Hact2.
    rewrite (bind_sessionNow s s1 _ (ticked w1) (proj1 Hact2)).
    rewrite (record_tail _ _ _ _ _ _ (ticked w1) s1 Hact2
               (tabShot_session _ s1 page (ticked w1))).
    finish_tab_tool w1 s1 Hact2 Hrec Hclock Hticks
      (tabShot_session (opt_screenshotOnStep (sess_options s1)) s1 page (ticked w1)).
  - destruct (perform_keeps (CallSwitchTab pageId) (ticked w) s Hact0)
      as (s1 & Hact1 & Hrec & Hclock & Hticks).
    unfold perform in *.
    unfold bind at 1, switchTabTool.
    rewrite (bind_requireSession s _ w Hact), bind_Date_now.
    unfold bind at 1.
    destruct (switchTab pageId (ticked w)) as [[page|e] w1];
      simpl in Hact1, Hclock, Hticks.
    2:{ exists (Throw e), w1, s1. destruct Hact1 as [Hcur1 _].
        split_and!; [done|done|]. by destruct (recorded_log _ _ Hrec). }
    rewrite bind_Date_now.
    pose proof (ticked_active w1 s1 Hact1) as Hact2.
    rewrite (bind_sessionNow s s1 _ (ticked w1) (proj1 Hact2)).
    rewrite (record_tail _ _ _ _ _ _ (ticked w1) s1 Hact2
               (tabShot_session _ s1 page (ticked w1))).
    finish_tab_tool w1 s1 Hact2 Hrec Hclock Hticks
      (tabShot_session (opt_screenshotOnStep (sess_options s1)) s1 page (ticked w1)).
  - destruct (perform_keeps (CallCloseTab pageId) (ticked w) s Hact0)
      as (s1 & Hact1 & Hrec & Hclock & Hticks).
    unfold perform in *.
    unfold bind at 1, closeTabTool.
    rewrite (bind_requireSession s _ w Hact), bind_Date_now.
    unfold bind at 1.
    destruct (closeTab pageId (ticked w)) as [[[]|e] w1];
      simpl in Hact1, Hclock, Hticks.
    2:{ exists (Throw e), w1, s1. destruct Hact1 as [Hcur1 _].
        split_and!; [done|done|]. by destruct (recorded_log _ _ Hrec). }
    rewrite bind_Date_now.
    pose proof (ticked_active w1 s1 Hact1) as Hact2.
    rewrite (bind_sessionNow s s1 _ (ticked w1) (proj1 Hact2)).
    rewrite (record_tail _ _ _ _ _ _ (ticked w1) s1 Hact2
               (closeShot_session s1 (ticked w1))).
    finish_tab_tool w1 s1 Hact2 Hrec Hclock Hticks (closeShot_session s1 (ticked w1)).
Qed.

Lemma takeScreenshot_run (name : option string) (w : World Ext) (s : DemoSession)
    (page : Page) :
  activeIn w s ->
  sess_page s = Some page ->
  let path :=
    Js.path_join3 (opt_outputDir (sess_options s)) "assets"
      (if Js.truthy_opt name then default EmptyString name +:+ ".png"
       else stepFileName (Z.of_nat (length (sess_steps s)) + 1)) in
  takeScreenshot name w
  = (match (page_screenshot page path (ext w)).1 with
     | Ok _ => Ok path
     | Throw e => Throw e
     end,
     mkWorld (currentSession w) (clock w) (ticks w)
             (page_screenshot page path (ext w)).2).
Proof.
  intros Hact Hpage path. unfold takeScreenshot.
  rewrite (bind_requireSession s _ w Hact), Hpage. fold path.
  unfold bind, lift, ret.
  by destruct (page_screenshot page path (ext w)) as [[[]|e] x].
Qed.

(** X22: with a session active, the screenshot tool never throws.  It
    asks the page for a screenshot at [<outputDir>/assets/<name>.png], or
    at [step-NNN.png] with the number of the step when the request gives
    no name: when the page takes it, the tool answers success with that
    path; when the page throws, it answers [success = false] with the text
    of the error and no path.  Either way that answer is recorded as one
    step of action [screenshot] with the next id, which the narration
    skips. *)
Theorem screenshot_never_throws (input : ScreenshotInput) (w : World Ext)
    (s : DemoSession) (page : Page) :
  activeIn w s ->
  sess_page s = Some page ->
  let id := Z.of_nat (length (sess_steps s)) + 1 in
  let path :=
    Js.path_join3 (opt_outputDir (sess_options s)) "assets"
      (if Js.truthy_opt (sc_name input)
       then default EmptyString (sc_name input) +:+ ".png"
       else stepFileName id) in
  let taken := page_screenshot page path (ext w) in
  let out :=
    match taken.1 with
    | Ok _ => mkScreenshotOutput true id (Some path) None
    | Throw e => mkScreenshotOutput false id None (Some (errorText e))
    end in
  let step :=
    mkStep id "screenshot" (sc_description input)
           (clock w (S (S (ticks w))))
           (clock w (S (ticks w)) - clock w (ticks w))
           None None no_details
           (mkEvidence (sco_screenshotPath out) None None)
           (sco_success out) (sco_error out) in
  screenshot input w
  = (Ok out,
     mkWorld (Some (set_steps (sess_steps s ++ [step]) s)) (clock w)
             (S (S (S (ticks w)))) taken.2)
  /\ narrated step = false.
Proof.
  intros Hact Hpage id path taken out step. split; [|done].
  pose proof Hact as [Hcur _].
  pose proof (ticked_active w s Hact) as Hact0.
  unfold screenshot.
  rewrite (bind_requireSession s _ w Hact), bind_Date_now.
  unfold bind at 1, attempt.
  rewrite (takeScreenshot_run (sc_name input) (ticked w) s page Hact0 Hpage).
  fold id. fold path. change (ext (ticked w)) with (ext w). fold taken.
  cbv beta iota. rewrite bind_Date_now, bind_Date_now. unfold bind at 1.
  match goal with |- context [addStep ?p ?w'] =>
    assert (activeIn w' s) as Hact2 by (by split);
    rewrite (addStep_spec w' s p Hact2) end.
  unfold bind, sessionNow, ret, with_session. simpl.
  rewrite length_app. simpl.
  replace (Z.of_nat (length (sess_steps s) + 1)) with id by (unfold id; lia).
  unfold step, out. by destruct (taken.1) as [[]|e].
Qed.

Lemma addStep_Ok_inv (p : PartialStep) (w w' : World Ext) (step : DemoStep) :
  addStep p w = (Ok step, w') ->
  exists s,
    step = with_id p (Z.of_nat (length (sess_steps s)) + 1)
    /\ currentSession w' = Some (set_steps (sess_steps s ++ [step]) s).
Proof.
  unfold addStep. intros Hrun.
  apply bind_Ok_inv in Hrun as (s & w1 & _ & Hrun).
  apply bind_Ok_inv in Hrun as (? & w2 & Hset & Hrun).
  unfold ret in Hrun. unfold set_session in Hset.
  injection Hrun as <- <-. injection Hset as _ <-. by exists s.
Qed.

Lemma try_finally_Ok_inv {St A} (body : Eff St A) (fin : result A -> Eff St unit)
    (w w' : St) (a : A) :
  try_finally body fin w = (Ok a, w') ->
  exists w1, body w = (Ok a, w1) /\ fin (Ok a) w1 = (Ok tt, w').
Proof.
  unfold try_finally. destruct (body w) as [r w1].
  destruct (fin r w1) as [[[]|e] w2] eqn:Hfin; [|done].
  intros [= -> <-]. by exists w1.
Qed.

(** Whenever [executeWithEvidence] returns, the step it hands back is the
    last of the log and a successful one. *)
Lemma executeWithEvidence_Ok_inv {T} (options : ExecuteOptions) (fn : M Ext T)
    (w w' : World Ext) (o : option DemoStep) (v : T) :
  executeWithEvidence options fn w = (Ok (o, v), w') ->
  exists step s',
    o = Some step
    /\ currentSession w' = Some s'
    /\ last (sess_steps s') = Some step
    /\ step_action step = ex_action options
    /\ step_success step = true
    /\ step_error step = None.
Proof.
  unfold executeWithEvidence. intros Hrun.
  apply bind_Ok_inv in Hrun as (s & w1 & _ & Hrun).
  apply bind_Ok_inv in Hrun as (startTime & w2 & _ & Hrun).
  apply bind_Ok_inv in Hrun as (shot & w3 & _ & Hrun).
  apply bind_Ok_inv in Hrun as (v' & w4 & Hbody & Hrun).
  apply bind_Ok_inv in Hrun as (cur & w5 & Hget & Hrun).
  unfold ret in Hrun. unfold getSession in Hget.
  injection Hrun as <- <- <-. injection Hget as <- <-.
  apply try_finally_Ok_inv in Hbody as (w5 & _ & Hrec).
  unfold recordStep in Hrec.
  apply bind_Ok_inv in Hrec as (endTime & w6 & _ & Hrec).
  apply bind_Ok_inv in Hrec as (videoEndMs & w7 & _ & Hrec).
  apply bind_Ok_inv in Hrec as (timestamp & w8 & _ & Hrec).
  apply bind_Ok_inv in Hrec as (step & w9 & Hadd & Hrec).
  unfold ret in Hrec. injection Hrec as <-.
  apply addStep_Ok_inv in Hadd as (s' & -> & Hcur).
  eexists _, _. rewrite Hcur. simpl. rewrite last_snoc.
  split; [reflexivity|]. split; [reflexivity|]. simpl. rewrite last_snoc.
  by split_and!.
Qed.

(** X23: the scroll tool and the navigate tool never answer a failure:
    whenever one of them returns, its answer says [success = true] with
    no error, and carries the id of the last step of the log.  An action
    that fails makes the tool throw instead. *)
Theorem tools_never_report_failure (w : World Ext) :
  (forall input out w',
      scroll input w = (Ok out, w') ->
      so_success out = true /\ so_error out = None
      /\ exists s' step, currentSession w' = Some s'
                         /\ last (sess_steps s') = Some step
                         /\ so_stepId out = step_id step
                         /\ step_action step = "scroll")
  /\ (forall url description out w',
      navigate url description w = (Ok out, w') ->
      nv_success out = true /\ nv_error out = None
      /\ exists s' step, currentSession w' = Some s'
                         /\ last (sess_steps s') = Some step
                         /\ nv_stepId out = step_id step
                         /\ step_action step = "navigate").
Proof.
  split.
  - intros input out w' Hrun. unfold scroll in Hrun.
    apply bind_Ok_inv in Hrun as (s & w1 & _ & Hrun).
    apply bind_Ok_inv in Hrun as ([o v] & w2 & Hexec & Hrun).
    apply executeWithEvidence_Ok_inv in Hexec
      as (step & s' & -> & Hcur & Hlast & Haction & Hsuccess & Herror).
    simpl in Hrun. unfold ret in Hrun. injection Hrun as <- <-. simpl.
    split_and!; try done. by exists s', step.
  - intros url description out w' Hrun. unfold navigate in Hrun.
    apply bind_Ok_inv in Hrun as (s & w1 & _ & Hrun).
    apply bind_Ok_inv in Hrun as ([o v] & w2 & Hexec & Hrun).
    apply executeWithEvidence_Ok_inv in Hexec
      as (step & s' & -> & Hcur & Hlast & Haction & Hsuccess & Herror).
    simpl in Hrun. unfold ret in Hrun. injection Hrun as <- <-. simpl.
    split_and!; try done. by exists s', step.
Qed.

(** X24: when the navigation throws, the navigate tool throws the same
    error, after the failed step has been recorded with the text of the
    error; when it returns, the tool answers the id of the step recorded
    as a success.  Either way one step is appended. *)
Theorem navigate_outcomes (url description : string) (w w0 : World Ext)
    (s : DemoSession) (page : Page) (shot : option string) :
  activeIn w s ->
  sess_page s = Some page ->
  captureBefore s (ticked w) = (Ok shot, w0) ->
  exists r w' step,
    navigate url description w = (r, w')
    /\ currentSession w' = Some (set_steps (sess_steps s ++ [step]) s)
    /\ step_id step = Z.of_nat (length (sess_steps s)) + 1
    /\ step_action step = "navigate"
    /\ d_url (step_details step) = Some url
    /\ screenshotPath (step_evidence step) = shot
    /\ match (page_goto page url (ext w0)).1 with
       | Ok _ =>
           r = Ok (mkNavigateOutput true (step_id step) url None)
           /\ step_success step = true /\ step_error step = None
       | Throw e =>
           r = Throw e
           /\ step_success step = false
           /\ step_error step = Some (errorText e)
       end.
Proof.
  intros Hact Hpage Hshot.
  destruct (captureBefore_session s _ _ _ Hshot) as (Hcur0 & Hclock0 & Hticks0).
  unfold navigate. rewrite (bind_requireSession s _ w Hact), Hpage. simpl.
  destruct (page_goto page url (ext w0)) as [outcome x] eqn:Hgoto.
  set (w1 := mkWorld (currentSession w0) (clock w0) (ticks w0) x).
  assert (lift (page_goto page url) w0 = (outcome, w1)) as Hrun
    by (unfold lift; by rewrite Hgoto).
  assert (activeIn w1 s) as Hact1.
  { destruct Hact as [Hcur Hp]. split; [|done]. simpl. by rewrite Hcur0. }
  unfold bind at 1.
  rewrite (executeWithEvidence_spec _ (lift (page_goto page url)) w w0 w1 s s shot
             outcome Hact Hshot Hrun Hact1).
  set (step := evidenceStep _ _ _ _ _ _ _).
  destruct outcome as [[]|e]; simpl.
  - eexists _, _, step. split; [reflexivity|]. by split_and!.
  - eexists _, _, step. split; [reflexivity|]. by split_and!.
Qed.

End TabToolProps.

Lemma tab_tool_records_on_success_witness :
  let s := SampleWorld.session [Sample.earlyClick] [(0, 3%nat); (1, 4%nat)] 0 3%nat 2 in
  let w := SampleWorld.world s in
  let c := ToolSwitchTab 1 "Go to the docs tab" in
  exists r w' s',
    runTabTool (fun _ _ => "about:blank") c w = (r, w')
    /\ currentSession w' = Some s'
    /\ match r with
       | Ok id =>
           exists step,
             sess_steps s' = sess_steps s ++ [step]
             /\ id = Z.of_nat (length (sess_steps s)) + 1
             /\ step_id step = id
             /\ step_action step = toolAction c
             /\ step_description step = toolDescription c
             /\ step_success step = true
             /\ step_error step = None
             /\ step_videoStartMs step = None
             /\ step_videoEndMs step = None
             /\ step_duration step = clock w (S (ticks w)) - clock w (ticks w)
       | Throw _ => sess_steps s' = sess_steps s
       end.
Proof.
  intros s w c.
  apply (tab_tool_records_on_success (fun _ _ => "about:blank") c w s).
  split; [reflexivity|]. eexists. reflexivity.
Defined.

Lemma screenshot_never_throws_witness :
  let s := SampleQuiet.session in
  let input := mkScreenshotInput (Some "login-form") "The login form" in
  let failed :=
    mkStep 2 "screenshot" "The login form" 1700 100 None None no_details
           (mkEvidence None None None) false
           (Some "Target page, context or browser has been closed") in
  let taken :=
    mkStep 2 "screenshot" "The login form" 1700 100 None None no_details
           (mkEvidence (Some "/out/assets/login-form.png") None None) true None in
  (@screenshot unit ClosedBrowser.driver input (ClosedBrowser.world (Some s))
   = (Ok (mkScreenshotOutput false 2 None
            (Some "Target page, context or browser has been closed")),
      mkWorld (Some (set_steps [Sample.earlyClick; failed] s))
              (clock (ClosedBrowser.world (Some s))) 3 tt)
   /\ narrated failed = false)
  /\ (screenshot input (SampleWorld.world s)
      = (Ok (mkScreenshotOutput true 2 (Some "/out/assets/login-form.png") None),
         mkWorld (Some (set_steps [Sample.earlyClick; taken] s))
                 (clock (SampleWorld.world s)) 3
                 ["screenshot /out/assets/login-form.png"])
      /\ narrated taken = false).
Proof.
  intros s input failed taken. split.
  - exact (@screenshot_never_throws unit ClosedBrowser.driver input
             (ClosedBrowser.world (Some s)) s 3%nat
             (conj eq_refl (ex_intro _ _ eq_refl)) eq_refl).
  - exact (@screenshot_never_throws _ SampleWorld.driver input
             (SampleWorld.world s) s 3%nat
             (conj eq_refl (ex_intro _ _ eq_refl)) eq_refl).
Defined.

Lemma tools_never_report_failure_witness :
  exists out w',
    scroll SampleScroll.scrollUp (SampleWorld.world SampleScroll.session)
    = (Ok out, w')
    /\ so_success out = true
    /\ so_error out = None.
Proof.
  destruct (scroll SampleScroll.scrollUp (SampleWorld.world SampleScroll.session))
    as [[out|e] w'] eqn:Hrun; [|vm_compute in Hrun; discriminate Hrun].
  exists out, w'. split; [reflexivity|].
  destruct (proj1 (tools_never_report_failure
                     (SampleWorld.world SampleScroll.session)) _ _ _ Hrun)
    as (Hsuccess & Herror & _).
  by split.
Defined.

Lemma navigate_outcomes_witness :
  let s := SampleQuiet.session in
  let w := ClosedBrowser.world (Some s) in
  let url := "https://example.test/login" in
  exists r w' step,
    @navigate unit ClosedBrowser.driver url "Open the login page" w = (r, w')
    /\ currentSession w' = Some (set_steps (sess_steps s ++ [step]) s)
    /\ step_id step = Z.of_nat (length (sess_steps s)) + 1
    /\ step_action step = "navigate"
    /\ d_url (step_details step) = Some url
    /\ screenshotPath (step_evidence step) = None
    /\ match (@page_goto unit ClosedBrowser.driver 3%nat url tt).1 with
       | Ok _ =>
           r = Ok (mkNavigateOutput true (step_id step) url None)
           /\ step_success step = true /\ step_error step = None
       | Throw e =>
           r = Throw e
           /\ step_success step = false
           /\ step_error step = Some (errorText e)
       end.
Proof.
  intros s w url.
  apply (@navigate_outcomes unit ClosedBrowser.driver url "Open the login page"
           w (ticked w) s 3%nat None).
  - split; [reflexivity|]. eexists. reflexivity.
  - reflexivity.
  - reflexivity.
Defined.

(** ** Summaries of the log *)

Lemma successCount_bounds (steps : list DemoStep) :
  0 <= successCountOf steps <= Z.of_nat (length steps).
Proof.
  unfold successCountOf.
  pose proof (length_filter (fun s => step_success s = true) steps). lia.
Qed.

Lemma successCount_all (steps : list DemoStep) :
  successCountOf steps = Z.of_nat (length steps)
  <-> Forall (fun s => step_success s = true) steps.
Proof.
  unfold successCountOf. induction steps as [|step rest IH]; simpl.
  - split; [constructor|done].
  - pose proof (length_filter (fun s => step_success s = true) rest) as Hle.
    rewrite filter_cons. destruct (decide (step_success step = true)) as [Hs|Hs].
    + simpl. rewrite Forall_cons. split.
      * intros Heq. split; [done|]. apply IH. lia.
      * intros [_ Hall]. apply IH in Hall. lia.
    + split; [lia|]. rewrite Forall_cons. by intros [? _].
Qed.

Section SummaryProps.
Context {Ext : Type} `{Driver Ext}.
Variable page_url : Page -> Ext -> string.
Variable toISOString : Z -> string.
Variable now : Z.

(** X25: the status tool, [steps.json] and the manifest of the
    deliverables count the same log alike.  The status tool answers
    without touching anything; its progress block is the summary block of
    [steps.json]; successes and failures add up to the number of steps,
    which is the number of entries of [steps.json], and no step failed
    exactly when the failure count is 0; the success rate of the manifest
    is the number 1 for an empty log and otherwise the double that
    dividing the success count by the number of steps gives. *)
Theorem summaries_agree (w : World Ext) (s : DemoSession) :
  currentSession w = Some s ->
  let json := generateStepsJson toISOString now s in
  let p := sj_summary json in
  let m := summaryOf (sess_steps s) in
  (exists info, status page_url w = (Ok (StatusActive info), w)
                /\ as_progress info = p
                /\ as_status info = sess_status s)
  /\ pr_totalSteps p = Z.of_nat (length (sj_steps json))
  /\ pr_totalSteps p = totalSteps m
  /\ pr_totalDuration p = duration m
  /\ pr_successCount p + pr_failureCount p = pr_totalSteps p
  /\ 0 <= pr_successCount p
  /\ 0 <= pr_failureCount p
  /\ (pr_failureCount p = 0 <-> Forall (fun step => step_success step = true) (sess_steps s))
  /\ (sess_steps s = [] -> successRate m = Js.double_of_Z 1)
  /\ (sess_steps s <> [] ->
      successRate m = Js.divide (Js.double_of_Z (pr_successCount p))
                                (Js.double_of_Z (pr_totalSteps p))).
Proof.
  intros Hcur json p m.
  pose proof (successCount_bounds (sess_steps s)) as Hb.
  pose proof (successCount_all (sess_steps s)) as Hall.
  assert (p = progressOf (sess_steps s)) as Hp by done.
  rewrite Hp. unfold m, summaryOf, progressOf. simpl.
  fold (successCountOf (sess_steps s)).
  split.
  { eexists. split; [unfold status, bind, getSession; by rewrite Hcur|].
    by split. }
  split; [unfold json; simpl; by rewrite length_map|].
  split; [done|]. split; [done|]. split; [lia|]. split; [lia|]. split; [lia|].
  split; [rewrite <- Hall; lia|].
  split.
  - by intros ->.
  - intros Hsome. destruct (sess_steps s) as [|step rest]; [done|].
    destruct (Z.ltb_spec 0 (Z.of_nat (length (step :: rest)))) as [_|Hzero];
      [done|]. simpl in Hzero. lia.
Qed.

End SummaryProps.

Lemma summaries_agree_witness :
  let s := SampleWorld.session
             [Sample.earlyClick; with_id SampleWorld.partialFailed 2]
             [(0, 3%nat)] 0 3%nat 1 in
  let w := SampleWorld.world s in
  let url := fun (_ : Page) (_ : list string) => "https://example.test" in
  let json := generateStepsJson Js.of_int 2000 s in
  let p := sj_summary json in
  let m := summaryOf (sess_steps s) in
  (exists info, status url w = (Ok (StatusActive info), w)
                /\ as_progress info = p
                /\ as_status info = sess_status s)
  /\ pr_totalSteps p = Z.of_nat (length (sj_steps json))
  /\ pr_totalSteps p = totalSteps m
  /\ pr_totalDuration p = duration m
  /\ pr_successCount p + pr_failureCount p = pr_totalSteps p
  /\ 0 <= pr_successCount p
  /\ 0 <= pr_failureCount p
  /\ (pr_failureCount p = 0 <-> Forall (fun step => step_success step = true) (sess_steps s))
  /\ (sess_steps s = [] -> successRate m = Js.double_of_Z 1)
  /\ (sess_steps s <> [] ->
      successRate m = Js.divide (Js.double_of_Z (pr_successCount p))
                                (Js.double_of_Z (pr_totalSteps p))
      /\ successRate m = S754_finite false 4503599627370496 (-53)).
Proof.
  intros s w url json p m.
  destruct (summaries_agree url Js.of_int 2000 w s eq_refl)
    as (Hstatus & Hsteps & Htotal & Hduration & Hsum & Hs & Hf & Hnone
        & Hempty & Hrate).
  repeat (split; [assumption|]).
  intros Hsome. split; [by apply Hrate|]. reflexivity.
Defined.

(** ** Joining a directory and a plain file name *)

Section PathJoin.

#[local] Arguments String.append !_ _ / : simpl nomatch.

















End PathJoin.

(** ** The preview generator and the files of a packaging pass *)




Lemma written_meta (dir : string) (items : list (string * string)) (fs : FileSystem) :
  fs_denied (written dir items fs) = fs_denied fs
  /\ fs_dirs (written dir items fs) = fs_dirs fs.
Proof. done. Qed.

Section GifProps.
Variable generateAnimatedHtmlPreview : DemoSession -> list string -> string.
Variable generateFfmpegScript : list string -> string -> string.
Variable generateFfmpegBatch : list string -> string -> string.

Local Abbreviation generateGif :=
  (Gif.generateGif generateAnimatedHtmlPreview generateFfmpegScript
                   generateFfmpegBatch).

Lemma collectScreenshots_spec (steps : list DemoStep) (dir : string)
    (fs : FileSystem) :
  Gif.collectScreenshots steps dir fs = (Ok (accessibleShots steps dir fs), fs).
Proof.
  induction steps as [|step rest IH]; simpl; [done|].
  unfold bind at 1.
  destruct (Js.truthy_opt (screenshotPath (step_evidence step))).
  - unfold try_catch, bind at 1, fs_access.
    destruct (fs_files fs !! _); unfold ret; simpl;
      unfold bind; by rewrite IH.
  - unfold ret at 1. unfold bind. by rewrite IH.
Qed.

Lemma accessibleShots_exist (steps : list DemoStep) (dir : string) (fs : FileSystem) :
  Forall (fun p => is_Some (fs_files fs !! p)) (accessibleShots steps dir fs).
Proof.
  induction steps as [|step rest IH]; simpl; [constructor|].
  apply Forall_app. split; [|done].
  destruct (Js.truthy_opt _); [|constructor].
  destruct (fs_files fs !! _) eqn:Hfile; repeat constructor. by rewrite Hfile.
Qed.

(** The files of the preview, for the screenshots found. *)
Local Abbreviation previewItems s dir shots :=
  [ ("animated-preview.html", generateAnimatedHtmlPreview s shots);
    ("generate-gif.sh", generateFfmpegScript shots dir);
    ("generate-gif.bat", generateFfmpegBatch shots dir) ].

(** X26: the preview generator looks for the screenshot of every step,
    relative to the output directory unless the path is absolute, and
    keeps those that exist.  With none it answers null and writes
    nothing; otherwise it writes the animated preview and the two
    scripts for exactly those screenshots and answers the path of the
    preview, or throws at the first of the three files it may not
    write. *)
Theorem gif_preview_outcomes (s : DemoSession) (dir : string) (fs : FileSystem) :
  let shots := accessibleShots (sess_steps s) dir fs in
  Forall (fun p => is_Some (fs_files fs !! p)) shots
  /\ (shots = [] -> generateGif s dir fs = (Ok None, fs))
  /\ (shots <> [] ->
      Forall (fun name => Js.path_join dir name ∉ fs_denied fs) previewNames ->
      generateGif s dir fs
      = (Ok (Some (Js.path_join dir "animated-preview.html")),
         written dir (previewItems s dir shots) fs))
  /\ (shots <> [] ->
      forall before failed after,
        previewItems s dir shots = before ++ failed :: after ->
        Forall (fun item => Js.path_join dir item.1 ∉ fs_denied fs) before ->
        Js.path_join dir failed.1 ∈ fs_denied fs ->
        generateGif s dir fs
        = (Throw (JsError ("EACCES: permission denied, open '"
                             +:+ Js.path_join dir failed.1 +:+ "'")),
           written dir before fs)).
Proof.
  intros shots. split; [apply accessibleShots_exist|].
  assert (shots <> [] ->
          generateGif s dir fs
          = (fs_writeFile (Js.path_join dir "animated-preview.html")
                          (generateAnimatedHtmlPreview s shots) ;;;
             fs_writeFile (Js.path_join dir "generate-gif.sh")
                          (generateFfmpegScript shots dir) ;;;
             fs_writeFile (Js.path_join dir "generate-gif.bat")
                          (generateFfmpegBatch shots dir) ;;;
             ret (Some (Js.path_join dir "animated-preview.html"))) fs) as Hrun.
  { intros Hsome. unfold Gif.generateGif, bind at 1.
    rewrite collectScreenshots_spec. fold shots.
    by destruct shots. }
  split_and!.
  - intros Hnone. unfold Gif.generateGif, bind.
    rewrite collectScreenshots_spec. fold shots. by rewrite Hnone.
  - intros Hsome Hok. rewrite (Hrun Hsome).
    apply Forall_cons in Hok as [Hok1 Hok].
    apply Forall_cons in Hok as [Hok2 Hok].
    apply Forall_cons in Hok as [Hok3 _].
    unfold bind at 1. rewrite fs_writeFile_ok by done.
    unfold bind at 1. rewrite fs_writeFile_ok by done.
    unfold bind at 1. rewrite fs_writeFile_ok by done.
    reflexivity.
  - intros Hsome before failed after Hitems Hok Hdenied. rewrite (Hrun Hsome).
    destruct fs as [files denied dirs].
    repeat (destruct before as [|? before];
            [ injection Hitems as <- _; simpl in Hdenied;
              unfold bind at 1; rewrite fs_writeFile_denied by done; reflexivity
            | injection Hitems as <- Hitems;
              apply Forall_cons in Hok as [? Hok]; simpl in *;
              unfold bind at 1; rewrite fs_writeFile_ok by done; simpl ]).
    destruct before; discriminate Hitems.
Qed.

End GifProps.

Lemma gif_preview_outcomes_witness :
  let s := SampleShots.session in
  let fs := SampleShots.disk in
  let shots := accessibleShots (sess_steps s) "/out" fs in
  shots = ["/out/assets/step-001.png"]
  /\ SamplePackaging.gif s "/out" fs
     = (Ok (Some "/out/animated-preview.html"),
        written "/out"
          [ ("animated-preview.html", "<title>Log In - Animated Preview</title>");
            ("generate-gif.sh", "#!/bin/bash");
            ("generate-gif.bat", "@echo off") ] fs).
Proof.
  intros s fs shots. split; [reflexivity|].
  apply (proj1 (proj2 (proj2
           (gif_preview_outcomes
              (fun s _ => "<title>" +:+ sess_title s +:+ " - Animated Preview</title>")
              (fun _ _ => "#!/bin/bash") (fun _ _ => "@echo off") s "/out" fs)))).
  - discriminate.
  - unfold previewNames. repeat (apply Forall_cons; split; [by intros ?%elem_of_empty|]).
    constructor.
Defined.

Section ReadBackProps.
Variable generateMarkdownGuide : DemoSession -> result string.
Variable stepsJsonText : DemoSession -> result string.
Variable generateHtmlTutorial : DemoSession -> result string.
Variable generateAnimatedHtmlPreview : DemoSession -> list string -> string.
Variable generateFfmpegScript : list string -> string -> string.
Variable generateFfmpegBatch : list string -> string -> string.

Local Abbreviation generateGif :=
  (Gif.generateGif generateAnimatedHtmlPreview generateFfmpegScript
                   generateFfmpegBatch).
Local Abbreviation package :=
  (packageDeliverables generateMarkdownGuide stepsJsonText generateHtmlTutorial
                       generateGif).
Local Abbreviation stagesOf :=
  (stages generateMarkdownGuide stepsJsonText generateHtmlTutorial).

(** Either every stage passes, or there is a first one that fails. *)
Lemma stages_decide (dir : string) (fs : FileSystem)
    (l : list (string * result string)) :
  Forall (stagePasses dir fs) l
  \/ exists before failed after,
       l = before ++ failed :: after
       /\ Forall (stagePasses dir fs) before
       /\ stageFails dir fs failed.
Proof.
  induction l as [|[name r] rest IH]; [left; constructor|].
  destruct r as [content|e].
  - destruct (decide (Js.path_join dir name ∈ fs_denied fs)) as [Hdenied|Hok].
    + right. exists [], (name, Ok content), rest.
      split; [done|]. split; [constructor|by right].
    + destruct IH as [Hall|(before & failed & after & -> & Hbefore & Hfail)].
      * left. constructor; [|done]. split; [by eexists|done].
      * right. exists ((name, Ok content) :: before), failed, after.
        split; [done|]. split; [|done].
        constructor; [|done]. split; [by eexists|done].
  - right. exists [], (name, Throw e), rest.
    split; [done|]. split; [constructor|left; by eexists].
Qed.











End ReadBackProps.


(** ** XML escaping *)

Lemma occurs_app (c : ascii) (a b : string) :
  occurs c (a +:+ b) = occurs c a || occurs c b.
Proof. induction a as [|x a IH]; simpl; [done|]. by rewrite IH, orb_assoc. Qed.

Lemma escapeXml_cons (c : ascii) (rest : string) :
  escapeXml (String c rest) = escapeUnit c +:+ escapeXml rest.
Proof.
  unfold escapeXml, escapeUnit. cbn [replaceAll].
  destruct (Ascii.eqb_spec c "&"%char) as [->|_]; [reflexivity|].
  cbn [replaceAll].
  destruct (Ascii.eqb_spec c "<"%char) as [->|_]; [reflexivity|].
  cbn [replaceAll].
  destruct (Ascii.eqb_spec c ">"%char) as [->|_]; [reflexivity|].
  cbn [replaceAll].
  destruct (Ascii.eqb_spec c (ascii_of_nat 34)) as [->|_]; [reflexivity|].
  cbn [replaceAll].
  destruct (Ascii.eqb_spec c "'"%char) as [->|_]; reflexivity.
Qed.

Lemma escapeUnit_clean (x : ascii) :
  occurs "<"%char (escapeUnit x) = false
  /\ occurs ">"%char (escapeUnit x) = false
  /\ occurs (ascii_of_nat 34) (escapeUnit x) = false
  /\ occurs "'"%char (escapeUnit x) = false.
Proof.
  unfold escapeUnit.
  destruct (Ascii.eqb_spec x "&"%char) as [->|_]; [done|].
  destruct (Ascii.eqb_spec x "<"%char) as [->|H1]; [done|].
  destruct (Ascii.eqb_spec x ">"%char) as [->|H2]; [done|].
  destruct (Ascii.eqb_spec x (ascii_of_nat 34)) as [->|H3]; [done|].
  destruct (Ascii.eqb_spec x "'"%char) as [->|H4]; [done|].
  simpl. rewrite !orb_false_r.
  split_and!; by apply Ascii.eqb_neq.
Qed.

(** X28: the five replacements that [escapeXml] chains come to one pass
    over the text in which each character is replaced on its own: no
    entity written by an earlier replacement is escaped again by a later
    one.  The escaped text holds no angle bracket and no quote, and a
    text without the five characters is returned as it is. *)
Theorem escapeXml_single_pass (text : string) :
  escapeXml text = escapeEach text
  /\ occurs "<"%char (escapeXml text) = false
  /\ occurs ">"%char (escapeXml text) = false
  /\ occurs (ascii_of_nat 34) (escapeXml text) = false
  /\ occurs "'"%char (escapeXml text) = false
  /\ (occurs "&"%char text = false -> occurs "<"%char text = false ->
      occurs ">"%char text = false -> occurs (ascii_of_nat 34) text = false ->
      occurs "'"%char text = false -> escapeXml text = text).
Proof.
  induction text as [|c rest (IH & Hlt & Hgt & Hdq & Hsq & Hplain)].
  - by split_and!.
  - rewrite escapeXml_cons. destruct (escapeUnit_clean c) as (Ult & Ugt & Udq & Usq).
    split_and!.
    + simpl. by rewrite IH.
    + by rewrite occurs_app, Ult, Hlt.
    + by rewrite occurs_app, Ugt, Hgt.
    + by rewrite occurs_app, Udq, Hdq.
    + by rewrite occurs_app, Usq, Hsq.
    + simpl. intros [H1 R1]%orb_false_elim [H2 R2]%orb_false_elim
        [H3 R3]%orb_false_elim [H4 R4]%orb_false_elim [H5 R5]%orb_false_elim.
      unfold escapeUnit. rewrite H1, H2, H3, H4, H5. simpl.
      by rewrite Hplain.
Qed.

Lemma escapeXml_single_pass_witness :
  escapeXml "Tom & Jerry <3" = "Tom &amp; Jerry &lt;3"
  /\ escapeXml "Log in" = "Log in".
Proof.
  split.
  - rewrite (proj1 (escapeXml_single_pass "Tom & Jerry <3")). reflexivity.
  - apply (escapeXml_single_pass "Log in"); reflexivity.
Defined.

(** ** The end tool *)

Section EndToolProps.
Context {Ext : Type} `{Driver Ext}.
Variable generateMarkdownGuide : DemoSession -> result string.
Variable stepsJsonText : DemoSession -> result string.
Variable generateHtmlTutorial : DemoSession -> result string.
Variable generateGif : DemoSession -> string -> Eff FileSystem (option string).

Local Abbreviation package :=
  (packageDeliverables generateMarkdownGuide stepsJsonText generateHtmlTutorial
                       generateGif).
Local Abbreviation endNow :=
  (endTool generateMarkdownGuide stepsJsonText generateHtmlTutorial generateGif).

(** A manifest that packaging returns is the one of the session. *)
Lemma package_Ok_manifest (s : DemoSession) (fs fs' : FileSystem)
    (m : DemoDeliverables) :
  package s fs = (Ok m, fs') -> exists g, m = manifestOf s g fs'.
Proof.
  intros Hrun.
  destruct (stages_decide (opt_outputDir (sess_options s)) fs
              (stages generateMarkdownGuide stepsJsonText generateHtmlTutorial s))
    as [Hpass|(before & failed & after & Hstages & Hbefore & Hfail)].
  - rewrite (package_stages_pass generateMarkdownGuide stepsJsonText
               generateHtmlTutorial generateGif s fs Hpass) in Hrun.
    destruct (generateGif s _ _) as [[g|e] fs1]; [|discriminate Hrun].
    injection Hrun as <- <-. by exists g.
  - rewrite (package_stage_fails generateMarkdownGuide stepsJsonText
               generateHtmlTutorial generateGif s fs before after failed
               Hstages Hbefore Hfail) in Hrun.
    discriminate Hrun.
Qed.

(** X29: the end tool answers a failure only when no session is current,
    and then changes nothing; its other failure answer is never given.
    With a session current it either returns the deliverables of that
    session, with its id, its title and the summary of its log, the
    session being no longer current; or it throws: because the browser
    could not be closed, the session then being still current and marked
    completed, or because packaging threw, the session then being gone
    with nothing to package it again from. *)
Theorem endTool_outcomes (st : World Ext * FileSystem) :
  exists r st',
    endNow st = (r, st')
    /\ r <> Ok (EndFailure "Failed to end session")
    /\ match currentSession st.1 with
       | None => r = Ok (EndFailure "No active demo session") /\ st' = st
       | Some s =>
           match r with
           | Ok (EndSuccess m) =>
               currentSession st'.1 = None
               /\ dl_sessionId m = sess_id s
               /\ dl_title m = sess_title s
               /\ dl_summary m = summaryOf (sess_steps s)
               /\ (closeBrowser (set_status completed s) (ext st.1)).1 = Ok tt
           | Ok (EndFailure _) => False
           | Throw e =>
               match (closeBrowser (set_status completed s) (ext st.1)).1 with
               | Ok _ => currentSession st'.1 = None
               | Throw e' =>
                   e = e' /\ st'.2 = st.2
                   /\ currentSession st'.1 = Some (set_status completed s)
               end
           end
       end.
Proof.
  destruct st as [w fs]. unfold endTool, bind at 1, onWorld, getSession.
  cbn [fst snd].
  destruct (currentSession w) as [s|] eqn:Hcur.
  2:{ eexists _, _. split; [reflexivity|]. by split. }
  unfold bind at 1. cbn [fst snd]. rewrite (endSession_run w s Hcur).
  destruct (closeBrowser (set_status completed s) (ext w)) as [[[]|e] x].
  2:{ eexists _, _. split; [reflexivity|]. by split. }
  unfold bind at 1, onDisk. cbn [fst snd].
  set (ended := set_pages [] _).
  destruct (package ended fs) as [[m|e] fs'] eqn:Hpack.
  - eexists _, _. split; [reflexivity|]. split; [done|]. cbn [fst snd].
    destruct (package_Ok_manifest ended fs fs' m Hpack) as [g ->].
    split_and!; try done; by destruct s.
  - eexists _, _. split; [reflexivity|]. by split.
Qed.

End EndToolProps.

Lemma endTool_outcomes_witness :
  let s := SampleWorld.session [Sample.earlyClick] [(0, 3%nat)] 0 3%nat 1 in
  let st := (SampleWorld.world s, SamplePackaging.emptyDisk) in
  exists r st',
    endTool SamplePackaging.guide SamplePackaging.json SamplePackaging.html
            SamplePackaging.gif st = (r, st')
    /\ r <> Ok (EndFailure "Failed to end session")
    /\ match r with
       | Ok (EndSuccess m) =>
           currentSession st'.1 = None
           /\ dl_sessionId m = sess_id s
           /\ dl_title m = sess_title s
           /\ dl_summary m = summaryOf (sess_steps s)
           /\ (closeBrowser (set_status completed s) (ext st.1)).1 = Ok tt
       | Ok (EndFailure _) => False
       | Throw e =>
           match (closeBrowser (set_status completed s) (ext st.1)).1 with
           | Ok _ => currentSession st'.1 = None
           | Throw e' =>
               e = e' /\ st'.2 = st.2
               /\ currentSession st'.1 = Some (set_status completed s)
           end
       end.
Proof.
  intros s st.
  exact (endTool_outcomes SamplePackaging.guide SamplePackaging.json
           SamplePackaging.html SamplePackaging.gif st).
Defined.

(** ** The narrations of one log *)

Lemma stepSegments_told (steps : list DemoStep) : forall p,
  map (fun seg => (VideoSync.stepId seg, VideoSync.text seg)) (stepSegments p steps)
  = toldSteps steps.
Proof.
  unfold toldSteps.
  induction steps as [|step rest IH]; intros p; simpl; [done|].
  destruct (narrated step); simpl; by rewrite IH.
Qed.

Lemma estimatedLayout_told (steps : list DemoStep) : forall t,
  map (fun e => (Estimated.stepId e, Estimated.text e)) (estimatedLayout t steps)
  = toldSteps steps.
Proof.
  unfold toldSteps.
  induction steps as [|step rest IH]; intros t; simpl; [done|].
  destruct (narrated step); simpl; by rewrite IH.
Qed.

(** X30: the narration script, the timed narration of either revision
    and the subtitles tell the same steps, in the order of the log, with
    the same words: the steps whose narration is not empty.  The script
    has a block of three lines for each; the timed narrations have an
    entry for each between the intro, of id 0, and the outro, of id -1;
    the subtitles have the texts of those entries. *)
Theorem narrations_agree (s : DemoSession) :
  let told := toldSteps (sess_steps s) in
  let framed := (0, introText (sess_title s)) :: told
                ++ [(-1, outroText (sess_title s))] in
  map (fun seg => (VideoSync.stepId seg, VideoSync.text seg))
      (VideoSync.segments (VideoSync.generateTimedNarration s)) = framed
  /\ map (fun e => (Estimated.stepId e, Estimated.text e))
         (Estimated.generateTimedNarration s) = framed
  /\ map cue_text (cuesOf s) = map snd framed
  /\ concat (map narrationLines (sess_steps s))
     = concat (map (fun t => ["[Step " +:+ Js.of_int t.1 +:+ "]"; t.2; EmptyString])
                   told)
  /\ Forall (fun t => t.2 <> EmptyString) told
  /\ length told = narratedCount (sess_steps s).
Proof.
  intros told framed. split_and!.
  - rewrite segments_shape. simpl. rewrite map_app, stepSegments_told. done.
  - rewrite estimated_shape. simpl. rewrite map_app, estimatedLayout_told. done.
  - assert (map cue_text (cuesOf s)
            = map VideoSync.text
                (VideoSync.segments (VideoSync.generateTimedNarration s))) as ->.
    { apply list_eq. intros i. rewrite !list_lookup_fmap, cuesOf_lookup.
      by destruct (VideoSync.segments (VideoSync.generateTimedNarration s) !! i). }
    rewrite segments_shape. unfold framed, told.
    rewrite <- (stepSegments_told (sess_steps s) 2000).
    simpl. rewrite !map_app, !map_map. done.
  - unfold told, toldSteps. induction (sess_steps s) as [|step rest IH]; [done|].
    simpl. unfold narrationLines at 1. fold (narrated step).
    destruct (narrated step); simpl; by rewrite IH.
  - unfold told, toldSteps. apply Forall_map.
    induction (sess_steps s) as [|step rest IH]; simpl; [constructor|].
    destruct (narrated step) eqn:Hn; [|done]. constructor; [|done].
    simpl. unfold narrated in Hn. by destruct (stepToNarration step).
  - unfold told, toldSteps. rewrite length_map.
    induction (sess_steps s) as [|step rest IH]; simpl; [done|].
    destruct (narrated step); simpl; by rewrite IH.
Qed.
